(** * Citation workflow: reconciliation, lookup and safe patching

    A shallow embedding of [citation_workflow.py] (class [CitationWorkflow])
    and the properties of its reconciliation, scheduling, lookup and
    document-patching steps.

    Conventions of the embedding.
    - A Python [str] is a Rocq [string]; a character is a code point below
      256 (the Latin-1 range of Python's [str]), on which the Unicode-aware
      classes of the source ([\d], [\s], [str.lower], [str.strip]) are the
      ones written out below.
    - A Python [dict] is an association list in insertion order, with the
      update-in-place / append-at-end behaviour of [d[k] = v].
    - The files, the clock, the lookup service and the process exit are an
      explicit [world] threaded through a state-and-exit monad. *)

From Stdlib Require Import String Ascii List ZArith NArith Lia Bool Arith.
From Stdlib Require Import DecimalString Permutation Sorted.
Import ListNotations.

Local Open Scope string_scope.
Local Open Scope list_scope.

(** ** Python strings *)

Module PyStr.

Definition code (c : ascii) : N := N_of_ascii c.

(** [\d] of [re] on [str], and [str.isdigit], below code point 256. *)
Definition isdigit (c : ascii) : bool :=
  ((48 <=? code c) && (code c <=? 57))%N.

(** [\s] of [re] on [str], and the characters [str.strip()] removes,
    below code point 256: TAB..CR, FS..US, space, NEL and NBSP. *)
Definition isspace (c : ascii) : bool :=
  (((9 <=? code c) && (code c <=? 13))
   || ((28 <=? code c) && (code c <=? 32))
   || (code c =? 133) || (code c =? 160))%N.

(** [.] of [re] without DOTALL: anything but a line feed. *)
Definition isdot (c : ascii) : bool := negb (code c =? 10)%N.

(** [str.lower] on one character: A-Z, and the upper-case letters of
    Latin-1 (0xC0-0xDE without the multiplication sign 0xD7). *)
Definition lower_char (c : ascii) : ascii :=
  if (((65 <=? code c) && (code c <=? 90))
      || ((192 <=? code c) && (code c <=? 222) && negb (code c =? 215)))%N
  then ascii_of_N (code c + 32) else c.

Fixpoint lower (s : string) : string :=
  match s with
  | EmptyString => EmptyString
  | String c s' => String (lower_char c) (lower s')
  end.

(** [s[n:]] and [s[:n]] for [n >= 0]. *)
Fixpoint drop (n : nat) (s : string) : string :=
  match n, s with
  | O, _ => s
  | S _, EmptyString => EmptyString
  | S n', String _ s' => drop n' s'
  end.

Fixpoint take (n : nat) (s : string) : string :=
  match n, s with
  | O, _ => EmptyString
  | S _, EmptyString => EmptyString
  | S n', String c s' => String c (take n' s')
  end.

Fixpoint lstrip (s : string) : string :=
  match s with
  | EmptyString => EmptyString
  | String c s' => if isspace c then lstrip s' else s
  end.

(** [rstrip], by structural recursion: a character is kept when it is
    not a space or when something is kept after it. *)
Fixpoint rstrip (s : string) : string :=
  match s with
  | EmptyString => EmptyString
  | String c s' =>
      match rstrip s' with
      | EmptyString => if isspace c then EmptyString else String c EmptyString
      | r => String c r
      end
  end.

Definition strip (s : string) : string := rstrip (lstrip s).

(** [s.startswith(p)]. *)
Definition startswith (p s : string) : bool := String.prefix p s.

(** [sub in s]. *)
Fixpoint contains (sub s : string) : bool :=
  String.prefix sub s ||
  match s with
  | EmptyString => false
  | String _ s' => contains sub s'
  end.

(** [str(n)] / [f"{n}"] for an [int]. *)
Definition of_Z (n : Z) : string := NilZero.string_of_int (Z.to_int n).

(** Comparison of [str] values: lexicographic on code points. *)
Definition lt (a b : string) : bool := String.ltb a b.
Definition le (a b : string) : bool := String.leb a b.

End PyStr.

(** ** The three regular expressions of the source

    Each pattern of the source is written out as the matcher that Python's
    backtracking [re] engine computes for it; scanning functions
    ([findall], [finditer], [search], [sub]) go left to right over
    non-overlapping matches. *)

Module Re.
Import PyStr.

(** Number of leading characters satisfying [p]. *)
Fixpoint span (p : ascii -> bool) (s : string) : nat :=
  match s with
  | EmptyString => O
  | String c s' => if p c then S (span p s') else O
  end.

(** *** [\[!\[\]\(https://img\.shields\.io/badge/citation-\d+-blue\)\]\(\)] *)

Definition badge_prefix : string := "[![](https://img.shields.io/badge/citation-".
Definition badge_suffix : string := "-blue)]()".

(** Length of the badge matched at the start of [s], if any.  [\d+] is
    greedy; giving a digit back never helps, since the suffix starts
    with [-], so the maximal run of digits decides. *)
Definition match_badge (s : string) : option nat :=
  if String.prefix badge_prefix s then
    let r := drop (String.length badge_prefix) s in
    let d := span isdigit r in
    if (0 <? d)%nat && String.prefix badge_suffix (drop d r)
    then Some (String.length badge_prefix + d + String.length badge_suffix)%nat
    else None
  else None.

(** [re.search(badge_pattern, s)]: start and end of the leftmost match. *)
Fixpoint search_badge (s : string) : option (nat * nat) :=
  match match_badge s with
  | Some len => Some (O, len)
  | None =>
      match s with
      | EmptyString => None
      | String _ s' =>
          match search_badge s' with
          | Some (b, e) => Some (S b, S e)
          | None => None
          end
      end
  end.

(** [re.sub(badge_pattern, '', s)]; [skip] counts the characters of the
    current match still to be dropped. *)
Fixpoint sub_badge_from (skip : nat) (s : string) : string :=
  match s with
  | EmptyString => EmptyString
  | String c s' =>
      match skip with
      | S k => sub_badge_from k s'
      | O =>
          match match_badge s with
          | Some len => sub_badge_from (pred len) s'
          | None => String c (sub_badge_from O s')
          end
      end
  end.

Definition sub_badge (s : string) : string := sub_badge_from O s.

(** *** [r'\*\*' + re.escape(title) + r'\*\*'] *)

(** The escaped title matches itself, so the pattern is the literal
    [**title**]. *)
Definition title_markup (title : string) : string := "**" ++ title ++ "**".

(** [[m.start() for m in re.finditer(lit, s)]] for a non-empty literal:
    [pos] is the offset of [s] in the text, [skip] the characters of the
    current match still to pass. *)
Fixpoint finditer_from (lit : string) (pos skip : nat) (s : string) : list nat :=
  match s with
  | EmptyString => []
  | String _ s' =>
      match skip with
      | S k => finditer_from lit (S pos) k s'
      | O =>
          if String.prefix lit s
          then pos :: finditer_from lit (S pos) (pred (String.length lit)) s'
          else finditer_from lit (S pos) O s'
      end
  end.

Definition finditer_title (title s : string) : list nat :=
  finditer_from (title_markup title) O O s.

(** *** [\*\*(.*?)\*\*\s*\[] *)

(** [\*\*\s*\[] at the start of [s]: the length matched.  [\s*] is
    greedy and [\[] is not a space, so again the maximal run decides. *)
Definition match_close (s : string) : option nat :=
  if String.prefix "**" s then
    let r := drop 2 s in
    let w := span isspace r in
    if String.prefix "[" (drop w r) then Some (2 + w + 1)%nat else None
  else None.

(** [(.*?)\*\*\s*\[] at the start of [s]: the lazy group takes the
    fewest characters, none of them a line feed, after which the rest
    of the pattern matches.  Returns the group and the length matched. *)
Fixpoint match_lazy (s : string) : option (string * nat) :=
  match match_close s with
  | Some n => Some (EmptyString, n)
  | None =>
      match s with
      | EmptyString => None
      | String c s' =>
          if isdot c then
            match match_lazy s' with
            | Some (g, n) => Some (String c g, S n)
            | None => None
            end
          else None
      end
  end.

Definition match_entry (s : string) : option (string * nat) :=
  if String.prefix "**" s then
    match match_lazy (drop 2 s) with
    | Some (g, n) => Some (g, (2 + n)%nat)
    | None => None
    end
  else None.

(** [re.findall(pattern, s)]: the group of every match. *)
Fixpoint findall_from (skip : nat) (s : string) : list string :=
  match s with
  | EmptyString => []
  | String _ s' =>
      match skip with
      | S k => findall_from k s'
      | O =>
          match match_entry s with
          | Some (g, len) => g :: findall_from (pred len) s'
          | None => findall_from O s'
          end
      end
  end.

Definition findall_entries (s : string) : list string := findall_from O s.

End Re.

(** ** Python dictionaries, in insertion order *)

Module Dict.

Section Ops.
Context {V : Type}.

Definition t := list (string * V).

(** [d.get(k)] / [d[k]] ([None] is the [KeyError]). *)
Fixpoint get (k : string) (d : t) : option V :=
  match d with
  | [] => None
  | (k', v) :: d' => if String.eqb k k' then Some v else get k d'
  end.

(** [k in d]. *)
Definition mem (k : string) (d : t) : bool :=
  match get k d with Some _ => true | None => false end.

(** [d[k] = v]: an existing key keeps its position, a new one goes
    last. *)
Fixpoint set (k : string) (v : V) (d : t) : t :=
  match d with
  | [] => [(k, v)]
  | (k', v') :: d' =>
      if String.eqb k k' then (k', v) :: d' else (k', v') :: set k v d'
  end.

(** [list(d.keys())]. *)
Definition keys (d : t) : list string := map fst d.

End Ops.
Arguments t : clear implicits.

End Dict.

(** ** [datetime]: the format ['%Y-%m-%d-%H:%M:%S'] *)

Module DateTime.
Import PyStr.

(** A naive [datetime.datetime]. *)
Record datetime := mk_datetime {
  year : Z; month : Z; day : Z;
  hour : Z; minute : Z; second : Z; microsecond : Z
}.

Definition is_leap (y : Z) : bool :=
  ((y mod 4 =? 0) && (negb (y mod 100 =? 0) || (y mod 400 =? 0)))%Z.

Definition days_in_month (y m : Z) : Z :=
  if (m =? 2)%Z then (if is_leap y then 29 else 28)%Z
  else if ((m =? 4) || (m =? 6) || (m =? 9) || (m =? 11))%Z then 30%Z
  else 31%Z.

(** Days before the first of month [m] in year [y]. *)
Definition days_before_month (y m : Z) : Z :=
  fold_right (fun k acc => (days_in_month y (Z.of_nat k) + acc)%Z) 0%Z
             (seq 1 (Z.to_nat (m - 1))).

(** Days before January 1st of year [y]. *)
Definition days_before_year (y : Z) : Z :=
  let p := (y - 1)%Z in (p * 365 + p / 4 - p / 100 + p / 400)%Z.

(** [date.toordinal()]: January 1st of year 1 is day 1. *)
Definition toordinal (d : datetime) : Z :=
  (days_before_year (year d) + days_before_month (year d) (month d) + day d)%Z.

(** The constructor's range check ([ValueError] outside it). *)
Definition valid (d : datetime) : bool :=
  ((1 <=? year d) && (year d <=? 9999)
   && (1 <=? month d) && (month d <=? 12)
   && (1 <=? day d) && (day d <=? days_in_month (year d) (month d))
   && (0 <=? hour d) && (hour d <=? 23)
   && (0 <=? minute d) && (minute d <=? 59)
   && (0 <=? second d) && (second d <=? 59)
   && (0 <=? microsecond d) && (microsecond d <=? 999999))%Z.

(** Microseconds since the start of day 0; [a - b] of two datetimes is
    the [timedelta] of [to_us a - to_us b] microseconds. *)
Definition to_us (d : datetime) : Z :=
  ((((toordinal d * 24 + hour d) * 60 + minute d) * 60 + second d) * 1000000
   + microsecond d)%Z.

(** [timedelta(hours=h)] in microseconds. *)
Definition timedelta_hours (h : Z) : Z := (h * 3600 * 1000000)%Z.

(** *** [strftime] *)

Definition digit_char (n : Z) : ascii := ascii_of_N (48 + Z.to_N (n mod 10)).

Definition pad2 (n : Z) : string :=
  String (digit_char (n / 10)) (String (digit_char n) EmptyString).

Definition pad4 (n : Z) : string :=
  String (digit_char (n / 1000)) (String (digit_char (n / 100)) (pad2 n)).

(** [d.strftime('%Y-%m-%d-%H:%M:%S')], every field zero-padded. *)
Definition strftime (d : datetime) : string :=
  pad4 (year d) ++ "-" ++ pad2 (month d) ++ "-" ++ pad2 (day d) ++ "-"
  ++ pad2 (hour d) ++ ":" ++ pad2 (minute d) ++ ":" ++ pad2 (second d).

(** *** [strptime]

    [_strptime] turns the format into the regular expression
    [(\d\d\d\d)-(1[0-2]|0[1-9]|[1-9])-(3[0-1]|[1-2]\d|0[1-9]|[1-9]| [1-9])-(2[0-3]|[0-1]\d|\d):([0-5]\d|\d):(6[0-1]|[0-5]\d|\d)],
    matches it at the start of the string, rejects a match that leaves
    characters over, and builds the datetime, whose constructor checks
    the ranges.  A parser returns its matches in the engine's order of
    preference; the first complete one is the engine's match. *)

Definition parser (A : Type) := string -> list (A * string).

Definition digit_val (c : ascii) : Z := (Z.of_N (code c) - 48)%Z.

(** One character in the range [lo..hi] of digits. *)
Definition digit_in (lo hi : Z) : parser Z := fun s =>
  match s with
  | String c s' =>
      if isdigit c && (lo <=? digit_val c)%Z && (digit_val c <=? hi)%Z
      then [(digit_val c, s')] else []
  | EmptyString => []
  end.

Definition lit (c : ascii) : parser unit := fun s =>
  match s with
  | String c' s' => if Ascii.eqb c c' then [(tt, s')] else []
  | EmptyString => []
  end.

Definition pbind {A B} (p : parser A) (f : A -> parser B) : parser B :=
  fun s => flat_map (fun '(a, r) => f a r) (p s).

Definition pret {A} (a : A) : parser A := fun s => [(a, s)].

Definition alt {A} (p q : parser A) : parser A := fun s => p s ++ q s.

(** Two digits, the first in [a..b], the second in [c..d]. *)
Definition two (a b c d : Z) : parser Z :=
  pbind (digit_in a b) (fun x => pbind (digit_in c d) (fun y => pret (10 * x + y)%Z)).

Definition one (a b : Z) : parser Z := digit_in a b.

Definition p_Y : parser Z :=
  pbind (digit_in 0 9) (fun a => pbind (digit_in 0 9) (fun b =>
  pbind (digit_in 0 9) (fun c => pbind (digit_in 0 9) (fun d =>
  pret (1000 * a + 100 * b + 10 * c + d)%Z)))).
Definition p_m : parser Z := alt (two 1 1 0 2) (alt (two 0 0 1 9) (one 1 9)).
Definition p_d : parser Z :=
  alt (two 3 3 0 1) (alt (two 1 2 0 9) (alt (two 0 0 1 9) (alt (one 1 9)
      (pbind (lit " ") (fun _ => one 1 9))))).
Definition p_H : parser Z := alt (two 2 2 0 3) (alt (two 0 1 0 9) (one 0 9)).
Definition p_M : parser Z := alt (two 0 5 0 9) (one 0 9).
Definition p_S : parser Z := alt (two 6 6 0 1) (alt (two 0 5 0 9) (one 0 9)).

Definition p_format : parser datetime :=
  pbind p_Y (fun y => pbind (lit "-") (fun _ =>
  pbind p_m (fun m => pbind (lit "-") (fun _ =>
  pbind p_d (fun d => pbind (lit "-") (fun _ =>
  pbind p_H (fun h => pbind (lit ":") (fun _ =>
  pbind p_M (fun mi => pbind (lit ":") (fun _ =>
  pbind p_S (fun sec => pret (mk_datetime y m d h mi sec 0)))))))))))).

(** [datetime.strptime(s, '%Y-%m-%d-%H:%M:%S')]; [None] is the
    [ValueError]. *)
Definition strptime (s : string) : option datetime :=
  match p_format s with
  | (d, EmptyString) :: _ => if valid d then Some d else None
  | _ => None
  end.

End DateTime.

(** ** The data of the workflow *)

(** A record of [citations.json]: [{"title", "citations", "last_updated"}].
    The source reads ["last_updated"] with [.get] and a default, so the
    field may be absent. *)
Module Paper.
Record t := mk {
  title : string;
  citations : Z;
  last_updated : option string
}.
End Paper.

(** The ["papers"] mapping of [citations.json], keyed by the title found in
    the document.  The one-key wrapper [{'papers': ...}] is left implicit. *)
Definition store := Dict.t Paper.t.

(** A candidate of the search result; both fields may be missing. *)
Module Candidate.
Record t := mk {
  title : option string;
  citationCount : option Z
}.
End Candidate.

(** What one [requests.get] can come to, as far as the source tells the
    cases apart. *)
Inductive response :=
| Status429                                   (* status_code == 429 *)
| HTTPError (e : string)                      (* raise_for_status() raised; [e] is str(e) *)
| RequestException                            (* another requests exception *)
| Json (data : option (list Candidate.t)).    (* the body's "data", [None] when absent *)

(** An entry of [updated_papers]. *)
Module Updated.
Record t := mk {
  title : string;
  old : Z;
  new : Z;
  change : Z;
  updated_time : option string
}.
End Updated.

(** An entry of [paper_info], the list that is sorted. *)
Module Info.
Record t := mk {
  title : string;
  citations : Z;
  last_updated : string
}.
End Info.

(** The value [update_paper_citation] returns: [(True, new_citation)] or
    [(False, reason)]. *)
Inductive lookup_result :=
| Updated_to (new_citation : Z)
| Failed (reason : string).

(** ** The world: files, clock, service, and what the run did *)

Inductive file (A : Type) :=
| Absent                 (* FileNotFoundError *)
| Unreadable             (* any other failure to read or decode *)
| Content (a : A).
Arguments Absent {A}.
Arguments Unreadable {A}.
Arguments Content {A} a.

Inductive event :=
| EvPaper (title : string)           (* a lookup starts for this store key *)
| EvRequest (query : string)         (* requests.get with this query *)
| EvSleep (seconds : Z)              (* time.sleep *)
| EvSave (data : store)              (* citations.json rewritten *)
| EvWriteReadme (content : string).  (* README.md rewritten *)

Record world := mk_world {
  readme_file : file string;
  citations_file : file store;
  service : nat -> response;    (* the answer to the n-th request *)
  requests_made : nat;
  clock : nat -> DateTime.datetime;   (* the n-th reading of datetime.now() *)
  clock_reads : nat;
  trace : list event            (* oldest first *)
}.

(** A computation returns a value and the next world, or the process
    exits ([None]): [sys.exit(1)], or an exception nothing catches before
    [run_workflow] exits on it. *)
Definition M (A : Type) : Type := world -> option (A * world).

Definition ret {A} (a : A) : M A := fun w => Some (a, w).

Definition bind {A B} (m : M A) (f : A -> M B) : M B :=
  fun w => match m w with
           | Some (a, w') => f a w'
           | None => None
           end.

Definition exit {A} : M A := fun _ => None.

Declare Scope M_scope.
Delimit Scope M_scope with M.
Notation "x <- m ;; k" := (bind m (fun x => k))
  (at level 61, m at next level, right associativity) : M_scope.
Notation "m ;; k" := (bind m (fun _ => k))
  (at level 61, right associativity) : M_scope.
Local Open Scope M_scope.

(** The changes a step makes to the world. *)
Definition log (e : event) (w : world) : world :=
  mk_world (readme_file w) (citations_file w) (service w) (requests_made w)
           (clock w) (clock_reads w) (trace w ++ [e]).

Definition tick (w : world) : world :=
  mk_world (readme_file w) (citations_file w) (service w) (requests_made w)
           (clock w) (S (clock_reads w)) (trace w).

Definition next_request (w : world) : world :=
  mk_world (readme_file w) (citations_file w) (service w) (S (requests_made w))
           (clock w) (clock_reads w) (trace w).

Definition with_citations (data : store) (w : world) : world :=
  mk_world (readme_file w) (Content data) (service w) (requests_made w)
           (clock w) (clock_reads w) (trace w).

Definition with_readme (content : string) (w : world) : world :=
  mk_world (Content content) (citations_file w) (service w) (requests_made w)
           (clock w) (clock_reads w) (trace w).

Definition emit (e : event) : M unit := fun w => Some (tt, log e w).

(** [datetime.now()] *)
Definition now : M DateTime.datetime := fun w =>
  Some (clock w (clock_reads w), tick w).

(** [time.sleep(seconds)] *)
Definition sleep (seconds : Z) : M unit := emit (EvSleep seconds).

(** [requests.get(base_url, params={"query": query, ...}, headers=headers)] *)
Definition requests_get (query : string) : M response := fun w =>
  Some (service w (requests_made w), log (EvRequest query) (next_request w)).

Definition read_readme : M (file string) := fun w => Some (readme_file w, w).

Definition write_readme (content : string) : M unit := fun w =>
  Some (tt, log (EvWriteReadme content) (with_readme content w)).

(** ** [CitationWorkflow] *)

(** [self.api_delay], [self.skip_recent_hours] *)
Definition api_delay : Z := 1.
Definition skip_recent_hours : Z := 24.

Definition epoch_sentinel : string := "1970-01-01-00:00:00".

(** The list comprehension of [extract_titles_from_md]. *)
Definition paper_titles_of (content : string) : list string :=
  map PyStr.strip
      (filter (fun title => negb (PyStr.startswith "[" title)
                            && (10 <? String.length (PyStr.strip title))%nat)
              (Re.findall_entries content)).

Definition extract_titles_from_md : M (list string) :=
  content <- read_readme ;;
  match content with
  | Content content => ret (paper_titles_of content)
  | _ => exit
  end.

Definition load_citations : M store := fun w =>
  match citations_file w with
  | Content data => Some (data, w)
  | Absent => Some ([], w)
  | Unreadable => None
  end.

(** [save_citations]: the file is taken to be writable. *)
Definition save_citations (data : store) : M unit := fun w =>
  Some (tt, log (EvSave data) (with_citations data w)).

(** The record a new paper gets. *)
Definition new_paper (title : string) : Paper.t :=
  Paper.mk title 0 (Some epoch_sentinel).

(** One turn of the synchronisation loop. *)
Definition sync_step (citations_data new_citations : store) (title : string) : store :=
  match Dict.get title citations_data with
  | Some paper => Dict.set title paper new_citations
  | None => Dict.set title (new_paper title) new_citations
  end.

Definition sync_loop (citations_data : store) (md_titles : list string) : store :=
  fold_left (sync_step citations_data) md_titles [].

(** [removed_papers], as the list of old keys not in the document. *)
Definition removed_papers (citations_data : store) (md_titles : list string) : list string :=
  filter (fun k => negb (existsb (String.eqb k) md_titles)) (Dict.keys citations_data).

Definition sync_papers : M store :=
  md_titles <- extract_titles_from_md ;;
  citations_data <- load_citations ;;
  current_date <- now ;;
  let new_citations := sync_loop citations_data md_titles in
  save_citations new_citations ;;
  ret new_citations.

Definition is_recently_updated (last_updated_str : string) : M bool :=
  match DateTime.strptime last_updated_str with
  | Some last_updated =>
      current <- now ;;
      let time_diff := (DateTime.to_us current - DateTime.to_us last_updated)%Z in
      ret (time_diff <? DateTime.timedelta_hours skip_recent_hours)%Z
  | None => ret false
  end.

(** [not data.get("data") or len(data["data"]) == 0] *)
Definition no_results (data : option (list Candidate.t)) : bool :=
  match data with
  | None | Some [] => true
  | Some (_ :: _) => false
  end.

(** The loop over [data["data"]]: the first candidate that carries both
    fields and whose title equals [search_title] up to case, with its
    count. *)
Fixpoint find_exact (search_title : string) (data : list Candidate.t)
  : option (Candidate.t * Z) :=
  match data with
  | [] => None
  | paper :: rest =>
      match Candidate.title paper, Candidate.citationCount paper with
      | Some t, Some new_citation =>
          if String.eqb (PyStr.lower t) (PyStr.lower search_title)
          then Some (paper, new_citation)
          else find_exact search_title rest
      | _, _ => find_exact search_title rest
      end
  end.

(** The assignments to [paper_data["papers"][title]] on a match. *)
Definition record_citation (title : string) (paper : Paper.t) (new_citation : Z)
           (current_time : string) (paper_data : store) : store :=
  Dict.set title (Paper.mk (Paper.title paper) new_citation (Some current_time)) paper_data.

(** The body of [for attempt in range(retry_limit)], with [todo] turns of
    the loop left.  The diagnostics printed on a mismatch (which read the
    document through [extract_authors_from_readme], catching everything)
    change nothing and are left out. *)
Fixpoint attempts (title search_title : string) (paper : Paper.t) (paper_data : store)
         (retry_limit todo attempt : nat) : M (lookup_result * store) :=
  match todo with
  | O => ret (Failed "Exceeded maximum retry attempts", paper_data)
  | S todo' =>
      let retry_or (reason : string) : M (lookup_result * store) :=
        if (attempt <? retry_limit - 1)%nat
        then sleep api_delay ;;
             attempts title search_title paper paper_data retry_limit todo' (S attempt)
        else ret (Failed reason, paper_data) in
      response <- requests_get search_title ;;
      match response with
      | Status429 => retry_or "Maximum retry attempts reached"
      | HTTPError e =>
          if PyStr.contains "429" e
          then retry_or "Maximum retry attempts reached"
          else retry_or "HTTP error"
      | RequestException => retry_or "Request exception"
      | Json data =>
          if no_results data then retry_or "API returned empty results"
          else
            match find_exact search_title (match data with Some l => l | None => [] end) with
            | Some (_, new_citation) =>
                current <- now ;;
                let paper_data' :=
                  record_citation title paper new_citation (DateTime.strftime current) paper_data in
                save_citations paper_data' ;;
                ret (Updated_to new_citation, paper_data')
            | None => ret (Failed "Title not exactly matched", paper_data)
            end
      end
  end.

(** [update_paper_citation(title, paper_data, retry_limit)]; the store is
    mutated in place in the source and returned here.  A missing key is a
    [KeyError] that nothing catches. *)
Definition update_paper_citation (title : string) (paper_data : store) (retry_limit : nat)
  : M (lookup_result * store) :=
  match Dict.get title paper_data with
  | None => exit
  | Some paper =>
      emit (EvPaper title) ;;
      attempts title (Paper.title paper) paper paper_data retry_limit retry_limit O
  end.

Definition default_retry_limit : nat := 3.

(** [sorted(l, key=...)]: a stable sort, ascending in the [str] order of
    the keys.  An element goes in front of the first one whose key is not
    smaller. *)
Section Sorted.
Context {A : Type} (key : A -> string).

Fixpoint insert_sorted (x : A) (l : list A) : list A :=
  match l with
  | [] => [x]
  | y :: l' => if PyStr.le (key x) (key y) then x :: l else y :: insert_sorted x l'
  end.

Fixpoint sorted (l : list A) : list A :=
  match l with
  | [] => []
  | x :: l' => insert_sorted x (sorted l')
  end.
End Sorted.

(** [info.get("last_updated", "1970-01-01-00:00:00")] *)
Definition last_updated_or_default (info : Paper.t) : string :=
  match Paper.last_updated info with
  | Some s => s
  | None => epoch_sentinel
  end.

Definition paper_info_of (citations_data : store) : list Info.t :=
  map (fun '(title, info) =>
         Info.mk title (Paper.citations info) (last_updated_or_default info))
      citations_data.

Definition paper_titles_ordered_of (citations_data : store) : list string :=
  map Info.title (sorted Info.last_updated (paper_info_of citations_data)).

(** The loop that fills [sorted_data]. *)
Fixpoint reorder (citations_data : store) (titles : list string) (sorted_data : store)
  : M store :=
  match titles with
  | [] => ret sorted_data
  | title :: rest =>
      match Dict.get title citations_data with
      | Some info => reorder citations_data rest (Dict.set title info sorted_data)
      | None => exit
      end
  end.

(** The first pass, which counts the papers that need an update. *)
Fixpoint count_due (sorted_data : store) (titles : list string) (need_update_count : nat)
  : M nat :=
  match titles with
  | [] => ret need_update_count
  | title :: rest =>
      match Dict.get title sorted_data with
      | None => exit
      | Some info =>
          recent <- is_recently_updated (last_updated_or_default info) ;;
          count_due sorted_data rest
                    (if recent then need_update_count else S need_update_count)
      end
  end.

(** The state the second pass carries. *)
Record progress := mk_progress {
  sorted_data : store;
  updated_papers : list Updated.t;
  skipped_papers : list (string * string);     (* title, reason *)
  skipped_recent : list (string * string)      (* title, last_updated *)
}.

(** What the loop records after a lookup: an entry of [updated_papers] on
    success (the source computes [old] from the stored count, which is
    already the new one), an entry of [skipped_papers] otherwise. *)
Definition note_outcome (title : string) (outcome : lookup_result) (data : store)
           (st : progress) : progress :=
  match outcome with
  | Updated_to result =>
      match Dict.get title data with
      | Some p =>
          let old_citations := (Paper.citations p - result)%Z in
          mk_progress data
            (updated_papers st ++
               [Updated.mk title old_citations (Paper.citations p)
                           (Paper.citations p - old_citations)
                           (Paper.last_updated p)])
            (skipped_papers st) (skipped_recent st)
      | None =>
          mk_progress data (updated_papers st) (skipped_papers st) (skipped_recent st)
      end
  | Failed reason =>
      mk_progress data (updated_papers st)
                  (skipped_papers st ++ [(title, reason)]) (skipped_recent st)
  end.

(** What it records for a paper updated within the last 24 hours. *)
Definition note_recent (title last_updated : string) (st : progress) : progress :=
  mk_progress (sorted_data st) (updated_papers st) (skipped_papers st)
              (skipped_recent st ++ [(title, last_updated)]).

(** The second pass: [for index, title in enumerate(paper_titles_ordered)],
    from [index] on, [total] being [len(paper_titles_ordered)]. *)
Fixpoint update_loop (titles : list string) (index total : nat) (st : progress)
  : M progress :=
  match titles with
  | [] => ret st
  | title :: rest =>
      match Dict.get title (sorted_data st) with
      | None => exit
      | Some info =>
          let last_updated := last_updated_or_default info in
          recent <- is_recently_updated last_updated ;;
          if recent then
            update_loop rest (S index) total (note_recent title last_updated st)
          else
            r <- update_paper_citation title (sorted_data st) default_retry_limit ;;
            let st' := note_outcome title (fst r) (snd r) st in
            (if (index <? total - 1)%nat then sleep api_delay else ret tt) ;;
            update_loop rest (S index) total st'
      end
  end.

(** [get_citations(citations_data)], up to the final report; the source
    returns [sorted_data] and [updated_papers], which are in the state
    returned here. *)
Definition get_citations_progress (citations_data : store) : M progress :=
  let paper_titles_ordered := paper_titles_ordered_of citations_data in
  sorted_data <- reorder citations_data paper_titles_ordered [] ;;
  save_citations sorted_data ;;
  need_update_count <- count_due sorted_data paper_titles_ordered O ;;
  update_loop paper_titles_ordered O (List.length paper_titles_ordered)
              (mk_progress sorted_data [] [] []).

(** [get_citations(citations_data)]: the passes above, then the report,
    whose percentages divide by [len(paper_titles_ordered)]; for a store
    without papers that division raises [ZeroDivisionError], which nothing
    catches before [run_workflow] exits on it. *)
Definition get_citations (citations_data : store) : M (store * list Updated.t) :=
  st <- get_citations_progress citations_data ;;
  match paper_titles_ordered_of citations_data with
  | [] => exit
  | _ :: _ => ret (sorted_data st, updated_papers st)
  end.

(** The f-string of [new_badge]. *)
Definition new_badge_of (citations : Z) : string :=
  "[![](https://img.shields.io/badge/citation-" ++ PyStr.of_Z citations ++ "-blue)]()".

(** The state of the patching loop: [md_content], [updated_count],
    [error_count]. *)
Definition patch_state : Type := string * nat * nat.

(** One turn of [for paper_title in papers_to_update]; every failure is
    caught in the source and counted. *)
Definition patch_paper (citations_data : store) (st : patch_state) (paper_title : string)
  : patch_state :=
  let '(md_content, updated_count, error_count) := st in
  match Dict.get paper_title citations_data with
  | None => (md_content, updated_count, S error_count)
  | Some paper_info =>
      match Re.finditer_title paper_title md_content with
      | [] => (md_content, updated_count, S error_count)
      | [match_pos] =>
          match Re.search_badge (PyStr.drop match_pos md_content) with
          | None => (md_content, updated_count, S error_count)
          | Some (badge_start, badge_end) =>
              let new_badge := new_badge_of (Paper.citations paper_info) in
              let before_match := PyStr.take (match_pos + badge_start) md_content in
              let after_match := PyStr.drop (match_pos + badge_end) md_content in
              ((before_match ++ new_badge ++ after_match)%string, S updated_count, error_count)
          end
      | _ :: _ :: _ => (md_content, updated_count, S error_count)
      end
  end.

Definition patch_all (citations_data : store) (papers_to_update : list string)
           (original_content : string) : patch_state :=
  fold_left (patch_paper citations_data) papers_to_update (original_content, O, O).

(** [update_readme_citations(citations_data, updated_papers_list)]; the
    document is taken to be writable. *)
Definition update_readme_citations (citations_data : store)
           (updated_papers_list : list Updated.t) : M bool :=
  match updated_papers_list with
  | [] => ret true
  | _ :: _ =>
      content <- read_readme ;;
      match content with
      | Content original_content =>
          let papers_to_update := map Updated.title updated_papers_list in
          let '(md_content, _, _) :=
            patch_all citations_data papers_to_update original_content in
          if String.eqb (Re.sub_badge original_content) (Re.sub_badge md_content)
          then write_readme md_content ;; ret true
          else ret false
      | _ => ret false
      end
  end.

(** [run_workflow()]: the clock is read for the start time, the three
    steps run, and the clock is read again for the completion time; the
    value is [readme_success], which the final report prints.  Any
    exception of a step ends the process, as [sys.exit] does. *)
Definition run_workflow : M bool :=
  now ;;
  citations_data <- sync_papers ;;
  r <- get_citations citations_data ;;
  let '(updated_data, updated_papers_list) := r in
  readme_success <- update_readme_citations updated_data updated_papers_list ;;
  now ;;
  ret readme_success.

(** ** Vocabulary of the statements *)

(** The record a title gets in reconciliation: the old one if there is
    one, a new one otherwise. *)
Definition reconciled (citations_data : store) (title : string) : Paper.t :=
  match Dict.get title citations_data with
  | Some paper => paper
  | None => new_paper title
  end.

(** Every entry of a store under construction is the reconciled record of
    its key. *)
Definition reconciled_entries (citations_data acc : store) : Prop :=
  forall k p, Dict.get k acc = Some p -> p = reconciled citations_data k.

(** A response after which the source tries again, or gives up on the
    last attempt. *)
Definition retryable (r : response) : bool :=
  match r with
  | Json data => no_results data
  | _ => true
  end.

(** The reason the source returns when it gives up on response [r]. *)
Definition failure_reason (r : response) : string :=
  match r with
  | Status429 => "Maximum retry attempts reached"
  | HTTPError e =>
      if PyStr.contains "429" e then "Maximum retry attempts reached" else "HTTP error"
  | RequestException => "Request exception"
  | Json _ => "API returned empty results"
  end.

(** A candidate carries both fields. *)
Definition complete (c : Candidate.t) : bool :=
  match Candidate.title c, Candidate.citationCount c with
  | Some _, Some _ => true
  | _, _ => false
  end.

(** A candidate's title equals the search key up to case. *)
Definition title_equal (search_title : string) (c : Candidate.t) : bool :=
  match Candidate.title c with
  | Some t => String.eqb (PyStr.lower t) (PyStr.lower search_title)
  | None => false
  end.

(** The world after a request for [q]. *)
Definition requested (q : string) (w : world) : world :=
  log (EvRequest q) (next_request w).

(** The world after a request for [q] and the pause before the next. *)
Definition retried (q : string) (w : world) : world :=
  log (EvSleep api_delay) (requested q w).

(** The world after the matching answer to a request for [q] was
    recorded as [data]. *)
Definition recorded (q : string) (data : store) (w : world) : world :=
  log (EvSave data) (with_citations data (tick (requested q w))).

(** What a lookup may leave in the trace: requests for [q], pauses of
    [api_delay], and a save of [data]. *)
Definition attempt_event (q : string) (data : store) (e : event) : Prop :=
  match e with
  | EvRequest q' => q' = q
  | EvSleep s => s = api_delay
  | EvSave d => d = data
  | EvPaper _ | EvWriteReadme _ => False
  end.

(** The store keys for which a lookup was started, in order. *)
Definition looked_up (evs : list event) : list string :=
  flat_map (fun e => match e with EvPaper t => [t] | _ => [] end) evs.

(** [l1] is [l2] with some elements left out. *)
Inductive subseq {A : Type} : list A -> list A -> Prop :=
| subseq_nil : subseq [] []
| subseq_skip x l1 l2 : subseq l1 l2 -> subseq l1 (x :: l2)
| subseq_take x l1 l2 : subseq l1 l2 -> subseq (x :: l1) (x :: l2).

(** [a] comes before [b] in [l]. *)
Definition before {A : Type} (a b : A) (l : list A) : Prop :=
  exists l1 l2 l3, l = l1 ++ a :: l2 ++ b :: l3.

(** The timestamp the scheduler sorts a store key by. *)
Definition stamp (citations_data : store) (title : string) : string :=
  match Dict.get title citations_data with
  | Some info => last_updated_or_default info
  | None => epoch_sentinel
  end.

(** Two worlds that differ at most in the number of clock readings. *)
Definition same_but_clock_reads (w w' : world) : Prop :=
  readme_file w' = readme_file w /\ citations_file w' = citations_file w /\
  service w' = service w /\ requests_made w' = requests_made w /\
  clock w' = clock w /\ trace w' = trace w.

(** Whether [f] holds on [lo], [lo + 1], ..., [lo + n - 1]. *)
Definition holds_on_range (f : Z -> bool) (lo : Z) (n : nat) : bool :=
  forallb (fun k => f (lo + Z.of_nat k)%Z) (seq 0 n).

(** A comparison that is not [Gt]. *)
Definition not_gt (c : comparison) : bool :=
  match c with Gt => false | _ => true end.

(** ** Sample inputs *)

Module Sample.

Definition title_a : string := "Attention Is All You Need".
Definition title_b : string := "Deep Residual Learning".

Definition badge (n : string) : string :=
  "[![](https://img.shields.io/badge/citation-" ++ n ++ "-blue)]()".

Definition line (title n : string) : string :=
  "**" ++ title ++ "**[[paper]](u) [Authors] " ++ badge n ++ String "010" "".

Definition doc : string := "# Papers" ++ String "010" "" ++ line title_a "5" ++ line title_b "7".

Definition noon : DateTime.datetime := DateTime.mk_datetime 2024 3 2 12 0 0 0.

(** A world whose service answers every request with [r]. *)
Definition world_of (readme : file string) (citations : file store)
           (answers : nat -> response) : world :=
  mk_world readme citations answers 0 (fun _ => noon) 0 [].

(** A store whose one record was last touched by hand, day first. *)
Definition hand_edited : store :=
  [(title_a, Paper.mk title_a 5 (Some "05-01-2024-10:00:00"))].

Definition w_hand_edited : world :=
  world_of (Content doc) (Content hand_edited) (fun _ => Status429).

(** A store with one record, last updated some days before [noon]. *)
Definition store_a : store :=
  [(title_a, Paper.mk title_a 5 (Some "2024-02-27-08:30:00"))].

(** The same record after an operator changed its search title. *)
Definition store_override : store :=
  [(title_a, Paper.mk "Attention is all you need (2017)" 5 (Some "2024-02-27-08:30:00"))].

Definition no_count : Candidate.t :=
  Candidate.mk (Some "ATTENTION IS ALL YOU NEED") None.
Definition with_count : Candidate.t :=
  Candidate.mk (Some "attention is all you need") (Some 12%Z).
Definition near_miss : Candidate.t :=
  Candidate.mk (Some "Attention Is Not All You Need") (Some 40%Z).
Definition override_hit : Candidate.t :=
  Candidate.mk (Some "Attention Is All You Need (2017)") (Some 9%Z).

Definition w_lookup (citations : store) (answers : nat -> response) : world :=
  world_of (Content doc) (Content citations) answers.

(** Two records, the one listed first being the more recently updated;
    both are older than a day at [noon]. *)
Definition store_two : store :=
  [(title_a, Paper.mk title_a 5 (Some "2024-02-27-08:30:00"));
   (title_b, Paper.mk title_b 0 (Some "1970-01-01-00:00:00"))].

(** As [store_two], but the first record was updated an hour before
    [noon]. *)
Definition store_fresh : store :=
  [(title_a, Paper.mk title_a 5 (Some "2024-03-02-11:00:00"));
   (title_b, Paper.mk title_b 0 (Some "1970-01-01-00:00:00"))].

(** The record of [title_a] after a lookup found 12 citations, and one
    whose count went wrong. *)
Definition store_counted : store :=
  [(title_a, Paper.mk title_a 12 (Some "2024-03-02-12:00:00"))].
Definition store_negative : store :=
  [(title_a, Paper.mk title_a (-1) (Some "2024-03-02-12:00:00"))].

Definition updated_a : Updated.t :=
  Updated.mk title_a 0 12 12 (Some "2024-03-02-12:00:00").

End Sample.


(** ** Further vocabulary *)

(** The elements of [l] that are not in [seen], each once, in the order of
    their first occurrence. *)
Fixpoint first_occurrences (seen l : list string) : list string :=
  match l with
  | [] => []
  | x :: r =>
      if existsb (String.eqb x) seen then first_occurrences seen r
      else x :: first_occurrences (x :: seen) r
  end.

(** ** Further sample inputs *)

Module Run.

(** A service that is rate-limited once, then answers each of the two
    lookups of the sample with a match. *)
Definition answers (n : nat) : response :=
  match n with
  | O => Status429
  | S O => Json (Some [Candidate.mk (Some "deep residual learning") (Some 7%Z)])
  | _ => Json (Some [Sample.with_count])
  end.

Definition w_ok : world :=
  Sample.world_of (Content Sample.doc) (Content Sample.store_a) answers.

(** A service that is down. *)
Definition w_down : world :=
  Sample.world_of (Content Sample.doc) (Content Sample.store_a)
                  (fun _ => RequestException).

End Run.

(** The titles the update pass has reported so far: updated, failed, and
    skipped as recent. *)
Definition reported (st : progress) : list string :=
  map Updated.title (updated_papers st) ++ map fst (skipped_papers st)
  ++ map fst (skipped_recent st).

(** Whether every request in [evs] comes after a pause of at least
    [api_delay] since the request before it; [ready] tells whether a
    request may come first. *)
Fixpoint paced (ready : bool) (evs : list event) : bool :=
  match evs with
  | [] => true
  | EvRequest _ :: r => ready && paced false r
  | EvSleep s :: r => paced (ready || (api_delay <=? s)%Z) r
  | _ :: r => paced ready r
  end.

(** Whether a request may follow [evs]. *)
Fixpoint ready_after (ready : bool) (evs : list event) : bool :=
  match evs with
  | [] => ready
  | EvRequest _ :: r => ready_after false r
  | EvSleep s :: r => ready_after (ready || (api_delay <=? s)%Z) r
  | _ :: r => ready_after ready r
  end.

(** The number of requests in [evs]. *)
Definition requests_in (evs : list event) : nat :=
  List.length (filter (fun e => match e with EvRequest _ => true | _ => false end) evs).

(** [d.replace(microsecond=0)]: the time to the second, which is all
    that the fixed format keeps. *)
Definition whole_second (d : DateTime.datetime) : DateTime.datetime :=
  DateTime.mk_datetime (DateTime.year d) (DateTime.month d) (DateTime.day d)
                       (DateTime.hour d) (DateTime.minute d) (DateTime.second d) 0.

(** Whether every character of [s] satisfies [p]. *)
Fixpoint str_forallb (p : ascii -> bool) (s : string) : bool :=
  match s with
  | EmptyString => true
  | String c s' => p c && str_forallb p s'
  end.

(** A title whose markup overlaps itself, in a line where it does, and
    the sample document with a second entry for its first title. *)
Module Overlap.

Definition title : string := "Deep Nets**Deep Nets".

Definition text (n : string) : string :=
  "**Deep Nets**Deep Nets**Deep Nets** [[p]](u) [A] " ++ Sample.badge n.

Definition store : store :=
  [(title, Paper.mk title 12 (Some "2024-03-02-12:00:00"))].

Definition doc_twice : string := Sample.doc ++ Sample.line Sample.title_a "3".

End Overlap.

(** ** The author lookup of the diagnostics *)

(** *** The pattern of the author field

    One or more turns of the group [\[\[[^\]]+\]\]\([^)]*\)\s*], then
    [\[([^\]]+)\]]. *)

Module ReAuthor.
Import PyStr.

Definition not_rbracket (c : ascii) : bool := negb (Ascii.eqb c "]").
Definition not_rparen (c : ascii) : bool := negb (Ascii.eqb c ")").

(** One turn of the group, [\[\[[^\]]+\]\]\([^)]*\)\s*], at the start of
    [s]: the length matched.  Each greedy run stops before a character
    that it cannot take and that the pattern needs next, so a shorter run
    never matches. *)
Definition match_link (s : string) : option nat :=
  if String.prefix "[[" s then
    let r := drop 2 s in
    let x := Re.span not_rbracket r in
    if (0 <? x)%nat && String.prefix "]](" (drop x r) then
      let r' := drop (x + 3) r in
      let y := Re.span not_rparen r' in
      if String.prefix ")" (drop y r') then
        Some (2 + x + 3 + y + 1 + Re.span isspace (drop (y + 1) r'))%nat
      else None
    else None
  else None.

(** [\[([^\]]+)\]] at the start of [s]: group 1. *)
Definition match_field (s : string) : option string :=
  match s with
  | String "[" r =>
      let x := Re.span not_rbracket r in
      if (0 <? x)%nat && String.prefix "]" (drop x r) then Some (take x r) else None
  | _ => None
  end.

(** The whole pattern at the start of [s]: group 1.  After a turn of the
    group the engine first tries another turn and what follows it, and
    only when that fails the field; a turn takes at least six characters,
    so the length of [s] is fuel enough. *)
Fixpoint match_links (fuel : nat) (s : string) : option string :=
  match fuel with
  | O => None
  | S fuel' =>
      match match_link s with
      | None => None
      | Some n =>
          match match_links fuel' (drop n s) with
          | Some g => Some g
          | None => match_field (drop n s)
          end
      end
  end.

Definition match_author (s : string) : option string :=
  match_links (String.length s) s.

(** [re.search(author_pattern, s)]: group 1 of the leftmost match. *)
Fixpoint search_author (s : string) : option string :=
  match match_author s with
  | Some g => Some g
  | None =>
      match s with
      | EmptyString => None
      | String _ s' => search_author s'
      end
  end.

End ReAuthor.

(** [content[start_pos:start_pos+500].split('\n')[0]] behind the first
    match of the title markup, if there is one; [re.search] gives the
    first of the matches that [re.finditer] gives. *)
Definition line_content (content title : string) : option string :=
  match Re.finditer_title title content with
  | [] => None
  | start :: _ =>
      let start_pos := (start + String.length (Re.title_markup title))%nat in
      let window := PyStr.take 500 (PyStr.drop start_pos content) in
      Some (PyStr.take (Re.span (fun c => negb (Ascii.eqb c "010")) window) window)
  end.

(** The test on [authors] in the source. *)
Definition is_author_text (authors : string) : bool :=
  negb (PyStr.startswith "!" authors)
  && negb (PyStr.contains "http" (PyStr.lower authors))
  && (3 <? String.length authors)%nat.

Definition title_not_found : string := "Paper title not found".
Definition authors_not_found : string := "Author information not found".

(** The body of the [try] on the text that was read. *)
Definition authors_in (content title : string) : string :=
  match line_content content title with
  | None => title_not_found
  | Some line =>
      match ReAuthor.search_author line with
      | Some g =>
          let authors := PyStr.strip g in
          if is_author_text authors then authors else authors_not_found
      | None => authors_not_found
      end
  end.

(** What [extract_authors_from_readme] returns: a text, or the
    [Extraction failed: ...] line, whose tail is the message of the
    system. *)
Inductive extraction : Type :=
| Extracted (text : string)
| ExtractionFailed.

Definition extract_authors_from_readme (title : string) : M extraction :=
  content <- read_readme ;;
  match content with
  | Content c => ret (Extracted (authors_in c title))
  | _ => ret ExtractionFailed
  end.

(** A link of a line of the document, [[[label]](target)], with the white
    space behind it. *)
Module Link.

Record t : Type := mk {
  label : string;
  target : string;
  gap : string
}.

Definition text (l : t) : string :=
  "[[" ++ label l ++ "]](" ++ target l ++ ")" ++ gap l.

(** The label is not empty and has no []], the target has no [)], the
    gap is white space. *)
Definition ok (l : t) : bool :=
  negb (String.eqb (label l) "")
  && str_forallb ReAuthor.not_rbracket (label l)
  && str_forallb ReAuthor.not_rparen (target l)
  && str_forallb PyStr.isspace (gap l).

End Link.

Definition links_text (ls : list Link.t) : string :=
  fold_right (fun l s => Link.text l ++ s)%string EmptyString ls.

Definition not_lbracket (c : ascii) : bool := negb (Ascii.eqb c "[").
Definition not_newline (c : ascii) : bool := negb (Ascii.eqb c "010").


(** * Properties *)

(** ** The library models on samples *)

Example titles_of_sample :
  paper_titles_of Sample.doc = [Sample.title_a; Sample.title_b].
Proof. reflexivity. Qed.

(** A title needs more than ten characters, must not start with a
    bracket, and must be followed by a bracket after optional spaces; the
    lazy group runs on, within the line, until such a bracket follows. *)
Example titles_filtered :
  paper_titles_of ("**Short**[x] **[Bracketed title]**[x] **No link after this**"
                   ++ String "010" "**  A long enough title ** [[paper]](u)")%string
  = ["A long enough title"] /\
  paper_titles_of "**No link after this** **  A long enough title ** [[paper]](u)"
  = ["No link after this** **  A long enough title"].
Proof. split; reflexivity. Qed.

Example strptime_samples :
  DateTime.strptime "2024-03-02-12:00:00" = Some Sample.noon /\
  DateTime.strptime "2024-3-2-12:0:0" = Some Sample.noon /\
  DateTime.strptime "2024-02-30-12:00:00" = None /\
  DateTime.strptime "2024-03-02-12:00:61" = None /\
  DateTime.strptime "2024-03-02-12:00:00 " = None /\
  DateTime.strptime "2024-03-02 12:00:00" = None /\
  DateTime.strptime "" = None.
Proof. repeat split. Qed.

Example strftime_sample : DateTime.strftime Sample.noon = "2024-03-02-12:00:00".
Proof. reflexivity. Qed.

(** Matches do not overlap: the second [**x**] below shares its opening
    stars with the first and is not found. *)
Example finditer_samples :
  Re.finditer_title "x" "**x**x**" = [0%nat] /\
  Re.finditer_title "x" "**x** and **x**" = [0%nat; 10%nat] /\
  Re.finditer_title "a.c" "**abc** **a.c**" = [8%nat].
Proof. repeat split. Qed.

Example sub_badge_sample :
  Re.sub_badge ("a" ++ Sample.badge "12" ++ "b" ++ Sample.badge "" ++ Sample.badge "x7")%string
  = ("ab" ++ Sample.badge "" ++ Sample.badge "x7")%string.
Proof. reflexivity. Qed.

Example lower_sample :
  PyStr.lower "Attention Is ALL You Need" = "attention is all you need".
Proof. reflexivity. Qed.

(** The whole workflow on the sample document: the first answer is a rate
    limit, the second matches the record that is due first. *)
Example workflow_sample :
  exists w',
    run_workflow
      (Sample.world_of (Content Sample.doc) (Content Sample.store_a)
         (fun n => match n with
                   | O => Status429
                   | S O => Json (Some [Candidate.mk (Some "deep residual learning")
                                                     (Some 7%Z)])
                   | _ => Json (Some [Sample.with_count])
                   end))
    = Some (true, w') /\
    readme_file w'
    = Content ("# Papers" ++ String "010" "" ++ Sample.line Sample.title_a "12"
               ++ Sample.line Sample.title_b "7")%string /\
    citations_file w'
    = Content [(Sample.title_b,
                Paper.mk Sample.title_b 7 (Some "2024-03-02-12:00:00"));
               (Sample.title_a,
                Paper.mk Sample.title_a 12 (Some "2024-03-02-12:00:00"))] /\
    looked_up (trace w') = [Sample.title_b; Sample.title_a].
Proof.
  match goal with
  | |- exists w', ?r = _ /\ _ => destruct r as [[ok w']|] eqn:E
  end; vm_compute in E; [|discriminate E].
  injection E as <- <-. eexists. split; [reflexivity|].
  repeat split; vm_compute; reflexivity.
Qed.

(** ** Dictionaries *)

Section DictFacts.
Context {V : Type}.
Implicit Types (d : Dict.t V) (k : string) (v : V).

Lemma get_set_same k v d : Dict.get k (Dict.set k v d) = Some v.
Proof.
  induction d as [|[k' v'] d IH]; simpl.
  - now rewrite String.eqb_refl.
  - destruct (String.eqb k k') eqn:E; simpl; rewrite E; auto.
Qed.

Lemma get_set_other k k' v d :
  k <> k' -> Dict.get k' (Dict.set k v d) = Dict.get k' d.
Proof.
  intros Hne. induction d as [|[k0 v0] d IH]; simpl.
  - destruct (String.eqb_spec k' k); congruence.
  - destruct (String.eqb_spec k k0) as [->|Hk]; simpl.
    + destruct (String.eqb_spec k' k0); congruence.
    + destruct (String.eqb_spec k' k0); auto.
Qed.

Lemma get_some_in_keys k d : (exists v, Dict.get k d = Some v) <-> In k (Dict.keys d).
Proof.
  induction d as [|[k' v'] d IH]; simpl.
  - split; [intros [v H]; discriminate | tauto].
  - destruct (String.eqb_spec k k') as [->|Hne].
    + split; eauto.
    + rewrite IH. split; [tauto | intros [H|H]; congruence].
Qed.

Lemma get_none_not_in_keys k d : Dict.get k d = None <-> ~ In k (Dict.keys d).
Proof.
  rewrite <- get_some_in_keys. destruct (Dict.get k d) as [p|].
  - split; [discriminate | intros H; exfalso; apply H; eauto].
  - split; [intros _ [x Hx]; discriminate | reflexivity].
Qed.

Lemma keys_set_present k v d :
  In k (Dict.keys d) -> Dict.keys (Dict.set k v d) = Dict.keys d.
Proof.
  induction d as [|[k' v'] d IH]; simpl; [tauto|].
  intros H. destruct (String.eqb_spec k k') as [->|Hne]; simpl; auto.
  f_equal. apply IH. destruct H; congruence.
Qed.

Lemma keys_set_fresh k v d :
  ~ In k (Dict.keys d) -> Dict.keys (Dict.set k v d) = Dict.keys d ++ [k].
Proof.
  induction d as [|[k' v'] d IH]; simpl; auto.
  intros H. destruct (String.eqb_spec k k') as [->|Hne]; simpl.
  - tauto.
  - f_equal. apply IH. tauto.
Qed.

Lemma in_keys_set k k' v d :
  In k' (Dict.keys (Dict.set k v d)) <-> k' = k \/ In k' (Dict.keys d).
Proof.
  rewrite <- !get_some_in_keys.
  destruct (String.eqb_spec k k') as [->|Hne].
  - rewrite get_set_same. split; eauto.
  - rewrite get_set_other by assumption. split; [tauto|].
    intros [H|H]; congruence.
Qed.

Lemma nodup_keys_set k v d :
  NoDup (Dict.keys d) -> NoDup (Dict.keys (Dict.set k v d)).
Proof.
  intros Hnd. destruct (in_dec string_dec k (Dict.keys d)) as [Hin|Hin].
  - now rewrite keys_set_present.
  - rewrite keys_set_fresh by assumption.
    apply NoDup_app; [assumption | repeat constructor; simpl; tauto |].
    intros x Hx [<-|[]]. contradiction.
Qed.

(** Writing the value a key already has changes nothing. *)
Lemma set_same_value k v d : Dict.get k d = Some v -> Dict.set k v d = d.
Proof.
  induction d as [|[k' v'] d IH]; simpl; [discriminate|].
  destruct (String.eqb_spec k k') as [->|Hne].
  - now intros [= ->].
  - intros H. now rewrite IH.
Qed.

Lemma get_in k v d : Dict.get k d = Some v -> In (k, v) d.
Proof.
  induction d as [|[k' v'] d IH]; simpl; [discriminate|].
  destruct (String.eqb_spec k k') as [->|Hne].
  - intros [= ->]. now left.
  - auto.
Qed.

Lemma in_get_nodup k v d : NoDup (Dict.keys d) -> In (k, v) d -> Dict.get k d = Some v.
Proof.
  induction d as [|[k' v'] d IH]; simpl; [tauto|].
  intros Hnd [H|H].
  - inversion H; subst. now rewrite String.eqb_refl.
  - inversion Hnd as [|? ? Hnotin Hnd']; subst.
    destruct (String.eqb_spec k k') as [->|Hne]; auto.
    exfalso. apply Hnotin. change (In k' (map fst d)).
    apply in_map_iff. now exists (k', v).
Qed.

End DictFacts.

(** ** Reconciliation *)

Lemma sync_step_set citations_data new_citations title :
  sync_step citations_data new_citations title
  = Dict.set title (reconciled citations_data title) new_citations.
Proof. unfold sync_step, reconciled. now destruct (Dict.get title citations_data). Qed.

Section SyncLoop.
Variable citations_data : store.

Lemma sync_fold_keys md_titles acc t :
  In t (Dict.keys (fold_left (sync_step citations_data) md_titles acc))
  <-> In t (Dict.keys acc) \/ In t md_titles.
Proof.
  revert acc. induction md_titles as [|x l IH]; intros acc; simpl.
  - tauto.
  - rewrite IH, sync_step_set, in_keys_set. intuition.
Qed.

Lemma sync_fold_nodup md_titles acc :
  NoDup (Dict.keys acc) ->
  NoDup (Dict.keys (fold_left (sync_step citations_data) md_titles acc)).
Proof.
  revert acc. induction md_titles as [|x l IH]; intros acc H; simpl; auto.
  apply IH. rewrite sync_step_set. now apply nodup_keys_set.
Qed.

Lemma sync_fold_entries md_titles acc :
  reconciled_entries citations_data acc ->
  reconciled_entries citations_data (fold_left (sync_step citations_data) md_titles acc).
Proof.
  revert acc. induction md_titles as [|x l IH]; intros acc H; simpl; auto.
  apply IH. intros k p. rewrite sync_step_set.
  destruct (string_dec x k) as [->|Hne].
  - rewrite get_set_same. now intros [= <-].
  - rewrite get_set_other by assumption. apply H.
Qed.

Lemma sync_loop_get md_titles t :
  In t md_titles ->
  Dict.get t (sync_loop citations_data md_titles) = Some (reconciled citations_data t).
Proof.
  intros Hin. unfold sync_loop.
  assert (Hk : In t (Dict.keys (fold_left (sync_step citations_data) md_titles []))).
  { apply sync_fold_keys. now right. }
  apply get_some_in_keys in Hk. destruct Hk as [p Hp]. rewrite Hp. f_equal.
  eapply sync_fold_entries; [|exact Hp]. intros k q; simpl; discriminate.
Qed.

Lemma sync_loop_keys md_titles t :
  In t (Dict.keys (sync_loop citations_data md_titles)) <-> In t md_titles.
Proof. unfold sync_loop. rewrite sync_fold_keys. simpl. tauto. Qed.

Lemma sync_loop_nodup md_titles : NoDup (Dict.keys (sync_loop citations_data md_titles)).
Proof. apply sync_fold_nodup. constructor. Qed.

End SyncLoop.

(** Two old stores that reconcile the document's titles alike give the
    same new store, entry for entry and in the same order. *)
Lemma sync_fold_ext (old1 old2 : store) md_titles acc :
  (forall t, In t md_titles -> reconciled old1 t = reconciled old2 t) ->
  fold_left (sync_step old1) md_titles acc = fold_left (sync_step old2) md_titles acc.
Proof.
  revert acc. induction md_titles as [|x l IH]; intros acc H; simpl; auto.
  rewrite !sync_step_set, (H x) by now left.
  apply IH. intros t Ht. apply H. now right.
Qed.

Lemma sync_loop_idempotent citations_data md_titles :
  sync_loop (sync_loop citations_data md_titles) md_titles
  = sync_loop citations_data md_titles.
Proof.
  unfold sync_loop at 1 3. apply sync_fold_ext. intros t Ht.
  unfold reconciled at 1. now rewrite sync_loop_get.
Qed.

(** ** The world through reconciliation *)

Lemma sync_papers_run (w : world) (content : string) (old : store) :
  readme_file w = Content content ->
  load_citations w = Some (old, w) ->
  sync_papers w
  = Some (sync_loop old (paper_titles_of content),
          log (EvSave (sync_loop old (paper_titles_of content)))
              (with_citations (sync_loop old (paper_titles_of content)) (tick w))).
Proof.
  intros Hr Hl. unfold sync_papers, bind, extract_titles_from_md, bind, read_readme.
  rewrite Hr. unfold ret. rewrite Hl. reflexivity.
Qed.

(** ** The epoch sentinel among the timestamps the program writes *)

Lemma holds_on_range_spec f lo n z :
  holds_on_range f lo n = true -> (lo <= z < lo + Z.of_nat n)%Z -> f z = true.
Proof.
  unfold holds_on_range. rewrite forallb_forall. intros H Hz.
  replace z with (lo + Z.of_nat (Z.to_nat (z - lo)))%Z by lia.
  apply H. apply in_seq. lia.
Qed.

Lemma compare_app (a c b d : string) :
  String.length a = String.length c ->
  String.compare (a ++ b) (c ++ d)
  = match String.compare a c with Eq => String.compare b d | r => r end.
Proof.
  revert c. induction a as [|x a IH]; intros [|y c]; simpl; try discriminate; auto.
  intros [= Hlen]. destruct (Ascii.compare x y); auto.
Qed.

Lemma pad2_length n : String.length (DateTime.pad2 n) = 2%nat.
Proof. reflexivity. Qed.

Lemma pad4_length n : String.length (DateTime.pad4 n) = 4%nat.
Proof. reflexivity. Qed.

Lemma year_not_before_1970 y :
  (1970 <= y <= 9999)%Z -> not_gt (String.compare "1970" (DateTime.pad4 y)) = true.
Proof.
  intros H.
  apply (holds_on_range_spec (fun y => not_gt (String.compare "1970" (DateTime.pad4 y)))
                             1970 (Z.to_nat 8030));
    [vm_compute; reflexivity | rewrite Z2Nat.id by lia; lia].
Qed.

Lemma field_not_before (lo : string) (a : Z) (n : nat) (v : Z) :
  holds_on_range (fun v => not_gt (String.compare lo (DateTime.pad2 v))) a n = true ->
  (a <= v < a + Z.of_nat n)%Z ->
  not_gt (String.compare lo (DateTime.pad2 v)) = true.
Proof. intros H Hv. exact (holds_on_range_spec _ a n v H Hv). Qed.

Lemma not_gt_step (a c b d : string) :
  String.length a = String.length c ->
  not_gt (String.compare a c) = true ->
  not_gt (String.compare b d) = true ->
  not_gt (String.compare (a ++ b) (c ++ d)) = true.
Proof.
  intros Hlen Ha Hb. rewrite compare_app by assumption.
  destruct (String.compare a c); auto.
Qed.

Lemma days_in_month_le_31 y m : (DateTime.days_in_month y m <= 31)%Z.
Proof.
  unfold DateTime.days_in_month.
  destruct (m =? 2)%Z; [destruct (DateTime.is_leap y); lia|].
  destruct ((m =? 4) || (m =? 6) || (m =? 9) || (m =? 11))%Z; lia.
Qed.

Lemma epoch_sentinel_first (d : DateTime.datetime) :
  DateTime.valid d = true -> (1970 <= DateTime.year d)%Z ->
  PyStr.le epoch_sentinel (DateTime.strftime d) = true.
Proof.
  intros Hv Hy. unfold DateTime.valid in Hv.
  repeat (apply andb_prop in Hv; destruct Hv as [Hv ?]).
  repeat match goal with H : (_ <=? _)%Z = true |- _ => apply Z.leb_le in H end.
  pose proof (days_in_month_le_31 (DateTime.year d) (DateTime.month d)).
  unfold PyStr.le, String.leb.
  change (not_gt (String.compare epoch_sentinel (DateTime.strftime d)) = true).
  unfold DateTime.strftime.
  change epoch_sentinel
    with ("1970" ++ "-" ++ "01" ++ "-" ++ "01" ++ "-" ++ "00" ++ ":" ++ "00" ++ ":" ++ "00")%string.
  apply not_gt_step; [reflexivity | apply year_not_before_1970; lia |].
  apply not_gt_step; [reflexivity | reflexivity |].
  apply not_gt_step;
    [reflexivity | apply (field_not_before "01" 1 12); [reflexivity | lia] |].
  apply not_gt_step; [reflexivity | reflexivity |].
  apply not_gt_step;
    [reflexivity | apply (field_not_before "01" 1 31); [reflexivity | lia] |].
  apply not_gt_step; [reflexivity | reflexivity |].
  apply not_gt_step;
    [reflexivity | apply (field_not_before "00" 0 24); [reflexivity | lia] |].
  apply not_gt_step; [reflexivity | reflexivity |].
  apply not_gt_step;
    [reflexivity | apply (field_not_before "00" 0 60); [reflexivity | lia] |].
  apply not_gt_step; [reflexivity | reflexivity |].
  apply (field_not_before "00" 0 60); [reflexivity | lia].
Qed.

(** ** Reconciliation: what the new store holds *)

(** C4 as stated fails on its last clause.  A record copied from the old
    store keeps whatever [last_updated] it had; here one edited by hand to
    [05-01-2024-10:00:00] sorts before the sentinel of the newly found
    title, and the scheduler puts that record first. *)
Lemma sentinel_not_before_every_timestamp :
  exists new w',
    sync_papers Sample.w_hand_edited = Some (new, w') /\
    Dict.get Sample.title_b new
    = Some (Paper.mk Sample.title_b 0 (Some "1970-01-01-00:00:00")) /\
    Dict.get Sample.title_a new
    = Some (Paper.mk Sample.title_a 5 (Some "05-01-2024-10:00:00")) /\
    PyStr.lt "05-01-2024-10:00:00" "1970-01-01-00:00:00" = true /\
    PyStr.le "1970-01-01-00:00:00" "05-01-2024-10:00:00" = false /\
    paper_titles_ordered_of new = [Sample.title_a; Sample.title_b].
Proof.
  do 2 eexists. split; [vm_compute; reflexivity|]. repeat split.
Qed.

(** C4, amended.  After [sync_papers] the keys of the new store are the
    titles extracted from the document, each once; a title the old store
    had keeps its record unchanged; a title it did not have gets zero
    citations and the sentinel [1970-01-01-00:00:00]; and the sentinel
    sorts no later than any timestamp [strftime] writes for a valid date
    from 1970 on. *)
Theorem sync_papers_reconciles (w : world) (content : string) (old : store) :
  readme_file w = Content content ->
  load_citations w = Some (old, w) ->
  exists new w',
    sync_papers w = Some (new, w') /\
    citations_file w' = Content new /\
    (forall t, In t (Dict.keys new) <-> In t (paper_titles_of content)) /\
    NoDup (Dict.keys new) /\
    (forall t p, In t (paper_titles_of content) ->
                 Dict.get t old = Some p -> Dict.get t new = Some p) /\
    (forall t, In t (paper_titles_of content) ->
               Dict.get t old = None ->
               Dict.get t new = Some (Paper.mk t 0 (Some "1970-01-01-00:00:00"))) /\
    (forall d, DateTime.valid d = true -> (1970 <= DateTime.year d)%Z ->
               PyStr.le "1970-01-01-00:00:00" (DateTime.strftime d) = true).
Proof.
  intros Hr Hl. do 2 eexists. split; [exact (sync_papers_run w content old Hr Hl)|].
  split; [reflexivity|]. split; [apply sync_loop_keys|]. split; [apply sync_loop_nodup|].
  split; [|split].
  - intros t p Hin Hget. rewrite sync_loop_get by assumption.
    unfold reconciled. now rewrite Hget.
  - intros t Hin Hget. rewrite sync_loop_get by assumption.
    unfold reconciled. now rewrite Hget.
  - exact epoch_sentinel_first.
Qed.

Lemma sync_papers_reconciles_witness :
  readme_file Sample.w_hand_edited = Content Sample.doc /\
  load_citations Sample.w_hand_edited = Some (Sample.hand_edited, Sample.w_hand_edited) /\
  exists new w',
    sync_papers Sample.w_hand_edited = Some (new, w') /\
    Dict.keys new = [Sample.title_a; Sample.title_b] /\
    Dict.get Sample.title_a new = Dict.get Sample.title_a Sample.hand_edited.
Proof.
  split; [reflexivity|]. split; [reflexivity|].
  destruct (sync_papers_reconciles Sample.w_hand_edited Sample.doc Sample.hand_edited
                                   eq_refl eq_refl)
    as (new & w' & Hrun & _ & _ & _ & Hold & _).
  exists new, w'. split; [exact Hrun|].
  injection Hrun as <- _. split; reflexivity.
Defined.

(** ** Reconciliation twice *)

(** C5.  For every document and every starting store that can be read,
    [sync_papers] returns, and running it again on the world it leaves
    returns the same store and leaves the same persisted store. *)
Theorem sync_papers_idempotent (w : world) (content : string) (old : store) :
  readme_file w = Content content ->
  load_citations w = Some (old, w) ->
  exists new w1 w2,
    sync_papers w = Some (new, w1) /\
    sync_papers w1 = Some (new, w2) /\
    citations_file w1 = Content new /\
    citations_file w2 = Content new /\
    readme_file w2 = Content content.
Proof.
  intros Hr Hl.
  pose proof (sync_papers_run w content old Hr Hl) as H1.
  set (new := sync_loop old (paper_titles_of content)) in *.
  match type of H1 with _ = Some (_, ?x) => set (w1 := x) in * end.
  assert (Hr1 : readme_file w1 = Content content) by exact Hr.
  assert (Hl1 : load_citations w1 = Some (new, w1)) by reflexivity.
  pose proof (sync_papers_run w1 content new Hr1 Hl1) as H2.
  unfold new at 1 2 3 in H2. rewrite sync_loop_idempotent in H2. fold new in H2.
  do 3 eexists. split; [exact H1|]. split; [exact H2|].
  repeat split. exact Hr.
Qed.

Lemma sync_papers_idempotent_witness :
  readme_file Sample.w_hand_edited = Content Sample.doc /\
  load_citations Sample.w_hand_edited = Some (Sample.hand_edited, Sample.w_hand_edited) /\
  exists new w1 w2,
    sync_papers Sample.w_hand_edited = Some (new, w1) /\
    sync_papers w1 = Some (new, w2) /\
    citations_file w1 = citations_file w2.
Proof.
  split; [reflexivity|]. split; [reflexivity|].
  destruct (sync_papers_idempotent Sample.w_hand_edited Sample.doc Sample.hand_edited
                                   eq_refl eq_refl)
    as (new & w1 & w2 & H1 & H2 & H3 & H4 & _).
  exists new, w1, w2. split; [exact H1|]. split; [exact H2|].
  rewrite H3, H4. reflexivity.
Defined.

(** ** The match over the candidates *)

Lemma find_exact_cons search_title x data :
  find_exact search_title (x :: data)
  = if complete x && title_equal search_title x
    then match Candidate.citationCount x with
         | Some n => Some (x, n)
         | None => None
         end
    else find_exact search_title data.
Proof.
  unfold complete, title_equal. simpl.
  destruct (Candidate.title x) as [t|]; [|reflexivity].
  destruct (Candidate.citationCount x) as [m|]; [|reflexivity].
  simpl. now destruct (String.eqb _ _).
Qed.

Lemma complete_has_count x :
  complete x = true -> exists n, Candidate.citationCount x = Some n.
Proof.
  unfold complete. destruct (Candidate.title x); [|discriminate].
  destruct (Candidate.citationCount x) as [n|]; [eauto | discriminate].
Qed.

Lemma find_exact_some search_title data c n :
  find_exact search_title data = Some (c, n) <->
  exists pre post,
    data = pre ++ c :: post /\
    (forall x, In x pre -> complete x && title_equal search_title x = false) /\
    complete c && title_equal search_title c = true /\
    Candidate.citationCount c = Some n.
Proof.
  induction data as [|x data IH].
  - simpl. split; [discriminate|]. intros (pre & post & H & _). now destruct pre.
  - rewrite find_exact_cons.
    destruct (complete x && title_equal search_title x) eqn:E.
    + destruct (proj1 (andb_true_iff _ _) E) as [Hc _].
      destruct (complete_has_count x Hc) as [m Hm]. rewrite Hm. split.
      * intros [= <- <-]. exists [], data. simpl. tauto.
      * intros ([|y pre] & post & H & Hpre & Hc' & Hn); simpl in H; injection H as -> Hd.
        -- congruence.
        -- specialize (Hpre y (or_introl eq_refl)). congruence.
    + rewrite IH. split.
      * intros (pre & post & -> & Hpre & Hc). exists (x :: pre), post.
        split; [reflexivity|]. split; [|exact Hc].
        intros y [<-|Hy]; auto.
      * intros ([|y pre] & post & H & Hpre & Hc & Hn); simpl in H; injection H as -> Hd.
        -- congruence.
        -- exists pre, post. split; [assumption|]. split; [|auto].
           intros z Hz. apply Hpre. now right.
Qed.

Lemma find_exact_none search_title data :
  find_exact search_title data = None <->
  forall x, In x data -> complete x && title_equal search_title x = false.
Proof.
  induction data as [|x data IH].
  - simpl. split; [intros _ x [] | reflexivity].
  - rewrite find_exact_cons.
    destruct (complete x && title_equal search_title x) eqn:E.
    + destruct (proj1 (andb_true_iff _ _) E) as [Hc _].
      destruct (complete_has_count x Hc) as [m Hm]. rewrite Hm.
      split; [discriminate|]. intros H. specialize (H x (or_introl eq_refl)). congruence.
    + rewrite IH. split.
      * intros H y [<-|Hy]; auto.
      * intros H y Hy. apply H. now right.
Qed.

(** Candidates that lack a field might as well not be in the result. *)
Lemma find_exact_complete search_title data :
  find_exact search_title data = find_exact search_title (filter complete data).
Proof.
  unfold complete. induction data as [|x data IH]; simpl; auto.
  destruct (Candidate.title x) as [t|] eqn:Et;
    [destruct (Candidate.citationCount x) as [m|] eqn:Ec|]; simpl; auto.
  rewrite Et, Ec, IH. reflexivity.
Qed.

(** ** One attempt of a lookup *)

Section Attempt.
Variables (title search_title : string) (paper : Paper.t) (paper_data : store).
Variable retry_limit : nat.

Let run := attempts title search_title paper paper_data retry_limit.

(** A response that calls for another try, with tries left. *)
Lemma attempts_retry todo attempt w :
  retryable (service w (requests_made w)) = true ->
  (attempt <? retry_limit - 1)%nat = true ->
  run (S todo) attempt w = run todo (S attempt) (retried search_title w).
Proof.
  intros Hr Hlt. unfold run. simpl. unfold bind, requests_get.
  destruct (service w (requests_made w)) as [|e| |data]; simpl in Hr;
    try rewrite Hr; try destruct (PyStr.contains "429" e); rewrite Hlt; reflexivity.
Qed.

(** A response that calls for another try, on the last attempt. *)
Lemma attempts_give_up todo attempt w :
  retryable (service w (requests_made w)) = true ->
  (attempt <? retry_limit - 1)%nat = false ->
  run (S todo) attempt w
  = Some ((Failed (failure_reason (service w (requests_made w))), paper_data),
          requested search_title w).
Proof.
  intros Hr Hlt. unfold run. simpl. unfold bind, requests_get.
  destruct (service w (requests_made w)) as [|e| |data]; simpl in Hr |- *;
    try rewrite Hr; try destruct (PyStr.contains "429" e); rewrite Hlt; reflexivity.
Qed.

(** A response with candidates. *)
Lemma attempts_results todo attempt w data :
  service w (requests_made w) = Json (Some data) -> data <> [] ->
  run (S todo) attempt w
  = match find_exact search_title data with
    | Some (_, new_citation) =>
        let paper_data' :=
          record_citation title paper new_citation
            (DateTime.strftime (clock w (clock_reads w))) paper_data in
        Some ((Updated_to new_citation, paper_data'),
              recorded search_title paper_data' w)
    | None =>
        Some ((Failed "Title not exactly matched", paper_data),
              requested search_title w)
    end.
Proof.
  intros Hs Hne. unfold run. simpl. unfold bind, requests_get. rewrite Hs.
  destruct data as [|c data]; [congruence|]. cbn [no_results].
  destruct (find_exact search_title (c :: data)) as [[c' n]|]; reflexivity.
Qed.

(** What any run of the loop leaves behind. *)
Lemma attempts_post todo attempt w :
  exists outcome paper_data' evs w',
    run todo attempt w = Some ((outcome, paper_data'), w') /\
    trace w' = trace w ++ evs /\
    Forall (attempt_event search_title paper_data') evs /\
    (requests_made w <= requests_made w' <= requests_made w + todo)%nat /\
    readme_file w' = readme_file w /\
    service w' = service w /\ clock w' = clock w /\
    match outcome with
    | Failed _ =>
        paper_data' = paper_data /\ citations_file w' = citations_file w /\
        clock_reads w' = clock_reads w /\
        (forall d, ~ In (EvSave d) evs)
    | Updated_to n =>
        paper_data'
        = record_citation title paper n
            (DateTime.strftime (clock w (clock_reads w))) paper_data /\
        citations_file w' = Content paper_data' /\
        clock_reads w' = S (clock_reads w)
    end.
Proof.
  revert attempt w. induction todo as [|todo IH]; intros attempt w.
  - exists (Failed "Exceeded maximum retry attempts"), paper_data, [], w.
    rewrite app_nil_r. repeat split; auto; lia.
  - destruct (retryable (service w (requests_made w))) eqn:Hr.
    + destruct (attempt <? retry_limit - 1)%nat eqn:Hlt.
      * rewrite (attempts_retry _ _ _ Hr Hlt).
        destruct (IH (S attempt) (retried search_title w))
          as (o & d & evs & w' & Hrun & Htr & Hev & Hreq & Hrd & Hsv & Hck & Ho).
        exists o, d, (EvRequest search_title :: EvSleep api_delay :: evs), w'.
        split; [exact Hrun|]. split.
        { rewrite Htr. simpl. rewrite <- !app_assoc. reflexivity. }
        split; [repeat constructor; assumption|].
        split; [simpl in Hreq; lia|].
        split; [exact Hrd|]. split; [exact Hsv|]. split; [exact Hck|].
        destruct o as [n|r].
        -- exact Ho.
        -- destruct Ho as (H1 & H2 & H3 & H4). repeat split; auto.
           intros d0 [H|[H|H]]; try discriminate. now apply (H4 d0).
      * rewrite (attempts_give_up _ _ _ Hr Hlt).
        do 4 eexists. split; [reflexivity|]. split; [reflexivity|].
        split; [repeat constructor|]. split; [simpl; lia|].
        repeat split. intros d [H|[]]. discriminate.
    + destruct (service w (requests_made w)) as [|e| |[data|]] eqn:Hs;
        try discriminate Hr.
      assert (Hne : data <> []) by (intros ->; discriminate Hr).
      rewrite (attempts_results _ _ _ _ Hs Hne).
      destruct (find_exact search_title data) as [[c n]|].
      * do 4 eexists. split; [reflexivity|]. split.
        { simpl. rewrite <- app_assoc. reflexivity. }
        split; [repeat constructor|]. split; [simpl; lia|]. repeat split.
      * do 4 eexists. split; [reflexivity|]. split; [reflexivity|].
        split; [repeat constructor|]. split; [simpl; lia|].
        repeat split. intros d [H|[]]. discriminate.
Qed.

End Attempt.

(** ** A whole lookup *)

Lemma update_paper_citation_unfold title paper_data paper retry_limit w :
  Dict.get title paper_data = Some paper ->
  update_paper_citation title paper_data retry_limit w
  = attempts title (Paper.title paper) paper paper_data retry_limit retry_limit O
             (log (EvPaper title) w).
Proof. intros H. unfold update_paper_citation. rewrite H. reflexivity. Qed.

(** [k] tries that each call for another leave [k] requests and [k]
    pauses, and nothing else. *)
Lemma retried_iter_frame q k w :
  let wk := Nat.iter k (retried q) w in
  service wk = service w /\ clock wk = clock w /\
  requests_made wk = (requests_made w + k)%nat /\
  clock_reads wk = clock_reads w /\
  citations_file wk = citations_file w /\ readme_file wk = readme_file w.
Proof.
  induction k as [|k IH]; simpl.
  - repeat split; lia.
  - destruct IH as (H1 & H2 & H3 & H4 & H5 & H6). repeat split; auto. lia.
Qed.

Lemma attempts_after_retries title q paper paper_data retry_limit k todo total attempt w :
  total = (k + todo)%nat ->
  (attempt + k < retry_limit)%nat ->
  (forall i, (i < k)%nat -> retryable (service w (requests_made w + i)) = true) ->
  attempts title q paper paper_data retry_limit total attempt w
  = attempts title q paper paper_data retry_limit todo (attempt + k)
             (Nat.iter k (retried q) w).
Proof.
  intros ->. revert attempt w. induction k as [|k IH]; intros attempt w Hlt Hr.
  - simpl. now rewrite Nat.add_0_r.
  - change (S k + todo)%nat with (S (k + todo)).
    rewrite attempts_retry.
    + rewrite IH.
      * replace (S attempt + k)%nat with (attempt + S k)%nat by lia.
        f_equal. clear. induction k as [|k IHk]; simpl; [reflexivity|].
        now rewrite IHk.
      * lia.
      * intros i Hi.
        change (service (retried q w)) with (service w).
        change (requests_made (retried q w)) with (S (requests_made w)).
        replace (S (requests_made w) + i)%nat with (requests_made w + S i)%nat by lia.
        apply Hr. lia.
    + specialize (Hr O ltac:(lia)). now rewrite Nat.add_0_r in Hr.
    + apply Nat.ltb_lt. lia.
Qed.

(** A lookup always returns when the key is in the store. *)
Lemma update_paper_citation_post title paper_data paper retry_limit w :
  Dict.get title paper_data = Some paper ->
  exists outcome paper_data' evs w',
    update_paper_citation title paper_data retry_limit w
    = Some ((outcome, paper_data'), w') /\
    trace w' = trace w ++ EvPaper title :: evs /\
    Forall (attempt_event (Paper.title paper) paper_data') evs /\
    (requests_made w <= requests_made w' <= requests_made w + retry_limit)%nat /\
    readme_file w' = readme_file w /\
    service w' = service w /\ clock w' = clock w /\
    match outcome with
    | Failed _ =>
        paper_data' = paper_data /\ citations_file w' = citations_file w /\
        clock_reads w' = clock_reads w /\
        (forall d, ~ In (EvSave d) evs)
    | Updated_to n =>
        paper_data'
        = record_citation title paper n
            (DateTime.strftime (clock w (clock_reads w))) paper_data /\
        citations_file w' = Content paper_data' /\
        clock_reads w' = S (clock_reads w)
    end.
Proof.
  intros Hget. rewrite (update_paper_citation_unfold _ _ _ _ _ Hget).
  destruct (attempts_post title (Paper.title paper) paper paper_data retry_limit
                          retry_limit O (log (EvPaper title) w))
    as (o & d & evs & w' & Hrun & Htr & Hev & Hreq & Hrd & Hsv & Hck & Ho).
  exists o, d, evs, w'. split; [exact Hrun|]. split.
  { rewrite Htr. simpl. rewrite <- app_assoc. reflexivity. }
  repeat (split; [assumption|]). exact Ho.
Qed.

Lemma record_citation_get title paper n ts paper_data :
  Dict.get title (record_citation title paper n ts paper_data)
  = Some (Paper.mk (Paper.title paper) n (Some ts)).
Proof. apply get_set_same. Qed.

Lemma record_citation_other title paper n ts paper_data k :
  k <> title ->
  Dict.get k (record_citation title paper n ts paper_data) = Dict.get k paper_data.
Proof. intros H. apply get_set_other. congruence. Qed.

Lemma record_citation_keys title paper n ts paper_data :
  Dict.get title paper_data = Some paper ->
  Dict.keys (record_citation title paper n ts paper_data) = Dict.keys paper_data.
Proof.
  intros H. apply keys_set_present. apply get_some_in_keys. eauto.
Qed.

(** ** The exact-match policy *)

(** C3 as stated fails where a candidate lacks its citation count.  The
    first candidate whose title equals the search key up to case is then
    not the one selected: a later complete one is, or, when there is none,
    the lookup fails although a title matched.  The reason returned is
    [Title not exactly matched]. *)
Lemma first_title_match_not_selected :
  find (title_equal Sample.title_a) [Sample.no_count; Sample.with_count]
  = Some Sample.no_count /\
  Candidate.citationCount Sample.no_count = None /\
  (exists data' w',
      update_paper_citation Sample.title_a Sample.store_a default_retry_limit
        (Sample.w_lookup Sample.store_a
           (fun _ => Json (Some [Sample.no_count; Sample.with_count])))
      = Some ((Updated_to 12, data'), w')) /\
  (exists w',
      update_paper_citation Sample.title_a Sample.store_a default_retry_limit
        (Sample.w_lookup Sample.store_a (fun _ => Json (Some [Sample.no_count])))
      = Some ((Failed "Title not exactly matched", Sample.store_a), w')) /\
  "Title not exactly matched" <> "title not exactly matched".
Proof.
  split; [reflexivity|]. split; [reflexivity|].
  split; [do 2 eexists; vm_compute; reflexivity|].
  split; [eexists; vm_compute; reflexivity|]. discriminate.
Qed.

(** C3, amended.  When an attempt of a lookup, reached after [k] tries
    that each called for another, gets a non-empty result, the first
    candidate that carries both fields and whose title equals the search
    key up to case is selected, the lookup succeeds with that candidate's
    count and records it; when no candidate carrying both fields has such
    a title the lookup fails with [Title not exactly matched] and leaves
    the store alone.  Either way that request is the last one. *)
Theorem exact_match_policy (title : string) (paper_data : store) (paper : Paper.t)
        (retry_limit k : nat) (w : world) (data : list Candidate.t) :
  Dict.get title paper_data = Some paper ->
  (k < retry_limit)%nat ->
  (forall i, (i < k)%nat -> retryable (service w (requests_made w + i)) = true) ->
  service w (requests_made w + k) = Json (Some data) ->
  data <> [] ->
  exists outcome paper_data' w',
    update_paper_citation title paper_data retry_limit w
    = Some ((outcome, paper_data'), w') /\
    requests_made w' = (requests_made w + k + 1)%nat /\
    (forall pre c post n,
        data = pre ++ c :: post ->
        (forall x, In x pre -> complete x && title_equal (Paper.title paper) x = false) ->
        complete c && title_equal (Paper.title paper) c = true ->
        Candidate.citationCount c = Some n ->
        outcome = Updated_to n /\
        paper_data'
        = record_citation title paper n
            (DateTime.strftime (clock w (clock_reads w))) paper_data) /\
    ((forall x, In x data -> complete x && title_equal (Paper.title paper) x = false) ->
     outcome = Failed "Title not exactly matched" /\ paper_data' = paper_data).
Proof.
  intros Hget Hk Hretry Hdata Hne.
  rewrite (update_paper_citation_unfold _ _ _ _ _ Hget).
  set (q := Paper.title paper). set (w0 := log (EvPaper title) w).
  rewrite (attempts_after_retries title q paper paper_data retry_limit k
             (S (retry_limit - S k)) retry_limit O w0); [|lia|lia|exact Hretry].
  destruct (retried_iter_frame q k w0) as (Hsv & Hck & Hrq & Hcr & _).
  set (wk := Nat.iter k (retried q) w0) in *.
  assert (Hs : service wk (requests_made wk) = Json (Some data)).
  { rewrite Hsv, Hrq. exact Hdata. }
  rewrite (attempts_results title q paper paper_data retry_limit _ _ wk data Hs Hne).
  destruct (find_exact q data) as [[c n]|] eqn:Hfind.
  - do 3 eexists. split; [reflexivity|]. split; [simpl; rewrite Hrq; simpl; lia|]. split.
    + intros pre c' post n' Hsplit Hpre Hc Hn.
      assert (Hf : find_exact q data = Some (c', n')).
      { apply find_exact_some. exists pre, post. auto. }
      rewrite Hfind in Hf. injection Hf as <- <-.
      split; [reflexivity|]. rewrite Hck, Hcr. reflexivity.
    + intros Hnone. apply find_exact_none in Hnone. congruence.
  - do 3 eexists. split; [reflexivity|]. split; [simpl; rewrite Hrq; simpl; lia|]. split.
    + intros pre c' post n' Hsplit Hpre Hc Hn.
      assert (Hf : find_exact q data = Some (c', n')).
      { apply find_exact_some. exists pre, post. auto. }
      congruence.
    + intros _. split; reflexivity.
Qed.

Lemma exact_match_policy_witness :
  Dict.get Sample.title_a Sample.store_a
  = Some (Paper.mk Sample.title_a 5 (Some "2024-02-27-08:30:00")) /\
  exists paper_data' w',
    update_paper_citation Sample.title_a Sample.store_a default_retry_limit
      (Sample.w_lookup Sample.store_a
         (fun n => match n with
                   | O => Status429
                   | _ => Json (Some [Sample.near_miss; Sample.no_count; Sample.with_count])
                   end))
    = Some ((Updated_to 12, paper_data'), w') /\
    requests_made w' = 2%nat.
Proof.
  split; [reflexivity|].
  destruct (exact_match_policy Sample.title_a Sample.store_a
              (Paper.mk Sample.title_a 5 (Some "2024-02-27-08:30:00"))
              default_retry_limit 1
              (Sample.w_lookup Sample.store_a
                 (fun n => match n with
                           | O => Status429
                           | _ => Json (Some [Sample.near_miss; Sample.no_count;
                                              Sample.with_count])
                           end))
              [Sample.near_miss; Sample.no_count; Sample.with_count])
    as (o & d & w' & Hrun & Hreq & Hsel & _).
  - reflexivity.
  - unfold default_retry_limit. lia.
  - intros [|i] Hi; [reflexivity | lia].
  - reflexivity.
  - discriminate.
  - destruct (Hsel [Sample.near_miss; Sample.no_count] Sample.with_count [] 12%Z)
      as [Ho _].
    + reflexivity.
    + intros x [<-|[<-|[]]]; reflexivity.
    + reflexivity.
    + reflexivity.
    + subst o. exists d, w'. split; [exact Hrun | exact Hreq].
Defined.

(** ** Candidates that lack a field *)

(** C10.  Whatever the result set, the selection made over it is the one
    made over its candidates that carry both a title and a citation
    count; the selected candidate is one of the result set, carries both
    fields and has a title equal to the search key up to case; a candidate
    lacking a field is never selected; and the lookup returns rather than
    failing on such a candidate. *)
Theorem incomplete_candidates_skipped (title search_title : string) (paper_data : store)
        (paper : Paper.t) (retry_limit : nat) (w : world) (data : list Candidate.t) :
  find_exact search_title data = find_exact search_title (filter complete data) /\
  (forall c n, find_exact search_title data = Some (c, n) ->
               In c data /\ complete c = true /\
               title_equal search_title c = true /\
               Candidate.citationCount c = Some n) /\
  (forall c n, In c data ->
               Candidate.title c = None \/ Candidate.citationCount c = None ->
               find_exact search_title data <> Some (c, n)) /\
  (Dict.get title paper_data = Some paper ->
   service w (requests_made w) = Json (Some data) ->
   exists outcome paper_data' w',
     update_paper_citation title paper_data retry_limit w
     = Some ((outcome, paper_data'), w')).
Proof.
  assert (Hsel : forall c n, find_exact search_title data = Some (c, n) ->
                             In c data /\ complete c = true /\
                             title_equal search_title c = true /\
                             Candidate.citationCount c = Some n).
  { intros c n H. apply find_exact_some in H.
    destruct H as (pre & post & -> & _ & Hc & Hn).
    apply andb_true_iff in Hc. destruct Hc as [Hc Ht].
    split; [apply in_or_app; right; now left | auto]. }
  split; [apply find_exact_complete|]. split; [exact Hsel|]. split.
  - intros c n Hin Hmiss Hf. destruct (Hsel c n Hf) as (_ & Hc & _).
    unfold complete in Hc. destruct Hmiss as [Hm|Hm]; rewrite Hm in Hc.
    + discriminate.
    + destruct (Candidate.title c); discriminate.
  - intros Hget _.
    destruct (update_paper_citation_post title paper_data paper retry_limit w Hget)
      as (o & d & evs & w' & Hrun & _).
    now exists o, d, w'.
Qed.

Lemma incomplete_candidates_skipped_witness :
  Dict.get Sample.title_a Sample.store_a
  = Some (Paper.mk Sample.title_a 5 (Some "2024-02-27-08:30:00")) /\
  find_exact Sample.title_a [Sample.no_count; Sample.near_miss] = None /\
  exists outcome paper_data' w',
    update_paper_citation Sample.title_a Sample.store_a default_retry_limit
      (Sample.w_lookup Sample.store_a
         (fun _ => Json (Some [Sample.no_count; Sample.near_miss])))
    = Some ((outcome, paper_data'), w').
Proof.
  split; [reflexivity|]. split; [reflexivity|].
  exact (proj2 (proj2 (proj2
    (incomplete_candidates_skipped Sample.title_a Sample.title_a Sample.store_a
       (Paper.mk Sample.title_a 5 (Some "2024-02-27-08:30:00")) default_retry_limit
       (Sample.w_lookup Sample.store_a
          (fun _ => Json (Some [Sample.no_count; Sample.near_miss])))
       [Sample.no_count; Sample.near_miss]))) eq_refl eq_refl).
Defined.

(** ** Search key and store key *)

Lemma attempt_event_request q data evs q' :
  Forall (attempt_event q data) evs -> In (EvRequest q') evs -> q' = q.
Proof.
  intros Hall Hin. rewrite Forall_forall in Hall. exact (Hall _ Hin).
Qed.

(** The first thing an attempt does is a request. *)
Lemma attempts_first_request title q paper paper_data retry_limit todo attempt w :
  exists r w' evs,
    attempts title q paper paper_data retry_limit (S todo) attempt w = Some (r, w') /\
    trace w' = trace w ++ EvRequest q :: evs.
Proof.
  destruct (retryable (service w (requests_made w))) eqn:Hr.
  - destruct (attempt <? retry_limit - 1)%nat eqn:Hlt.
    + rewrite (attempts_retry _ _ _ _ _ _ _ _ Hr Hlt).
      destruct (attempts_post title q paper paper_data retry_limit todo (S attempt)
                              (retried q w))
        as (o & d & evs & w' & Hrun & Htr & _).
      exists (o, d), w', (EvSleep api_delay :: evs). split; [exact Hrun|].
      rewrite Htr. simpl. rewrite <- !app_assoc. reflexivity.
    + rewrite (attempts_give_up _ _ _ _ _ _ _ _ Hr Hlt).
      do 2 eexists. exists []. split; reflexivity.
  - destruct (service w (requests_made w)) as [|e| |[data|]] eqn:Hs;
      try discriminate Hr.
    assert (Hne : data <> []) by (intros ->; discriminate Hr).
    rewrite (attempts_results _ _ _ _ _ _ _ _ _ Hs Hne).
    destruct (find_exact q data) as [[c n]|].
    + do 2 eexists. eexists [EvSave _]. split; [reflexivity|].
      simpl. rewrite <- app_assoc. reflexivity.
    + do 2 eexists. exists []. split; reflexivity.
Qed.

(** C9.  A lookup for the store key [title] returns; every request it
    makes carries the record's [title] field as its query, and with a
    retry limit above zero it makes one; on a match the new count and the
    time of the match are written under the key [title], every other key
    keeps its record and the keys keep their order, and the store so
    changed is the one saved; on a failure the store is unchanged. *)
Theorem lookup_searches_by_field_writes_by_key (title : string) (paper_data : store)
        (paper : Paper.t) (retry_limit : nat) (w : world) :
  Dict.get title paper_data = Some paper ->
  exists outcome paper_data' evs w',
    update_paper_citation title paper_data retry_limit w
    = Some ((outcome, paper_data'), w') /\
    trace w' = trace w ++ EvPaper title :: evs /\
    (forall q, In (EvRequest q) evs -> q = Paper.title paper) /\
    ((0 < retry_limit)%nat -> In (EvRequest (Paper.title paper)) evs) /\
    (forall k, k <> title -> Dict.get k paper_data' = Dict.get k paper_data) /\
    Dict.keys paper_data' = Dict.keys paper_data /\
    match outcome with
    | Updated_to n =>
        Dict.get title paper_data'
        = Some (Paper.mk (Paper.title paper) n
                         (Some (DateTime.strftime (clock w (clock_reads w))))) /\
        citations_file w' = Content paper_data'
    | Failed _ =>
        paper_data' = paper_data /\ citations_file w' = citations_file w
    end.
Proof.
  intros Hget.
  destruct (update_paper_citation_post title paper_data paper retry_limit w Hget)
    as (o & d & evs & w' & Hrun & Htr & Hev & _ & _ & _ & _ & Ho).
  exists o, d, evs, w'. split; [exact Hrun|]. split; [exact Htr|].
  split; [intros q; apply (attempt_event_request _ _ _ _ Hev)|]. split.
  { intros Hpos. destruct retry_limit as [|todo]; [lia|].
    rewrite (update_paper_citation_unfold _ _ _ _ _ Hget) in Hrun.
    destruct (attempts_first_request title (Paper.title paper) paper paper_data
                                     (S todo) todo O (log (EvPaper title) w))
      as (r & w2 & evs2 & Hrun2 & Htr2).
    rewrite Hrun in Hrun2. injection Hrun2 as <- <-.
    rewrite Htr in Htr2. simpl in Htr2. rewrite <- app_assoc in Htr2. simpl in Htr2.
    apply app_inv_head in Htr2. injection Htr2 as ->. now left. }
  destruct o as [n|r].
  - destruct Ho as (-> & Hcf & _). split; [|split; [|split]].
    + intros k Hk. now apply record_citation_other.
    + now apply record_citation_keys.
    + apply record_citation_get.
    + exact Hcf.
  - destruct Ho as (-> & Hcf & _). repeat split; auto.
Qed.

Lemma lookup_searches_by_field_writes_by_key_witness :
  Dict.get Sample.title_a Sample.store_override
  = Some (Paper.mk "Attention is all you need (2017)" 5 (Some "2024-02-27-08:30:00")) /\
  exists paper_data' evs w',
    update_paper_citation Sample.title_a Sample.store_override default_retry_limit
      (Sample.w_lookup Sample.store_override (fun _ => Json (Some [Sample.override_hit])))
    = Some ((Updated_to 9, paper_data'), w') /\
    trace w' = EvPaper Sample.title_a :: evs /\
    In (EvRequest "Attention is all you need (2017)") evs.
Proof.
  split; [reflexivity|].
  destruct (lookup_searches_by_field_writes_by_key Sample.title_a Sample.store_override
              (Paper.mk "Attention is all you need (2017)" 5 (Some "2024-02-27-08:30:00"))
              default_retry_limit
              (Sample.w_lookup Sample.store_override
                 (fun _ => Json (Some [Sample.override_hit]))) eq_refl)
    as (o & d & evs & w' & Hrun & Htr & _ & Hone & _).
  exists d, evs, w'. split.
  - rewrite Hrun. vm_compute in Hrun. injection Hrun as <- _ _. reflexivity.
  - split; [exact Htr|]. apply Hone. unfold default_retry_limit. lia.
Defined.

(** ** The freshness test *)

Lemma is_recently_updated_run last_updated_str w :
  is_recently_updated last_updated_str w
  = match DateTime.strptime last_updated_str with
    | Some last_updated =>
        Some ((DateTime.to_us (clock w (clock_reads w)) - DateTime.to_us last_updated
               <? DateTime.timedelta_hours skip_recent_hours)%Z,
              tick w)
    | None => Some (false, w)
    end.
Proof.
  unfold is_recently_updated. now destruct (DateTime.strptime last_updated_str).
Qed.

Lemma is_recently_updated_frame last_updated_str w :
  exists recent w',
    is_recently_updated last_updated_str w = Some (recent, w') /\
    same_but_clock_reads w w'.
Proof.
  rewrite is_recently_updated_run.
  destruct (DateTime.strptime last_updated_str);
    do 2 eexists; (split; [reflexivity|]); repeat split.
Qed.

(** ** The update pass *)

Lemma note_outcome_data title outcome data st :
  sorted_data (note_outcome title outcome data st) = data.
Proof.
  destruct outcome as [n|r]; simpl; [destruct (Dict.get title data)|]; reflexivity.
Qed.

Lemma looked_up_app evs1 evs2 :
  looked_up (evs1 ++ evs2) = looked_up evs1 ++ looked_up evs2.
Proof. apply flat_map_app. Qed.

Lemma looked_up_attempt_events q data evs :
  Forall (attempt_event q data) evs -> looked_up evs = [].
Proof.
  induction 1 as [|e evs He _ IH]; [reflexivity|].
  destruct e; simpl in *; auto; contradiction.
Qed.

Lemma subseq_nil_l {A : Type} (l : list A) : subseq [] l.
Proof. induction l; constructor; assumption. Qed.

Lemma subseq_in {A : Type} (l1 l2 : list A) x : subseq l1 l2 -> In x l1 -> In x l2.
Proof.
  induction 1 as [|y l1 l2 _ IH|y l1 l2 _ IH]; simpl; auto.
  intros [H|H]; auto.
Qed.

(** What the update pass leaves behind, from any point of the loop. *)
Lemma update_loop_post titles index total st w :
  (forall t, In t titles -> In t (Dict.keys (sorted_data st))) ->
  exists st' w' evs,
    update_loop titles index total st w = Some (st', w') /\
    trace w' = trace w ++ evs /\
    Dict.keys (sorted_data st') = Dict.keys (sorted_data st) /\
    subseq (looked_up evs) titles /\
    (forall d, In (EvSave d) evs -> Dict.keys d = Dict.keys (sorted_data st)) /\
    ((citations_file w' = citations_file w /\ sorted_data st' = sorted_data st) \/
     citations_file w' = Content (sorted_data st')) /\
    readme_file w' = readme_file w /\
    (forall c, ~ In (EvWriteReadme c) evs).
Proof.
  revert index st w. induction titles as [|title rest IH]; intros index st w Hin.
  - exists st, w, []. simpl. rewrite app_nil_r.
    repeat split; auto; [constructor | intros d []].
  - assert (Hk : In title (Dict.keys (sorted_data st))) by (apply Hin; now left).
    apply get_some_in_keys in Hk. destruct Hk as [info Hinfo].
    simpl. rewrite Hinfo. unfold bind at 1.
    destruct (is_recently_updated_frame (last_updated_or_default info) w)
      as (recent & w1 & Hrec & Hrd1 & Hcf1 & Hsv1 & Hrq1 & Hck1 & Htr1).
    rewrite Hrec. destruct recent.
    + destruct (IH (S index) (note_recent title (last_updated_or_default info) st) w1)
        as (st' & w' & evs & Hrun & Htr & Hkeys & Hsub & Hsave & Hcf & Hrd & Hwr).
      { intros t Ht. apply Hin. now right. }
      exists st', w', evs. split; [exact Hrun|]. split; [congruence|].
      split; [exact Hkeys|]. split; [now constructor|]. split; [exact Hsave|].
      split; [rewrite <- Hcf1; exact Hcf|]. split; [congruence | exact Hwr].
    + unfold bind at 1.
      destruct (update_paper_citation_post title (sorted_data st) info
                                           default_retry_limit w1 Hinfo)
        as (o & d & evs1 & w2 & Hrun1 & Htr2 & Hev & _ & Hrd2 & _ & _ & Ho).
      rewrite Hrun1. cbn [fst snd].
      assert (Hkd : Dict.keys d = Dict.keys (sorted_data st)).
      { destruct o as [n|r].
        - destruct Ho as (-> & _). now apply record_citation_keys.
        - now destruct Ho as (-> & _). }
      set (st1 := note_outcome title o d st).
      assert (Hst1 : sorted_data st1 = d) by apply note_outcome_data.
      assert (Hsleep : exists w3 evs3,
                 (if (index <? total - 1)%nat then sleep api_delay else ret tt) w2
                 = Some (tt, w3) /\
                 trace w3 = trace w2 ++ evs3 /\
                 Forall (attempt_event (Paper.title info) d) evs3 /\
                 citations_file w3 = citations_file w2 /\
                 readme_file w3 = readme_file w2).
      { destruct (index <? total - 1)%nat.
        - exists (log (EvSleep api_delay) w2), [EvSleep api_delay].
          repeat split. repeat constructor.
        - exists w2, []. rewrite app_nil_r. repeat split. constructor. }
      destruct Hsleep as (w3 & evs3 & Hrun3 & Htr3 & Hev3 & Hcf3 & Hrd3).
      unfold bind at 1. rewrite Hrun3.
      destruct (IH (S index) st1 w3)
        as (st' & w' & evs & Hrun & Htr & Hkeys & Hsub & Hsave & Hcf & Hrd & Hwr).
      { intros t Ht. rewrite Hst1, Hkd. apply Hin. now right. }
      assert (Hall : Forall (attempt_event (Paper.title info) d) (evs1 ++ evs3))
        by (apply Forall_app; split; assumption).
      exists st', w', (EvPaper title :: (evs1 ++ evs3) ++ evs).
      split; [exact Hrun|]. split.
      { rewrite Htr, Htr3, Htr2, Htr1. rewrite <- !app_assoc. reflexivity. }
      split; [now rewrite Hkeys, Hst1|]. split.
      { change (EvPaper title :: (evs1 ++ evs3) ++ evs)
          with ([EvPaper title] ++ (evs1 ++ evs3) ++ evs).
        rewrite looked_up_app, (looked_up_app (evs1 ++ evs3)),
          (looked_up_attempt_events _ _ _ Hall).
        simpl. now constructor. }
      split.
      { intros d0 [H|H]; [discriminate|].
        apply in_app_or in H. destruct H as [H|H].
        - rewrite Forall_forall in Hall. specialize (Hall _ H). simpl in Hall.
          now subst d0.
        - rewrite (Hsave d0 H), Hst1. exact Hkd. }
      split.
      { destruct Hcf as [[Hcf Hsd]|Hcf]; [|now right].
        destruct o as [n|r].
        - right. destruct Ho as (_ & Hf & _). rewrite Hcf, Hcf3, Hf, Hsd, Hst1.
          reflexivity.
        - left. destruct Ho as (Hd & Hf & _). split; congruence. }
      split; [congruence|].
      intros c [H|H]; [discriminate|].
      apply in_app_or in H. destruct H as [H|H]; [|now apply (Hwr c)].
      rewrite Forall_forall in Hall. exact (Hall _ H).
Qed.

(** ** The order on strings *)

Lemma str_compare_refl s : String.compare s s = Eq.
Proof.
  pose proof (String.compare_antisym s s) as H.
  destruct (String.compare s s); simpl in H; congruence.
Qed.

Lemma str_le_refl s : PyStr.le s s = true.
Proof. unfold PyStr.le, String.leb. now rewrite str_compare_refl. Qed.

Lemma str_le_total a b : PyStr.le a b = false -> PyStr.le b a = true.
Proof.
  intros H. destruct (String.leb_total a b) as [H'|H']; [|exact H'].
  unfold PyStr.le in H. congruence.
Qed.

Lemma str_lt_not_le a b : PyStr.lt a b = true -> PyStr.le b a = false.
Proof.
  unfold PyStr.lt, PyStr.le, String.ltb, String.leb.
  rewrite (String.compare_antisym a b).
  destruct (String.compare b a); simpl; congruence.
Qed.

Lemma str_le_trans a b c :
  PyStr.le a b = true -> PyStr.le b c = true -> PyStr.le a c = true.
Proof.
  unfold PyStr.le, String.leb. revert b c.
  induction a as [|x a IH]; intros [|y b] [|z c]; simpl; try congruence.
  unfold Ascii.compare.
  destruct (N.compare_spec (N_of_ascii x) (N_of_ascii y)) as [Hxy|Hxy|Hxy];
    destruct (N.compare_spec (N_of_ascii y) (N_of_ascii z)) as [Hyz|Hyz|Hyz];
    destruct (N.compare_spec (N_of_ascii x) (N_of_ascii z)) as [Hxz|Hxz|Hxz];
    try congruence; try lia.
  apply IH.
Qed.

(** ** [sorted] is a stable sort *)

Section SortedFacts.
Context {A : Type} (key : A -> string).

Let ordered (a b : A) : Prop := PyStr.le (key a) (key b) = true.

Lemma insert_sorted_perm x l : Permutation (insert_sorted key x l) (x :: l).
Proof.
  induction l as [|y l IH]; simpl; [reflexivity|].
  destruct (PyStr.le (key x) (key y)); [reflexivity|].
  rewrite IH. apply perm_swap.
Qed.

Lemma sorted_perm l : Permutation (sorted key l) l.
Proof.
  induction l as [|x l IH]; simpl; [reflexivity|].
  rewrite insert_sorted_perm. now constructor.
Qed.

Lemma insert_sorted_ordered x l :
  StronglySorted ordered l -> StronglySorted ordered (insert_sorted key x l).
Proof.
  induction 1 as [|y l Hs IH Hy]; simpl.
  - repeat constructor.
  - destruct (PyStr.le (key x) (key y)) eqn:E.
    + constructor; [now constructor|]. constructor; [exact E|].
      rewrite Forall_forall in *. intros z Hz.
      exact (str_le_trans _ _ _ E (Hy z Hz)).
    + constructor; [exact IH|].
      rewrite Forall_forall in *. intros z Hz.
      apply (Permutation_in _ (insert_sorted_perm x l)) in Hz.
      destruct Hz as [<-|Hz]; [now apply str_le_total | now apply Hy].
Qed.

Lemma sorted_ordered l : StronglySorted ordered (sorted key l).
Proof.
  induction l as [|x l IH]; simpl; [constructor | now apply insert_sorted_ordered].
Qed.

(** Elements with the same key keep the order they had. *)
Lemma insert_sorted_stable k x l :
  filter (fun a => String.eqb (key a) k) (insert_sorted key x l)
  = filter (fun a => String.eqb (key a) k) (x :: l).
Proof.
  induction l as [|y l IH]; [reflexivity|].
  cbn [insert_sorted]. destruct (PyStr.le (key x) (key y)) eqn:E; [reflexivity|].
  cbn [filter] in *. rewrite IH.
  destruct (String.eqb_spec (key x) k) as [Hx|Hx];
    destruct (String.eqb_spec (key y) k) as [Hy|Hy]; try reflexivity.
  rewrite Hx, Hy, str_le_refl in E. discriminate.
Qed.

Lemma sorted_stable k l :
  filter (fun a => String.eqb (key a) k) (sorted key l)
  = filter (fun a => String.eqb (key a) k) l.
Proof.
  induction l as [|x l IH]; [reflexivity|].
  cbn [sorted]. rewrite insert_sorted_stable. cbn [filter]. now rewrite IH.
Qed.

End SortedFacts.

(** In a sorted list, of two elements of a sub-sequence the one that is
    strictly smaller comes first. *)
Lemma subseq_sorted_before {A : Type} (R : A -> A -> Prop) (l t : list A) :
  (forall a, R a a) ->
  subseq l t -> StronglySorted R t ->
  forall a b, In a l -> In b l -> ~ R b a -> before a b l.
Proof.
  intros Hrefl Hsub. induction Hsub as [|x l1 l2 Hsub IH|x l1 l2 Hsub IH];
    intros Hs a b Ha Hb Hnot.
  - destruct Ha.
  - inversion Hs; subst. now apply IH.
  - inversion Hs as [|? ? Hs' Hall]; subst.
    destruct Ha as [<-|Ha]; destruct Hb as [<-|Hb].
    + exfalso. apply Hnot, Hrefl.
    + apply in_split in Hb. destruct Hb as (m1 & m2 & ->).
      now exists [], m1, m2.
    + exfalso. apply Hnot. rewrite Forall_forall in Hall.
      apply Hall. exact (subseq_in _ _ _ Hsub Ha).
    + destruct (IH Hs' a b Ha Hb Hnot) as (m1 & m2 & m3 & ->).
      now exists (x :: m1), m2, m3.
Qed.

(** ** The scheduler's order of the store keys *)

Lemma paper_info_titles citations_data :
  map Info.title (paper_info_of citations_data) = Dict.keys citations_data.
Proof.
  unfold paper_info_of, Dict.keys. rewrite map_map.
  apply map_ext. now intros [k v].
Qed.

Lemma paper_info_stamp citations_data i :
  NoDup (Dict.keys citations_data) ->
  In i (paper_info_of citations_data) ->
  Info.last_updated i = stamp citations_data (Info.title i).
Proof.
  intros Hnd Hin. unfold paper_info_of in Hin. apply in_map_iff in Hin.
  destruct Hin as ([k v] & <- & Hkv). simpl. unfold stamp.
  now rewrite (in_get_nodup _ _ _ Hnd Hkv).
Qed.

Lemma titles_ordered_perm citations_data :
  Permutation (paper_titles_ordered_of citations_data) (Dict.keys citations_data).
Proof.
  unfold paper_titles_ordered_of. rewrite <- paper_info_titles.
  apply Permutation_map, sorted_perm.
Qed.

Lemma titles_ordered_nodup citations_data :
  NoDup (Dict.keys citations_data) -> NoDup (paper_titles_ordered_of citations_data).
Proof.
  intros H. apply (Permutation_NoDup (Permutation_sym (titles_ordered_perm _)) H).
Qed.

Lemma strongly_sorted_map {A B : Type} (f : A -> B) (R : B -> B -> Prop) (l : list A) :
  StronglySorted (fun a b => R (f a) (f b)) l -> StronglySorted R (map f l).
Proof.
  induction 1 as [|x l Hs IH Hx]; simpl; constructor; auto.
  rewrite Forall_forall in *. intros y Hy. apply in_map_iff in Hy.
  destruct Hy as (z & <- & Hz). now apply Hx.
Qed.

Lemma strongly_sorted_weaken {A : Type} (R1 R2 : A -> A -> Prop) (l : list A) :
  (forall a b, In a l -> In b l -> R1 a b -> R2 a b) ->
  StronglySorted R1 l -> StronglySorted R2 l.
Proof.
  intros Himp Hs. induction Hs as [|x l Hs IH Hx]; constructor.
  - apply IH. intros a b Ha Hb. apply Himp; now right.
  - rewrite Forall_forall in *. intros y Hy.
    apply Himp; [now left | now right | now apply Hx].
Qed.

Lemma titles_ordered_sorted citations_data :
  NoDup (Dict.keys citations_data) ->
  StronglySorted
    (fun a b => PyStr.le (stamp citations_data a) (stamp citations_data b) = true)
    (paper_titles_ordered_of citations_data).
Proof.
  intros Hnd. unfold paper_titles_ordered_of.
  apply (strongly_sorted_map Info.title
           (fun a b => PyStr.le (stamp citations_data a) (stamp citations_data b) = true)).
  apply (strongly_sorted_weaken
           (fun a b => PyStr.le (Info.last_updated a) (Info.last_updated b) = true));
    [|apply sorted_ordered].
  intros a b Ha Hb H.
  apply (Permutation_in _ (sorted_perm Info.last_updated _)) in Ha, Hb.
  now rewrite <- !(paper_info_stamp citations_data) by assumption.
Qed.

Lemma filter_map_comm {A B : Type} (f : A -> B) (p : B -> bool) (l : list A) :
  filter p (map f l) = map f (filter (fun a => p (f a)) l).
Proof.
  induction l as [|x l IH]; simpl; [reflexivity|].
  destruct (p (f x)); simpl; now rewrite IH.
Qed.

Lemma titles_ordered_stable citations_data ts :
  NoDup (Dict.keys citations_data) ->
  filter (fun t => String.eqb (stamp citations_data t) ts)
         (paper_titles_ordered_of citations_data)
  = filter (fun t => String.eqb (stamp citations_data t) ts)
           (Dict.keys citations_data).
Proof.
  intros Hnd. unfold paper_titles_ordered_of.
  rewrite <- paper_info_titles, !filter_map_comm. f_equal.
  rewrite (filter_ext_in _ (fun a => String.eqb (Info.last_updated a) ts)).
  - rewrite sorted_stable. apply filter_ext_in. intros a Ha.
    now rewrite (paper_info_stamp citations_data).
  - intros a Ha. apply (Permutation_in _ (sorted_perm Info.last_updated _)) in Ha.
    now rewrite (paper_info_stamp citations_data).
Qed.

(** ** The passes of [get_citations] *)

Lemma reorder_run citations_data titles acc w :
  (forall t, In t titles -> In t (Dict.keys citations_data)) ->
  (forall k, In k (Dict.keys acc) -> Dict.get k acc = Dict.get k citations_data) ->
  exists sorted_data,
    reorder citations_data titles acc w = Some (sorted_data, w) /\
    (forall k, In k (Dict.keys sorted_data) <-> In k (Dict.keys acc) \/ In k titles) /\
    (forall k, In k (Dict.keys sorted_data) ->
               Dict.get k sorted_data = Dict.get k citations_data) /\
    (NoDup (Dict.keys acc ++ titles) -> Dict.keys sorted_data = Dict.keys acc ++ titles).
Proof.
  revert acc. induction titles as [|title rest IH]; intros acc Hin Hacc.
  - exists acc. simpl. rewrite app_nil_r. repeat split; auto; tauto.
  - assert (Hk : In title (Dict.keys citations_data)) by (apply Hin; now left).
    apply get_some_in_keys in Hk. destruct Hk as [info Hinfo].
    simpl. rewrite Hinfo.
    destruct (IH (Dict.set title info acc)) as (sd & Hrun & Hkeys & Hget & Hord).
    + intros t Ht. apply Hin. now right.
    + intros k Hk. destruct (string_dec title k) as [<-|Hne].
      * now rewrite get_set_same.
      * rewrite get_set_other by assumption. apply Hacc.
        apply in_keys_set in Hk. destruct Hk as [Hk|Hk]; [congruence | exact Hk].
    + exists sd. split; [exact Hrun|]. split; [|split; [exact Hget|]].
      * intros k. rewrite Hkeys, in_keys_set. simpl. intuition.
      * intros Hnd. rewrite Hord.
        -- rewrite keys_set_fresh, <- app_assoc; [reflexivity|].
           intros Hk. apply NoDup_remove_2 in Hnd. apply Hnd.
           apply in_or_app. now left.
        -- rewrite keys_set_fresh, <- app_assoc; [exact Hnd|].
           intros Hk. apply NoDup_remove_2 in Hnd. apply Hnd.
           apply in_or_app. now left.
Qed.

Lemma same_but_clock_reads_trans w1 w2 w3 :
  same_but_clock_reads w1 w2 -> same_but_clock_reads w2 w3 ->
  same_but_clock_reads w1 w3.
Proof.
  unfold same_but_clock_reads. intros (A1 & A2 & A3 & A4 & A5 & A6)
                                      (B1 & B2 & B3 & B4 & B5 & B6).
  repeat split; congruence.
Qed.

Lemma count_due_run sorted_data titles n w :
  (forall t, In t titles -> In t (Dict.keys sorted_data)) ->
  exists need_update_count w',
    count_due sorted_data titles n w = Some (need_update_count, w') /\
    same_but_clock_reads w w'.
Proof.
  revert n w. induction titles as [|title rest IH]; intros n w Hin.
  - exists n, w. split; [reflexivity|]. repeat split.
  - assert (Hk : In title (Dict.keys sorted_data)) by (apply Hin; now left).
    apply get_some_in_keys in Hk. destruct Hk as [info Hinfo].
    simpl. rewrite Hinfo. unfold bind.
    destruct (is_recently_updated_frame (last_updated_or_default info) w)
      as (recent & w1 & Hrec & Hframe).
    rewrite Hrec.
    destruct (IH (if recent then n else S n) w1) as (m & w' & Hrun & Hframe').
    { intros t Ht. apply Hin. now right. }
    exists m, w'. split; [exact Hrun|].
    exact (same_but_clock_reads_trans _ _ _ Hframe Hframe').
Qed.

Lemma get_citations_progress_post citations_data w :
  let titles := paper_titles_ordered_of citations_data in
  exists sorted0 st w' evs,
    get_citations_progress citations_data w = Some (st, w') /\
    trace w' = trace w ++ EvSave sorted0 :: evs /\
    (forall k, In k (Dict.keys sorted0) <-> In k titles) /\
    (forall k, In k titles -> Dict.get k sorted0 = Dict.get k citations_data) /\
    (NoDup (Dict.keys citations_data) -> Dict.keys sorted0 = titles) /\
    Dict.keys (sorted_data st) = Dict.keys sorted0 /\
    subseq (looked_up evs) titles /\
    (forall d, In (EvSave d) evs -> Dict.keys d = Dict.keys sorted0) /\
    (exists d, citations_file w' = Content d /\ Dict.keys d = Dict.keys sorted0) /\
    readme_file w' = readme_file w /\
    (forall c, ~ In (EvWriteReadme c) evs).
Proof.
  intros titles.
  destruct (reorder_run citations_data titles [] w)
    as (sorted0 & Hre & Hkeys & Hget & Hord).
  { intros t Ht. exact (Permutation_in _ (titles_ordered_perm citations_data) Ht). }
  { intros k []. }
  assert (Hkeys' : forall k, In k (Dict.keys sorted0) <-> In k titles).
  { intros k. rewrite Hkeys. simpl. tauto. }
  unfold get_citations_progress. fold titles. unfold bind at 1. rewrite Hre.
  unfold bind at 1. cbn [save_citations].
  set (w1 := log (EvSave sorted0) (with_citations sorted0 w)).
  unfold bind at 1.
  destruct (count_due_run sorted0 titles O w1)
    as (n & w2 & Hcount & Hrd2 & Hcf2 & _ & _ & _ & Htr2).
  { intros t Ht. now apply Hkeys'. }
  rewrite Hcount.
  destruct (update_loop_post titles O (List.length titles)
                             (mk_progress sorted0 [] [] []) w2)
    as (st & w' & evs & Hrun & Htr & Hk & Hsub & Hsave & Hcf & Hrd & Hwr).
  { intros t Ht. now apply Hkeys'. }
  exists sorted0, st, w', evs. split; [exact Hrun|]. split.
  { rewrite Htr, Htr2. unfold w1. simpl. rewrite <- app_assoc. reflexivity. }
  split; [exact Hkeys'|]. split.
  { intros k Hk'. apply Hget. now apply Hkeys'. }
  split.
  { intros Hnd. apply Hord. simpl. now apply titles_ordered_nodup. }
  split; [exact Hk|]. split; [exact Hsub|]. split; [exact Hsave|]. split.
  { destruct Hcf as [[Hcf _]|Hcf].
    - exists sorted0. split; [|reflexivity]. rewrite Hcf, Hcf2. reflexivity.
    - exists (sorted_data st). split; [exact Hcf | exact Hk]. }
  split; [|exact Hwr]. rewrite Hrd, Hrd2. reflexivity.
Qed.

(** The report at the end divides by the number of papers. *)
Lemma titles_ordered_nil citations_data :
  paper_titles_ordered_of citations_data = [] <-> citations_data = [].
Proof.
  pose proof (titles_ordered_perm citations_data) as Hp. split; intros H.
  - rewrite H in Hp. apply Permutation_nil in Hp.
    destruct citations_data; [reflexivity | discriminate].
  - subst. reflexivity.
Qed.

Lemma get_citations_run citations_data w st w' :
  get_citations_progress citations_data w = Some (st, w') ->
  (citations_data <> [] ->
   get_citations citations_data w = Some ((sorted_data st, updated_papers st), w')) /\
  (citations_data = [] -> get_citations citations_data w = None).
Proof.
  intros Hrun. unfold get_citations, bind. rewrite Hrun.
  destruct (paper_titles_ordered_of citations_data) as [|t l] eqn:Et.
  - apply titles_ordered_nil in Et. split; [congruence | reflexivity].
  - split; [reflexivity|]. intros E. apply titles_ordered_nil in E. congruence.
Qed.

(** ** Oldest first *)

(** C6.  For a store with distinct keys, the order in which
    [get_citations] goes through the keys is a permutation of them,
    ascending by [last_updated] (absent: the sentinel), equal timestamps
    keeping their store order.  The passes of the run come to their end:
    the first thing done is to save the store rearranged in that order,
    every later save and the store left on disk have their keys in that
    order, the lookups started are a sub-sequence of it, and of two keys
    looked up the one whose timestamp was strictly smaller when the order
    was computed is looked up first.  For a store that is not empty
    [get_citations] then returns the store and the updated papers; for
    the empty store it does not return, since the report divides by the
    number of papers. *)
Theorem staleness_order (citations_data : store) (w : world) :
  NoDup (Dict.keys citations_data) ->
  let titles := paper_titles_ordered_of citations_data in
  let ts := stamp citations_data in
  Permutation titles (Dict.keys citations_data) /\
  StronglySorted (fun a b => PyStr.le (ts a) (ts b) = true) titles /\
  (forall s, filter (fun t => String.eqb (ts t) s) titles
             = filter (fun t => String.eqb (ts t) s) (Dict.keys citations_data)) /\
  exists sorted0 st w' evs,
    get_citations_progress citations_data w = Some (st, w') /\
    (citations_data <> [] ->
     get_citations citations_data w
     = Some ((sorted_data st, updated_papers st), w')) /\
    (citations_data = [] -> get_citations citations_data w = None) /\
    trace w' = trace w ++ EvSave sorted0 :: evs /\
    Dict.keys sorted0 = titles /\
    (forall k, In k titles -> Dict.get k sorted0 = Dict.get k citations_data) /\
    (forall d, In (EvSave d) evs -> Dict.keys d = titles) /\
    (exists d, citations_file w' = Content d /\ Dict.keys d = titles) /\
    Dict.keys (sorted_data st) = titles /\
    subseq (looked_up evs) titles /\
    (forall a b, In a (looked_up evs) -> In b (looked_up evs) ->
                 PyStr.lt (ts a) (ts b) = true -> before a b (looked_up evs)).
Proof.
  intros Hnd titles ts.
  split; [apply titles_ordered_perm|].
  split; [now apply titles_ordered_sorted|].
  split; [intros s; now apply titles_ordered_stable|].
  destruct (get_citations_progress_post citations_data w)
    as (sorted0 & st & w' & evs & Hrun & Htr & _ & Hget & Hord & Hk & Hsub & Hsave
        & (d & Hcf & Hd) & _).
  specialize (Hord Hnd). fold titles in Hord, Hsub, Hget.
  exists sorted0, st, w', evs. split; [exact Hrun|].
  split; [exact (proj1 (get_citations_run _ _ _ _ Hrun))|].
  split; [exact (proj2 (get_citations_run _ _ _ _ Hrun))|].
  split; [exact Htr|]. split; [exact Hord|]. split; [exact Hget|]. split.
  { intros d0 Hd0. rewrite (Hsave d0 Hd0). exact Hord. }
  split; [exists d; split; [exact Hcf | congruence]|].
  split; [congruence|]. split; [exact Hsub|].
  intros a b Ha Hb Hlt.
  apply (subseq_sorted_before (fun a b => PyStr.le (ts a) (ts b) = true)
                              (looked_up evs) titles).
  - intros x. apply str_le_refl.
  - exact Hsub.
  - now apply titles_ordered_sorted.
  - exact Ha.
  - exact Hb.
  - rewrite (str_lt_not_le _ _ Hlt). discriminate.
Qed.

Lemma staleness_order_witness :
  NoDup (Dict.keys Sample.store_two) /\
  paper_titles_ordered_of Sample.store_two = [Sample.title_b; Sample.title_a] /\
  exists r w',
    get_citations Sample.store_two
                  (Sample.w_lookup Sample.store_two (fun _ => Status429))
    = Some (r, w') /\
    looked_up (trace w') = [Sample.title_b; Sample.title_a].
Proof.
  assert (Hnd : NoDup (Dict.keys Sample.store_two)).
  { repeat constructor; simpl; intuition discriminate. }
  split; [exact Hnd|]. split; [reflexivity|].
  destruct (staleness_order Sample.store_two
              (Sample.w_lookup Sample.store_two (fun _ => Status429)) Hnd)
    as (_ & _ & _ & sorted0 & st & w' & evs & _ & Hrun & _).
  specialize (Hrun ltac:(discriminate)).
  exists (sorted_data st, updated_papers st), w'. split; [exact Hrun|].
  vm_compute in Hrun. injection Hrun as _ _ <-. reflexivity.
Defined.

(** ** Fresh or due *)

Lemma update_loop_step_due title rest index total st w info w1 :
  Dict.get title (sorted_data st) = Some info ->
  is_recently_updated (last_updated_or_default info) w = Some (false, w1) ->
  (forall t, In t rest -> In t (Dict.keys (sorted_data st))) ->
  exists st' w' evs,
    update_loop (title :: rest) index total st w = Some (st', w') /\
    trace w' = trace w ++ EvPaper title :: evs.
Proof.
  intros Hinfo Hrec Hin.
  destruct (is_recently_updated_frame (last_updated_or_default info) w)
    as (recent & w1' & Hrec' & _ & _ & _ & _ & _ & Htr1).
  rewrite Hrec in Hrec'. injection Hrec' as <- <-.
  simpl. rewrite Hinfo. unfold bind at 1. rewrite Hrec. unfold bind at 1.
  destruct (update_paper_citation_post title (sorted_data st) info
                                       default_retry_limit w1 Hinfo)
    as (o & d & evs1 & w2 & Hrun1 & Htr2 & _ & _ & _ & _ & _ & Ho).
  rewrite Hrun1. cbn [fst snd].
  assert (Hkd : Dict.keys d = Dict.keys (sorted_data st)).
  { destruct o as [n|r].
    - destruct Ho as (-> & _). now apply record_citation_keys.
    - now destruct Ho as (-> & _). }
  assert (Hsleep : exists w3 evs3,
             (if (index <? total - 1)%nat then sleep api_delay else ret tt) w2
             = Some (tt, w3) /\ trace w3 = trace w2 ++ evs3).
  { destruct (index <? total - 1)%nat.
    - exists (log (EvSleep api_delay) w2), [EvSleep api_delay]. split; reflexivity.
    - exists w2, []. rewrite app_nil_r. split; reflexivity. }
  destruct Hsleep as (w3 & evs3 & Hrun3 & Htr3).
  unfold bind at 1. rewrite Hrun3.
  destruct (update_loop_post rest (S index) total (note_outcome title o d st) w3)
    as (st' & w' & evs & Hrun & Htr & _).
  { intros t Ht. rewrite note_outcome_data, Hkd. now apply Hin. }
  exists st', w', (evs1 ++ evs3 ++ evs). split; [exact Hrun|].
  rewrite Htr, Htr3, Htr2, Htr1. rewrite <- !app_assoc. reflexivity.
Qed.

(** C7.  [is_recently_updated] returns, and answers that the record is
    fresh exactly when its timestamp parses in the fixed format and the
    clock reading minus the parsed time is strictly less than 24 hours; a
    timestamp that does not parse gives "not fresh".  In the update pass a
    fresh record is passed over, the loop going on with the rest and
    nothing added to the trace, and a record that is not fresh is looked
    up. *)
Theorem fresh_iff_within_window (last_updated_str : string) (w : world) :
  exists recent w',
    is_recently_updated last_updated_str w = Some (recent, w') /\
    trace w' = trace w /\
    (recent = true <->
     exists last_updated,
       DateTime.strptime last_updated_str = Some last_updated /\
       (DateTime.to_us (clock w (clock_reads w)) - DateTime.to_us last_updated
        < DateTime.timedelta_hours 24)%Z) /\
    (DateTime.strptime last_updated_str = None -> recent = false) /\
    (forall title rest index total st info,
        Dict.get title (sorted_data st) = Some info ->
        last_updated_or_default info = last_updated_str ->
        (forall t, In t rest -> In t (Dict.keys (sorted_data st))) ->
        if recent
        then update_loop (title :: rest) index total st w
             = update_loop rest (S index) total
                           (note_recent title last_updated_str st) w'
        else exists st' w'' evs,
            update_loop (title :: rest) index total st w = Some (st', w'') /\
            trace w'' = trace w ++ EvPaper title :: evs).
Proof.
  destruct (is_recently_updated_frame last_updated_str w)
    as (recent & w' & Hrec & _ & _ & _ & _ & _ & Htr).
  exists recent, w'. split; [exact Hrec|]. split; [exact Htr|].
  pose proof Hrec as Hrun. rewrite is_recently_updated_run in Hrun.
  split; [|split].
  - destruct (DateTime.strptime last_updated_str) as [lu|].
    + injection Hrun as <- _. split.
      * intros H. exists lu. split; [reflexivity|]. now apply Z.ltb_lt.
      * intros (lu' & [= <-] & H). now apply Z.ltb_lt.
    + injection Hrun as <- _. split; [discriminate|]. intros (lu & H & _). discriminate.
  - intros Hnone. rewrite Hnone in Hrun. now injection Hrun as <- _.
  - intros title rest index total st info Hinfo <- Hin. destruct recent.
    + simpl. rewrite Hinfo. unfold bind at 1. now rewrite Hrec.
    + exact (update_loop_step_due title rest index total st w info w' Hinfo Hrec Hin).
Qed.

Lemma fresh_iff_within_window_witness :
  Dict.get Sample.title_a Sample.store_fresh
  = Some (Paper.mk Sample.title_a 5 (Some "2024-03-02-11:00:00")) /\
  exists w',
    is_recently_updated "2024-03-02-11:00:00"
      (Sample.w_lookup Sample.store_fresh (fun _ => Status429))
    = Some (true, w') /\
    update_loop [Sample.title_a; Sample.title_b] 0 2
                (mk_progress Sample.store_fresh [] [] [])
                (Sample.w_lookup Sample.store_fresh (fun _ => Status429))
    = update_loop [Sample.title_b] 1 2
                  (note_recent Sample.title_a "2024-03-02-11:00:00"
                               (mk_progress Sample.store_fresh [] [] []))
                  w'.
Proof.
  split; [reflexivity|].
  destruct (fresh_iff_within_window "2024-03-02-11:00:00"
              (Sample.w_lookup Sample.store_fresh (fun _ => Status429)))
    as (recent & w' & Hrec & _ & _ & _ & Hloop).
  specialize (Hloop Sample.title_a [Sample.title_b] 0%nat 2%nat
                    (mk_progress Sample.store_fresh [] [] [])
                    (Paper.mk Sample.title_a 5 (Some "2024-03-02-11:00:00"))
                    eq_refl eq_refl).
  assert (Hin : forall t, In t [Sample.title_b] ->
                          In t (Dict.keys Sample.store_fresh)).
  { intros t [<-|[]]. right. now left. }
  specialize (Hloop Hin).
  assert (Hr : recent = true).
  { vm_compute in Hrec. now injection Hrec as <- _. }
  subst recent. exists w'. split; [exact Hrec | exact Hloop].
Defined.

(** On the boundary: a record updated exactly 24 hours before the clock
    reading is due, one updated a second later is fresh, and a timestamp
    in another format is due. *)
Example fresh_boundary :
  let w := Sample.w_lookup Sample.store_a (fun _ => Status429) in
  (exists w', is_recently_updated "2024-03-01-12:00:00" w = Some (false, w')) /\
  (exists w', is_recently_updated "2024-03-01-12:00:01" w = Some (true, w')) /\
  (exists w', is_recently_updated "05-01-2024-10:00:00" w = Some (false, w')) /\
  (exists w', is_recently_updated "1970-01-01-00:00:00" w = Some (false, w')).
Proof. repeat split; eexists; vm_compute; reflexivity. Qed.

(** ** Bounded retries *)





(** ** Anchors and badges in the document *)

Lemma drop_add a b s : PyStr.drop (a + b) s = PyStr.drop b (PyStr.drop a s).
Proof.
  revert s. induction a as [|a IH]; intros s; [reflexivity|].
  destruct s as [|c s]; simpl.
  - now destruct b.
  - apply IH.
Qed.

Lemma drop_empty n : PyStr.drop n EmptyString = EmptyString.
Proof. now destruct n. Qed.

Lemma prefix_empty_false lit :
  lit <> EmptyString -> String.prefix lit EmptyString = false.
Proof. destruct lit; [congruence | reflexivity]. Qed.

(** Every position [finditer] reports is an occurrence of the literal. *)
Lemma finditer_from_sound lit pos skip s p :
  In p (Re.finditer_from lit pos skip s) ->
  (pos <= p)%nat /\ String.prefix lit (PyStr.drop (p - pos) s) = true.
Proof.
  revert pos skip. induction s as [|c s IH]; intros pos skip;
    cbn [Re.finditer_from]; [intros []|].
  destruct skip as [|k].
  - destruct (String.prefix lit (String c s)) eqn:E.
    + intros [<-|H].
      * split; [lia|]. now rewrite Nat.sub_diag.
      * destruct (IH _ _ H) as [Hle Hp]. split; [lia|].
        replace (p - pos)%nat with (S (p - S pos)) by lia. exact Hp.
    + intros H. destruct (IH _ _ H) as [Hle Hp]. split; [lia|].
      replace (p - pos)%nat with (S (p - S pos)) by lia. exact Hp.
  - intros H. destruct (IH _ _ H) as [Hle Hp]. split; [lia|].
    replace (p - pos)%nat with (S (p - S pos)) by lia. exact Hp.
Qed.

(** It reports none exactly when the literal does not occur. *)
Lemma finditer_from_nil lit pos s :
  lit <> EmptyString ->
  Re.finditer_from lit pos O s = [] <->
  forall j, String.prefix lit (PyStr.drop j s) = false.
Proof.
  intros Hlit. revert pos. induction s as [|c s IH]; intros pos;
    cbn [Re.finditer_from].
  - split; [|reflexivity]. intros _ j. rewrite drop_empty.
    now apply prefix_empty_false.
  - destruct (String.prefix lit (String c s)) eqn:E.
    + split; [discriminate|]. intros H. specialize (H O).
      cbn [PyStr.drop] in H. congruence.
    + rewrite IH. split.
      * intros H [|j]; [exact E | apply H].
      * intros H j. exact (H (S j)).
Qed.

Lemma title_markup_nonempty title : Re.title_markup title <> EmptyString.
Proof. discriminate. Qed.

(** Every occurrence lies within a match that [finditer] reports. *)
Lemma finditer_from_complete lit pos skip s j :
  lit <> EmptyString ->
  (skip <= j)%nat ->
  String.prefix lit (PyStr.drop j s) = true ->
  exists p, In p (Re.finditer_from lit pos skip s) /\
            (p <= pos + j < p + String.length lit)%nat.
Proof.
  intros Hlit.
  assert (Hlen : (1 <= String.length lit)%nat)
    by (destruct lit; [congruence | simpl; lia]).
  revert pos skip j. induction s as [|c s IH]; intros pos skip j Hj Hp.
  - rewrite drop_empty, prefix_empty_false in Hp by exact Hlit. discriminate.
  - cbn [Re.finditer_from]. destruct skip as [|k].
    + destruct (String.prefix lit (String c s)) eqn:E.
      * destruct (Nat.lt_ge_cases j (String.length lit)) as [Hlt|Hge].
        -- exists pos. split; [now left | lia].
        -- destruct j as [|j]; [lia|]. cbn [PyStr.drop] in Hp.
           destruct (IH (S pos) (pred (String.length lit)) j ltac:(lia) Hp)
             as (p & Hin & Hr).
           exists p. split; [now right | lia].
      * destruct j as [|j]; [cbn [PyStr.drop] in Hp; congruence|].
        cbn [PyStr.drop] in Hp.
        destruct (IH (S pos) O j ltac:(lia) Hp) as (p & Hin & Hr).
        exists p. split; [exact Hin | lia].
    + destruct j as [|j]; [lia|]. cbn [PyStr.drop] in Hp.
      destruct (IH (S pos) k j ltac:(lia) Hp) as (p & Hin & Hr).
      exists p. split; [exact Hin | lia].
Qed.

(** The matches reported do not overlap. *)
Lemma finditer_from_spaced lit pos skip s :
  lit <> EmptyString ->
  Forall (fun p => (pos + skip <= p)%nat) (Re.finditer_from lit pos skip s) /\
  StronglySorted (fun a b => (a + String.length lit <= b)%nat)
                 (Re.finditer_from lit pos skip s).
Proof.
  intros Hlit.
  assert (Hlen : (1 <= String.length lit)%nat)
    by (destruct lit; [congruence | simpl; lia]).
  revert pos skip. induction s as [|c s IH]; intros pos skip.
  - split; constructor.
  - cbn [Re.finditer_from]. destruct skip as [|k].
    + destruct (String.prefix lit (String c s)).
      * destruct (IH (S pos) (pred (String.length lit))) as [Hall Hs].
        split.
        -- constructor; [lia|]. eapply Forall_impl; [|exact Hall].
           intros p Hp. simpl in Hp. lia.
        -- constructor; [exact Hs|]. eapply Forall_impl; [|exact Hall].
           intros p Hp. simpl in Hp. lia.
      * destruct (IH (S pos) O) as [Hall Hs]. split; [|exact Hs].
        eapply Forall_impl; [|exact Hall]. intros p Hp. simpl in Hp. lia.
    + destruct (IH (S pos) k) as [Hall Hs]. split; [|exact Hs].
      eapply Forall_impl; [|exact Hall]. intros p Hp. simpl in Hp. lia.
Qed.

(** One match is reported exactly when every occurrence starts within the
    leftmost one. *)
Lemma finditer_title_single title s p :
  Re.finditer_title title s = [p] <->
  String.prefix (Re.title_markup title) (PyStr.drop p s) = true /\
  (forall q, String.prefix (Re.title_markup title) (PyStr.drop q s) = true ->
             (p <= q < p + String.length (Re.title_markup title))%nat).
Proof.
  pose proof (title_markup_nonempty title) as Hlit.
  unfold Re.finditer_title.
  set (lit := Re.title_markup title) in *.
  assert (Hsound : forall x, In x (Re.finditer_from lit 0 0 s) ->
                             String.prefix lit (PyStr.drop x s) = true).
  { intros x Hx. destruct (finditer_from_sound _ _ _ _ _ Hx) as [_ H].
    now rewrite Nat.sub_0_r in H. }
  assert (Hcomp : forall q, String.prefix lit (PyStr.drop q s) = true ->
                            exists x, In x (Re.finditer_from lit 0 0 s) /\
                                      (x <= q < x + String.length lit)%nat).
  { intros q Hq.
    destruct (finditer_from_complete lit 0 0 s q Hlit ltac:(lia) Hq) as (x & Hx & Hr).
    exists x. split; [exact Hx | lia]. }
  destruct (finditer_from_spaced lit 0 0 s Hlit) as [_ Hsp].
  split.
  - intros E. rewrite E in Hsound, Hcomp. split; [apply Hsound; now left|].
    intros q Hq. destruct (Hcomp q Hq) as (x & [<-|[]] & Hr). exact Hr.
  - intros [Hp Hall].
    destruct (Re.finditer_from lit 0 0 s) as [|a l].
    + destruct (Hcomp p Hp) as (x & [] & _).
    + pose proof (Hall a (Hsound a (or_introl eq_refl))) as Ha.
      destruct l as [|b l].
      * destruct (Hcomp p Hp) as (x & [<-|[]] & Hx). f_equal. lia.
      * exfalso. inversion Hsp as [|? ? _ Hfa]. inversion Hfa as [|? ? Hab _].
        pose proof (Hall b (Hsound b (or_intror (or_introl eq_refl)))) as Hb.
        lia.
Qed.

(** Two occurrences that do not overlap give two matches. *)
Lemma finditer_title_two title s p q :
  String.prefix (Re.title_markup title) (PyStr.drop p s) = true ->
  String.prefix (Re.title_markup title) (PyStr.drop q s) = true ->
  (p + String.length (Re.title_markup title) <= q)%nat ->
  (2 <= List.length (Re.finditer_title title s))%nat.
Proof.
  intros Hp Hq Hpq.
  destruct (Re.finditer_title title s) as [|a [|b l]] eqn:E; [| |simpl; lia].
  - exfalso.
    assert (H : forall j, String.prefix (Re.title_markup title) (PyStr.drop j s) = false).
    { apply (finditer_from_nil (Re.title_markup title) 0 s
               (title_markup_nonempty title)). exact E. }
    rewrite H in Hp. discriminate.
  - exfalso. apply finditer_title_single in E. destruct E as [_ Hall].
    pose proof (Hall p Hp). pose proof (Hall q Hq). lia.
Qed.

(** The leftmost badge. *)
Lemma search_badge_some s b e :
  Re.search_badge s = Some (b, e) ->
  (b <= e)%nat /\
  Re.match_badge (PyStr.drop b s) = Some (e - b)%nat /\
  (forall j, (j < b)%nat -> Re.match_badge (PyStr.drop j s) = None).
Proof.
  revert b e. induction s as [|c s IH]; intros b e; cbn [Re.search_badge].
  - destruct (Re.match_badge EmptyString) as [len|] eqn:E; [|discriminate].
    intros [= <- <-]. rewrite Nat.sub_0_r. repeat split; [lia | exact E | lia].
  - destruct (Re.match_badge (String c s)) as [len|] eqn:E.
    + intros [= <- <-]. rewrite Nat.sub_0_r. repeat split; [lia | exact E | lia].
    + destruct (Re.search_badge s) as [[b' e']|]; [|discriminate].
      intros [= <- <-]. destruct (IH b' e' eq_refl) as (Hle & Hm & Hnone).
      split; [lia|]. split; [exact Hm|].
      intros [|j] Hj; [exact E | apply Hnone; lia].
Qed.

Lemma search_badge_none s :
  Re.search_badge s = None -> forall j, Re.match_badge (PyStr.drop j s) = None.
Proof.
  induction s as [|c s IH]; cbn [Re.search_badge].
  - destruct (Re.match_badge EmptyString) eqn:E; [discriminate|].
    intros _ j. now rewrite drop_empty.
  - destruct (Re.match_badge (String c s)) eqn:E; [discriminate|].
    destruct (Re.search_badge s) as [[b e]|]; [discriminate|].
    intros _ [|j]; [exact E | now apply IH].
Qed.

(** ** Patching one record *)

(** C2 as stated fails where the title markup overlaps itself.  In the
    sample line the markup of the title stands at offsets 0 and 11, two
    occurrences, yet the search reports one match, since a regex search
    goes on behind a match, and the record is patched. *)
Lemma overlapping_anchors_patched :
  String.prefix (Re.title_markup Overlap.title) (PyStr.drop 0 (Overlap.text "5")) = true /\
  String.prefix (Re.title_markup Overlap.title) (PyStr.drop 11 (Overlap.text "5")) = true /\
  Re.finditer_title Overlap.title (Overlap.text "5") = [0%nat] /\
  patch_paper Overlap.store (Overlap.text "5", 0%nat, 0%nat) Overlap.title
  = (Overlap.text "12", 1%nat, 0%nat) /\
  Overlap.text "12" <> Overlap.text "5".
Proof.
  repeat split; try (vm_compute; reflexivity). vm_compute. discriminate.
Qed.

(** C2, amended.  In one turn of the patching loop, the positions found
    for the title markup are occurrences of it, no two of them overlap,
    and every occurrence in the text starts within one of them; so none is
    found exactly when the markup does not occur, and exactly one is
    found, at [p], exactly when the markup occurs at [p] and every
    occurrence starts within that one.  When the number found is not one,
    as it is when the markup occurs nowhere or at two places that do not
    overlap, the text is left as it is and an error is counted.  When it
    is one, at [match_pos], the leftmost badge at or after [match_pos] is
    replaced by the badge of the record's citation count and nothing else
    changes; without a badge there the text is left as it is and an error
    is counted.  So the text changes only when exactly one position was
    found. *)
Theorem patch_needs_unique_anchor (citations_data : store) (md_content : string)
        (updated_count error_count : nat) (paper_title : string) :
  let matches := Re.finditer_title paper_title md_content in
  let st' := patch_paper citations_data (md_content, updated_count, error_count)
                         paper_title in
  let occurs pos :=
    String.prefix (Re.title_markup paper_title) (PyStr.drop pos md_content) = true in
  let width := String.length (Re.title_markup paper_title) in
  (forall pos, In pos matches ->
     String.prefix (Re.title_markup paper_title) (PyStr.drop pos md_content) = true) /\
  (matches = [] <->
   forall pos,
     String.prefix (Re.title_markup paper_title) (PyStr.drop pos md_content) = false) /\
  (List.length matches <> 1%nat -> st' = (md_content, updated_count, S error_count)) /\
  (forall match_pos paper_info,
      matches = [match_pos] ->
      Dict.get paper_title citations_data = Some paper_info ->
      match Re.search_badge (PyStr.drop match_pos md_content) with
      | Some (b, e) =>
          st' = ((PyStr.take (match_pos + b) md_content
                  ++ new_badge_of (Paper.citations paper_info)
                  ++ PyStr.drop (match_pos + e) md_content)%string,
                 S updated_count, error_count) /\
          Re.match_badge (PyStr.drop (match_pos + b) md_content) = Some (e - b)%nat /\
          (forall j, (j < b)%nat ->
                     Re.match_badge (PyStr.drop (match_pos + j) md_content) = None)
      | None =>
          st' = (md_content, updated_count, S error_count) /\
          (forall j, Re.match_badge (PyStr.drop (match_pos + j) md_content) = None)
      end) /\
  (fst (fst st') <> md_content -> List.length matches = 1%nat) /\
  StronglySorted (fun a b => (a + width <= b)%nat) matches /\
  (forall pos, occurs pos ->
     exists p, In p matches /\ (p <= pos < p + width)%nat) /\
  (forall p, matches = [p] <->
     occurs p /\ forall q, occurs q -> (p <= q < p + width)%nat) /\
  (forall p q, occurs p -> occurs q -> (p + width <= q)%nat ->
     st' = (md_content, updated_count, S error_count)).
Proof.
  intros matches st' occurs width.
  assert (Hrefuse : List.length matches <> 1%nat ->
                    st' = (md_content, updated_count, S error_count)).
  { intros Hlen. unfold st', patch_paper. fold matches.
    destruct (Dict.get paper_title citations_data); [|reflexivity].
    destruct matches as [|p [|p' l]]; [reflexivity | simpl in Hlen; lia | reflexivity]. }
  split; [|split; [|split; [|split; [|split; [|split; [|split; [|split]]]]]]].
  - intros pos Hin.
    destruct (finditer_from_sound _ _ _ _ _ Hin) as [_ H].
    now rewrite Nat.sub_0_r in H.
  - apply finditer_from_nil, title_markup_nonempty.
  - exact Hrefuse.
  - intros match_pos paper_info Hm Hget. unfold st', patch_paper. fold matches.
    rewrite Hget, Hm.
    destruct (Re.search_badge (PyStr.drop match_pos md_content)) as [[b e]|] eqn:Es.
    + destruct (search_badge_some _ _ _ Es) as (_ & Hb & Hnone).
      rewrite !drop_add. repeat split; auto.
      intros j Hj. rewrite drop_add. now apply Hnone.
    + split; [reflexivity|]. intros j. rewrite drop_add.
      now apply search_badge_none.
  - intros Hchg. destruct (Nat.eq_dec (List.length matches) 1) as [H|H]; [exact H|].
    exfalso. apply Hchg. now rewrite (Hrefuse H).
  - apply (finditer_from_spaced (Re.title_markup paper_title) 0 0 md_content),
      title_markup_nonempty.
  - intros pos Hpos.
    destruct (finditer_from_complete (Re.title_markup paper_title) 0 0 md_content pos
                (title_markup_nonempty paper_title) ltac:(lia) Hpos) as (p & Hp & Hr).
    exists p. split; [exact Hp | exact Hr].
  - intros p. apply finditer_title_single.
  - intros p q Hp Hq Hpq. apply Hrefuse.
    pose proof (finditer_title_two paper_title md_content p q Hp Hq Hpq) as H2.
    fold matches in H2. lia.
Qed.

Lemma patch_needs_unique_anchor_witness :
  (Re.finditer_title Sample.title_a Sample.doc = [9%nat] /\
   Dict.get Sample.title_a Sample.store_counted
   = Some (Paper.mk Sample.title_a 12 (Some "2024-03-02-12:00:00")) /\
   exists b e,
     Re.search_badge (PyStr.drop 9 Sample.doc) = Some (b, e) /\
     patch_paper Sample.store_counted (Sample.doc, 0%nat, 0%nat) Sample.title_a
     = ((PyStr.take (9 + b) Sample.doc ++ Sample.badge "12"
         ++ PyStr.drop (9 + e) Sample.doc)%string, 1%nat, 0%nat)) /\
  (String.prefix (Re.title_markup Sample.title_a) (PyStr.drop 9 Overlap.doc_twice) = true /\
   String.prefix (Re.title_markup Sample.title_a) (PyStr.drop 218 Overlap.doc_twice) = true /\
   patch_paper Sample.store_counted (Overlap.doc_twice, 0%nat, 0%nat) Sample.title_a
   = (Overlap.doc_twice, 0%nat, 1%nat)).
Proof.
  split.
  - split; [reflexivity|]. split; [reflexivity|].
    pose proof (proj1 (proj2 (proj2 (proj2
      (patch_needs_unique_anchor Sample.store_counted Sample.doc 0 0 Sample.title_a))))
      9%nat (Paper.mk Sample.title_a 12 (Some "2024-03-02-12:00:00")) eq_refl eq_refl)
      as H.
    destruct (Re.search_badge (PyStr.drop 9 Sample.doc)) as [[b e]|] eqn:Es.
    + exists b, e. split; [reflexivity | exact (proj1 H)].
    + vm_compute in Es. discriminate Es.
  - assert (H9 : String.prefix (Re.title_markup Sample.title_a)
                   (PyStr.drop 9 Overlap.doc_twice) = true)
      by (vm_compute; reflexivity).
    assert (H218 : String.prefix (Re.title_markup Sample.title_a)
                     (PyStr.drop 218 Overlap.doc_twice) = true)
      by (vm_compute; reflexivity).
    split; [exact H9|]. split; [exact H218|].
    refine (proj2 (proj2 (proj2 (proj2 (proj2 (proj2 (proj2 (proj2
      (patch_needs_unique_anchor Sample.store_counted Overlap.doc_twice 0 0
                                 Sample.title_a)))))))) 9%nat 218%nat H9 H218 _).
    apply Nat.leb_le. vm_compute. reflexivity.
Defined.

(** The sample document with the first badge rewritten. *)
Example patch_sample :
  patch_paper Sample.store_counted (Sample.doc, 0%nat, 0%nat) Sample.title_a
  = (("# Papers" ++ String "010" "" ++ Sample.line Sample.title_a "12"
      ++ Sample.line Sample.title_b "7")%string, 1%nat, 0%nat).
Proof. reflexivity. Qed.

(** ** The integrity gate *)

(** C1.  [update_readme_citations] returns, and leaves the world either
    as it was or with the document overwritten by the patched text.  With
    [original_content] the document read and [md_content] the text after
    the replacements for the updated records: when stripping every badge
    from the two gives different remainders, nothing is written, the
    world is as it was and the result is [False]; the world changes only
    when the remainders are equal, and then by one write of [md_content];
    and with records to patch and equal remainders that write happens.
    A document that cannot be read is not written either. *)
Theorem integrity_gate (citations_data : store) (updated_papers_list : list Updated.t)
        (w : world) :
  exists ok w',
    update_readme_citations citations_data updated_papers_list w = Some (ok, w') /\
    (forall original_content,
        readme_file w = Content original_content ->
        let md_content :=
          fst (fst (patch_all citations_data (map Updated.title updated_papers_list)
                              original_content)) in
        (Re.sub_badge original_content <> Re.sub_badge md_content ->
         ok = false /\ w' = w) /\
        (w' <> w ->
         Re.sub_badge original_content = Re.sub_badge md_content /\
         w' = log (EvWriteReadme md_content) (with_readme md_content w)) /\
        (updated_papers_list <> [] ->
         Re.sub_badge original_content = Re.sub_badge md_content ->
         ok = true /\
         w' = log (EvWriteReadme md_content) (with_readme md_content w))) /\
    ((forall c, readme_file w <> Content c) -> w' = w).
Proof.
  unfold update_readme_citations.
  destruct updated_papers_list as [|u l].
  - exists true, w. split; [reflexivity|]. split; [|reflexivity].
    intros original_content Hr. cbv zeta. simpl.
    repeat split; congruence.
  - unfold bind, read_readme. destruct (readme_file w) as [| |c] eqn:Er.
    + exists false, w. split; [reflexivity|]. split; [|reflexivity].
      intros original_content Hr. discriminate.
    + exists false, w. split; [reflexivity|]. split; [|reflexivity].
      intros original_content Hr. discriminate.
    + destruct (patch_all citations_data (map Updated.title (u :: l)) c)
        as [[md uc] ec] eqn:Ep.
      destruct (String.eqb_spec (Re.sub_badge c) (Re.sub_badge md)) as [Heq|Hne].
      * exists true, (log (EvWriteReadme md) (with_readme md w)).
        split; [reflexivity|]. split.
        -- intros original_content [= <-]. cbv zeta.
           rewrite Ep. simpl. repeat split; auto; contradiction.
        -- intros H. exfalso. exact (H c eq_refl).
      * exists false, w. split; [reflexivity|]. split.
        -- intros original_content [= <-]. cbv zeta.
           rewrite Ep. simpl. repeat split; congruence.
        -- reflexivity.
Qed.

Lemma integrity_gate_witness :
  readme_file (Sample.w_lookup Sample.store_negative (fun _ => Status429))
  = Content Sample.doc /\
  Re.sub_badge Sample.doc
  <> Re.sub_badge (fst (fst (patch_all Sample.store_negative [Sample.title_a]
                                       Sample.doc))) /\
  update_readme_citations Sample.store_negative [Sample.updated_a]
    (Sample.w_lookup Sample.store_negative (fun _ => Status429))
  = Some (false, Sample.w_lookup Sample.store_negative (fun _ => Status429)).
Proof.
  split; [reflexivity|].
  assert (Hne : Re.sub_badge Sample.doc
                <> Re.sub_badge (fst (fst (patch_all Sample.store_negative
                                                     [Sample.title_a] Sample.doc)))).
  { vm_compute. discriminate. }
  split; [exact Hne|].
  destruct (integrity_gate Sample.store_negative [Sample.updated_a]
              (Sample.w_lookup Sample.store_negative (fun _ => Status429)))
    as (ok & w' & Hrun & Hgate & _).
  destruct (Hgate Sample.doc eq_refl) as (Hrej & _).
  destruct (Hrej Hne) as [-> ->]. exact Hrun.
Defined.

(** The gate lets the sample patch through. *)
Example gate_passes :
  exists w',
    update_readme_citations Sample.store_counted [Sample.updated_a]
      (Sample.w_lookup Sample.store_counted (fun _ => Status429))
    = Some (true, w') /\
    readme_file w'
    = Content ("# Papers" ++ String "010" "" ++ Sample.line Sample.title_a "12"
               ++ Sample.line Sample.title_b "7")%string.
Proof. eexists. split; vm_compute; reflexivity. Qed.

(** * Further properties of the code *)

(** ** The order and the content of the reconciled store *)

Lemma existsb_eqb_in x l : existsb (String.eqb x) l = true <-> In x l.
Proof.
  rewrite existsb_exists. split.
  - intros (y & Hy & E). apply String.eqb_eq in E. now subst.
  - intros H. exists x. split; [exact H | apply String.eqb_refl].
Qed.

Lemma first_occurrences_ext seen1 seen2 l :
  (forall x, In x seen1 <-> In x seen2) ->
  first_occurrences seen1 l = first_occurrences seen2 l.
Proof.
  revert seen1 seen2. induction l as [|x r IH]; intros seen1 seen2 H; [reflexivity|].
  simpl.
  assert (E : existsb (String.eqb x) seen1 = existsb (String.eqb x) seen2).
  { apply eq_true_iff_eq. rewrite !existsb_eqb_in. apply H. }
  rewrite E. destruct (existsb (String.eqb x) seen2).
  - now apply IH.
  - f_equal. apply IH. intros y. simpl. rewrite H. tauto.
Qed.

Lemma first_occurrences_nodup seen l :
  NoDup l -> (forall x, In x l -> ~ In x seen) -> first_occurrences seen l = l.
Proof.
  revert seen. induction l as [|x r IH]; intros seen Hnd Hout; [reflexivity|].
  simpl. inversion Hnd as [|? ? Hx Hr]; subst.
  destruct (existsb (String.eqb x) seen) eqn:E.
  - apply existsb_eqb_in in E. exfalso. apply (Hout x); [now left | exact E].
  - f_equal. apply IH; [exact Hr|].
    intros y Hy [<-|Hs]; [contradiction|]. apply (Hout y); [now right | exact Hs].
Qed.

Lemma sync_fold_key_order citations_data md_titles acc :
  Dict.keys (fold_left (sync_step citations_data) md_titles acc)
  = Dict.keys acc ++ first_occurrences (Dict.keys acc) md_titles.
Proof.
  revert acc. induction md_titles as [|x r IH]; intros acc; simpl.
  - now rewrite app_nil_r.
  - rewrite IH, sync_step_set.
    destruct (existsb (String.eqb x) (Dict.keys acc)) eqn:E.
    + apply existsb_eqb_in in E. rewrite keys_set_present by assumption. reflexivity.
    + assert (Hx : ~ In x (Dict.keys acc)).
      { intros H. apply existsb_eqb_in in H. congruence. }
      rewrite keys_set_fresh by assumption. rewrite <- app_assoc. simpl.
      do 2 f_equal. apply first_occurrences_ext.
      intros y. rewrite in_app_iff. simpl. tauto.
Qed.

(** X1.  The store that [sync_papers] builds and saves lists its keys in
    the order in which the titles first occur in the document, whatever
    the order of the old store; when the extracted titles are distinct
    the keys are the extracted titles as they come. *)
Theorem sync_follows_document_order (w : world) (content : string) (old : store) :
  readme_file w = Content content ->
  load_citations w = Some (old, w) ->
  exists new w',
    sync_papers w = Some (new, w') /\
    citations_file w' = Content new /\
    Dict.keys new = first_occurrences [] (paper_titles_of content) /\
    (NoDup (paper_titles_of content) -> Dict.keys new = paper_titles_of content).
Proof.
  intros Hr Hl. do 2 eexists. split; [exact (sync_papers_run w content old Hr Hl)|].
  split; [reflexivity|].
  assert (Hk : Dict.keys (sync_loop old (paper_titles_of content))
               = first_occurrences [] (paper_titles_of content)).
  { unfold sync_loop. now rewrite sync_fold_key_order. }
  split; [exact Hk|]. intros Hnd. rewrite Hk.
  apply first_occurrences_nodup; [exact Hnd | intros x _ []].
Qed.

Lemma sync_follows_document_order_witness :
  readme_file Sample.w_hand_edited = Content Sample.doc /\
  load_citations Sample.w_hand_edited = Some (Sample.hand_edited, Sample.w_hand_edited) /\
  exists new w',
    sync_papers Sample.w_hand_edited = Some (new, w') /\
    Dict.keys new = [Sample.title_a; Sample.title_b].
Proof.
  split; [reflexivity|]. split; [reflexivity|].
  destruct (sync_follows_document_order Sample.w_hand_edited Sample.doc
              Sample.hand_edited eq_refl eq_refl)
    as (new & w' & Hrun & _ & Hk & _).
  exists new, w'. split; [exact Hrun | exact Hk].
Defined.

Lemma removed_papers_in citations_data md_titles k :
  In k (removed_papers citations_data md_titles)
  <-> In k (Dict.keys citations_data) /\ ~ In k md_titles.
Proof.
  unfold removed_papers. rewrite filter_In, negb_true_iff.
  split; intros [H1 H2]; (split; [exact H1|]).
  - intros Hin. apply existsb_eqb_in in Hin. congruence.
  - destruct (existsb (String.eqb k) md_titles) eqn:E; [|reflexivity].
    apply existsb_eqb_in in E. contradiction.
Qed.

(** X2.  A key of the old store whose title is no longer extracted from
    the document has no entry in the store that [sync_papers] saves,
    whatever citation data it held; the keys reported as removed are
    exactly the old keys that are gone; and no other key has an entry
    but the extracted titles. *)
Theorem sync_drops_orphans (w : world) (content : string) (old : store) :
  readme_file w = Content content ->
  load_citations w = Some (old, w) ->
  exists new w',
    sync_papers w = Some (new, w') /\
    citations_file w' = Content new /\
    (forall k, In k (removed_papers old (paper_titles_of content))
               <-> In k (Dict.keys old) /\ Dict.get k new = None) /\
    (forall k, ~ In k (paper_titles_of content) -> Dict.get k new = None).
Proof.
  intros Hr Hl. do 2 eexists. split; [exact (sync_papers_run w content old Hr Hl)|].
  split; [reflexivity|].
  assert (Hnone : forall k, Dict.get k (sync_loop old (paper_titles_of content)) = None
                            <-> ~ In k (paper_titles_of content)).
  { intros k. rewrite get_none_not_in_keys, sync_loop_keys. reflexivity. }
  split.
  - intros k. rewrite removed_papers_in, Hnone. reflexivity.
  - intros k Hk. now apply Hnone.
Qed.

Lemma sync_drops_orphans_witness :
  readme_file (Sample.world_of (Content "no entries here") (Content Sample.store_two)
                               (fun _ => Status429))
  = Content "no entries here" /\
  exists w',
    sync_papers (Sample.world_of (Content "no entries here") (Content Sample.store_two)
                                 (fun _ => Status429))
    = Some ([], w') /\
    removed_papers Sample.store_two (paper_titles_of "no entries here")
    = [Sample.title_a; Sample.title_b].
Proof.
  split; [reflexivity|].
  destruct (sync_drops_orphans
              (Sample.world_of (Content "no entries here") (Content Sample.store_two)
                               (fun _ => Status429))
              "no entries here" Sample.store_two eq_refl eq_refl)
    as (new & w' & Hrun & _).
  exists w'. split; [|reflexivity].
  rewrite Hrun. vm_compute in Hrun. injection Hrun as <- _. reflexivity.
Defined.

(** ** The whole run *)

Lemma file_eq_unreadable {A : Type} (f : file A) : f = Unreadable \/ f <> Unreadable.
Proof. destruct f; [right; discriminate | now left | right; discriminate]. Qed.

Lemma load_citations_readable w :
  citations_file w <> Unreadable ->
  exists old, load_citations w = Some (old, w).
Proof.
  unfold load_citations. destruct (citations_file w); [eauto | congruence | eauto].
Qed.

Lemma sync_papers_exits w :
  sync_papers w = None
  <-> (forall c, readme_file w <> Content c) \/ citations_file w = Unreadable.
Proof.
  split.
  - intros Hnone. destruct (readme_file w) as [| |c] eqn:Er;
      [left; discriminate | left; discriminate |].
    destruct (file_eq_unreadable (citations_file w)) as [Hu|Hu]; [now right|].
    destruct (load_citations_readable w Hu) as [old Hl].
    rewrite (sync_papers_run w c old Er Hl) in Hnone. discriminate.
  - unfold sync_papers, bind, extract_titles_from_md, bind, read_readme.
    intros [H|H].
    + destruct (readme_file w) as [| |c]; try reflexivity. now destruct (H c).
    + destruct (readme_file w) as [| |c]; try reflexivity.
      unfold ret, load_citations. now rewrite H.
Qed.

Lemma update_readme_citations_world citations_data updated_papers_list w :
  exists ok w',
    update_readme_citations citations_data updated_papers_list w = Some (ok, w') /\
    (w' = w \/
     exists md_content,
       ok = true /\ w' = log (EvWriteReadme md_content) (with_readme md_content w)).
Proof.
  unfold update_readme_citations. destruct updated_papers_list as [|u l].
  - exists true, w. split; [reflexivity | now left].
  - unfold bind, read_readme. destruct (readme_file w) as [| |c].
    + exists false, w. split; [reflexivity | now left].
    + exists false, w. split; [reflexivity | now left].
    + destruct (patch_all citations_data (map Updated.title (u :: l)) c)
        as [[md uc] ec].
      destruct (String.eqb (Re.sub_badge c) (Re.sub_badge md)).
      * exists true, (log (EvWriteReadme md) (with_readme md w)).
        split; [reflexivity|]. right. now exists md.
      * exists false, w. split; [reflexivity | now left].
Qed.

Lemma load_citations_tick w old :
  load_citations w = Some (old, w) -> load_citations (tick w) = Some (old, tick w).
Proof.
  unfold load_citations. cbn [citations_file tick].
  destruct (citations_file w); intros [= <-]; reflexivity || discriminate.
Qed.

Lemma sync_loop_nil old md_titles :
  sync_loop old md_titles = [] <-> md_titles = [].
Proof.
  split; intros H; [|subst; reflexivity].
  destruct md_titles as [|t l]; [reflexivity|].
  assert (Hin : In t (Dict.keys (sync_loop old (t :: l))))
    by (apply sync_loop_keys; now left).
  rewrite H in Hin. contradiction.
Qed.

Lemma store_nil_or (d : store) : d = [] \/ d <> [].
Proof. destruct d; [now left | right; discriminate]. Qed.

(** The run as far as the last step: the clock is read, the store is
    reconciled and taken through the passes of [get_citations]; a store
    without papers ends the run there. *)
Lemma run_workflow_steps w c old :
  readme_file w = Content c ->
  load_citations w = Some (old, w) ->
  exists new st w2 sorted0 evs,
    new = sync_loop old (paper_titles_of c) /\
    get_citations_progress new
      (log (EvSave new) (with_citations new (tick (tick w)))) = Some (st, w2) /\
    (new = [] -> run_workflow w = None) /\
    (new <> [] ->
     run_workflow w
     = match update_readme_citations (sorted_data st) (updated_papers st) w2 with
       | Some (ok, w3) => Some (ok, tick w3)
       | None => None
       end) /\
    trace w2 = trace w ++ EvSave new :: EvSave sorted0 :: evs /\
    readme_file w2 = Content c /\
    (forall x, ~ In (EvWriteReadme x) evs).
Proof.
  intros Hr Hl.
  set (new := sync_loop old (paper_titles_of c)).
  set (w1 := log (EvSave new) (with_citations new (tick (tick w)))).
  destruct (get_citations_progress_post new w1)
    as (sorted0 & st & w2 & evs & Hrun & Htr & _ & _ & _ & _ & _ & _ & _ & Hrd & Hwr).
  assert (Hsync : sync_papers (tick w) = Some (new, w1)).
  { apply sync_papers_run; [exact Hr | now apply load_citations_tick]. }
  assert (Hstart : run_workflow w
                   = match get_citations new w1 with
                     | Some ((updated_data, updated_papers_list), w2) =>
                         match update_readme_citations updated_data updated_papers_list w2
                         with
                         | Some (ok, w3) => Some (ok, tick w3)
                         | None => None
                         end
                     | None => None
                     end).
  { unfold run_workflow, bind at 1. unfold now at 1. unfold bind at 1.
    rewrite Hsync. unfold bind at 1.
    destruct (get_citations new w1) as [[[ud ul] w3]|]; [|reflexivity].
    unfold bind at 1.
    destruct (update_readme_citations ud ul w3) as [[ok w4]|]; reflexivity. }
  destruct (get_citations_run new w1 st w2 Hrun) as [Hsome Hnone].
  exists new, st, w2, sorted0, evs. split; [reflexivity|]. split; [exact Hrun|].
  split; [intros E; now rewrite Hstart, (Hnone E)|].
  split; [intros E; now rewrite Hstart, (Hsome E)|].
  split.
  { rewrite Htr. unfold w1. simpl. rewrite <- app_assoc. reflexivity. }
  split; [rewrite Hrd; exact Hr | exact Hwr].
Qed.

(** X3.  [run_workflow] ends in an exit, whatever the service answers,
    when the document is missing or cannot be read, when
    [citations.json] is there but cannot be read, and also when the
    document can be read but no title is extracted from it: the store is
    then empty, and the report of [get_citations] divides by the number
    of its papers. *)
Theorem run_workflow_exits_when (w : world) :
  (forall c, readme_file w <> Content c) \/
  citations_file w = Unreadable \/
  (exists c, readme_file w = Content c /\ paper_titles_of c = []) ->
  run_workflow w = None.
Proof.
  intros H.
  assert (Hsync : sync_papers (tick w) = None -> run_workflow w = None).
  { intros E. unfold run_workflow, bind at 1. unfold now at 1. unfold bind at 1.
    now rewrite E. }
  destruct H as [H|[H|(c & Hr & Ht)]].
  - apply Hsync, sync_papers_exits. now left.
  - apply Hsync, sync_papers_exits. now right.
  - destruct (file_eq_unreadable (citations_file w)) as [Hu|Hu].
    + apply Hsync, sync_papers_exits. now right.
    + destruct (load_citations_readable w Hu) as [old Hl].
      destruct (run_workflow_steps w c old Hr Hl)
        as (new & st & w2 & sorted0 & evs & Hnew & _ & Hnone & _).
      apply Hnone. rewrite Hnew. now apply sync_loop_nil.
Qed.

Lemma run_workflow_exits_when_witness :
  run_workflow (Sample.world_of (Content ("# Papers" ++ String "010" "")%string) Absent
                                (fun _ => Status429)) = None.
Proof.
  apply run_workflow_exits_when. right. right.
  exists ("# Papers" ++ String "010" "")%string. split; vm_compute; reflexivity.
Defined.

(** X4.  In a run of [run_workflow] that returns, the document is written
    at most once, and then as the very last thing the run does: every
    save of the store and every request comes before it.  Until that
    write the document holds what it held at the start. *)
Theorem document_written_last (w w' : world) (ok : bool) :
  run_workflow w = Some (ok, w') ->
  exists evs,
    (forall x, ~ In (EvWriteReadme x) evs) /\
    ((trace w' = trace w ++ evs /\ readme_file w' = readme_file w) \/
     (exists md_content,
         ok = true /\
         trace w' = trace w ++ evs ++ [EvWriteReadme md_content] /\
         readme_file w' = Content md_content)).
Proof.
  intros Hrun.
  assert (Hsome : sync_papers (tick w) <> None).
  { intros E. unfold run_workflow, bind at 1 in Hrun. unfold now at 1 in Hrun.
    unfold bind at 1 in Hrun. rewrite E in Hrun. discriminate. }
  rewrite sync_papers_exits in Hsome. cbn [readme_file citations_file tick] in Hsome.
  destruct (readme_file w) as [| |c] eqn:Er;
    try (exfalso; apply Hsome; left; discriminate).
  destruct (file_eq_unreadable (citations_file w)) as [Hu|Hu];
    [exfalso; apply Hsome; now right|].
  destruct (load_citations_readable w Hu) as [old Hl].
  destruct (run_workflow_steps w c old Er Hl)
    as (new & st & w2 & sorted0 & evs & _ & _ & Hnone & Hsteps & Htr & Hrd & Hwr).
  destruct (store_nil_or new) as [E|E];
    [rewrite (Hnone E) in Hrun; discriminate|].
  destruct (update_readme_citations_world (sorted_data st) (updated_papers st) w2)
    as (ok' & w3 & Hupd & Hw3).
  rewrite (Hsteps E), Hupd in Hrun. injection Hrun as <- <-.
  exists (EvSave new :: EvSave sorted0 :: evs). split.
  { intros x [H|[H|H]]; try discriminate. now apply (Hwr x). }
  cbn [trace readme_file tick].
  destruct Hw3 as [->|(md & -> & ->)].
  - left. split; [exact Htr | exact Hrd].
  - right. exists md. split; [reflexivity|]. split; [|reflexivity].
    simpl. rewrite Htr. rewrite <- app_assoc. reflexivity.
Qed.

Lemma document_written_last_witness :
  exists w' evs md_content,
    run_workflow Run.w_ok = Some (true, w') /\
    trace w' = evs ++ [EvWriteReadme md_content] /\
    (forall x, ~ In (EvWriteReadme x) evs).
Proof.
  destruct (run_workflow Run.w_ok) as [[ok w']|] eqn:Hrun;
    [|vm_compute in Hrun; discriminate Hrun].
  destruct (document_written_last Run.w_ok w' ok Hrun) as (evs & Hno & Hcase).
  assert (Hok : ok = true /\ exists md, last (trace w') (EvSleep 0) = EvWriteReadme md).
  { vm_compute in Hrun. injection Hrun as <- <-. split; [reflexivity|].
    eexists. vm_compute. reflexivity. }
  destruct Hok as [-> (md0 & Hlast)].
  destruct Hcase as [[Htr _]|(md & _ & Htr & _)].
  - exfalso. simpl in Htr. rewrite Htr in Hlast.
    destruct evs as [|e evs] using rev_ind.
    + discriminate Hlast.
    + rewrite last_last in Hlast. apply (Hno md0). rewrite Hlast.
      apply in_or_app. right. now left.
  - exists w', evs, md. split; [reflexivity|]. split; [exact Htr | exact Hno].
Defined.

(** ** Invariants of the update pass *)

Section LoopInvariant.
Variable total : nat.
Variable Inv : list string -> nat -> progress -> world -> Prop.

Hypothesis Inv_recent :
  forall title rest index st w info w1,
    Inv (title :: rest) index st w ->
    Dict.get title (sorted_data st) = Some info ->
    is_recently_updated (last_updated_or_default info) w = Some (true, w1) ->
    Inv rest (S index) (note_recent title (last_updated_or_default info) st) w1.

Hypothesis Inv_lookup :
  forall title rest index st w info w1 o d w2,
    Inv (title :: rest) index st w ->
    Dict.get title (sorted_data st) = Some info ->
    is_recently_updated (last_updated_or_default info) w = Some (false, w1) ->
    update_paper_citation title (sorted_data st) default_retry_limit w1
    = Some ((o, d), w2) ->
    Inv rest (S index) (note_outcome title o d st)
        (if (index <? total - 1)%nat then log (EvSleep api_delay) w2 else w2).

Lemma update_loop_invariant titles index st w st' w' :
  update_loop titles index total st w = Some (st', w') ->
  Inv titles index st w ->
  Inv [] (index + List.length titles)%nat st' w'.
Proof.
  revert index st w. induction titles as [|title rest IH]; intros index st w Hrun HI.
  - simpl in Hrun. injection Hrun as <- <-. now rewrite Nat.add_0_r.
  - cbn [update_loop] in Hrun.
    destruct (Dict.get title (sorted_data st)) as [info|] eqn:Hinfo; [|discriminate].
    unfold bind at 1 in Hrun.
    destruct (is_recently_updated (last_updated_or_default info) w)
      as [[recent w1]|] eqn:Hrec; [|discriminate].
    replace (index + List.length (title :: rest))%nat
      with (S index + List.length rest)%nat by (simpl; lia).
    destruct recent.
    + apply (IH _ _ _ Hrun). eapply Inv_recent; eassumption.
    + unfold bind at 1 in Hrun.
      destruct (update_paper_citation title (sorted_data st) default_retry_limit w1)
        as [[[o d] w2]|] eqn:Hlook; [|discriminate].
      cbn [fst snd] in Hrun. unfold bind at 1 in Hrun.
      pose proof (Inv_lookup title rest index st w info w1 o d w2 HI Hinfo Hrec Hlook)
        as HI'.
      destruct (index <? total - 1)%nat; apply (IH _ _ _ Hrun); exact HI'.
Qed.

End LoopInvariant.

(** [get_citations] up to the start of the update pass. *)
Lemma get_citations_progress_unfold citations_data w :
  let titles := paper_titles_ordered_of citations_data in
  exists sorted0 w2,
    get_citations_progress citations_data w
    = update_loop titles O (List.length titles) (mk_progress sorted0 [] [] []) w2 /\
    same_but_clock_reads (log (EvSave sorted0) (with_citations sorted0 w)) w2 /\
    (forall k, In k (Dict.keys sorted0) <-> In k (Dict.keys citations_data)) /\
    (forall k, Dict.get k sorted0 = Dict.get k citations_data).
Proof.
  intros titles.
  destruct (reorder_run citations_data titles [] w)
    as (sorted0 & Hre & Hkeys & Hget & _).
  { intros t Ht. exact (Permutation_in _ (titles_ordered_perm citations_data) Ht). }
  { intros k []. }
  assert (Hk : forall k, In k (Dict.keys sorted0) <-> In k (Dict.keys citations_data)).
  { intros k. rewrite Hkeys. simpl. split.
    - intros [[]|H]. exact (Permutation_in _ (titles_ordered_perm citations_data) H).
    - intros H. right.
      exact (Permutation_in _ (Permutation_sym (titles_ordered_perm citations_data)) H). }
  destruct (count_due_run sorted0 titles O
                          (log (EvSave sorted0) (with_citations sorted0 w)))
    as (n & w2 & Hcount & Hframe).
  { intros t Ht. apply Hk.
    exact (Permutation_in _ (titles_ordered_perm citations_data) Ht). }
  exists sorted0, w2. split.
  { unfold get_citations_progress. fold titles. unfold bind at 1. rewrite Hre.
    unfold bind at 1. cbn [save_citations]. unfold bind at 1. now rewrite Hcount. }
  split; [exact Hframe|]. split; [exact Hk|].
  intros k. destruct (in_dec string_dec k (Dict.keys sorted0)) as [Hin|Hin].
  - now apply Hget.
  - rewrite (proj2 (get_none_not_in_keys k sorted0) Hin). symmetry.
    apply get_none_not_in_keys. now rewrite <- Hk.
Qed.

(** ** What the update pass reports *)

Lemma reported_note_recent title last_updated st :
  Permutation (reported (note_recent title last_updated st)) (reported st ++ [title]).
Proof.
  unfold reported, note_recent. simpl. rewrite map_app. simpl.
  rewrite !app_assoc. reflexivity.
Qed.

Lemma reported_note_outcome title o d st :
  (forall n, o = Updated_to n -> Dict.get title d <> None) ->
  Permutation (reported (note_outcome title o d st)) (reported st ++ [title]).
Proof.
  intros Hget. unfold reported. destruct o as [n|r]; simpl.
  - destruct (Dict.get title d) as [p|] eqn:E; [|now destruct (Hget n eq_refl)].
    simpl. rewrite map_app. simpl.
    rewrite <- !app_assoc. apply Permutation_app_head.
    rewrite (app_assoc (map fst (skipped_papers st))).
    apply Permutation_app_comm.
  - rewrite map_app. simpl. rewrite <- !app_assoc. apply Permutation_app_head.
    apply Permutation_app_head. apply Permutation_app_comm.
Qed.

(** After a lookup that succeeded the key holds the count it returned. *)
Lemma lookup_success_stored title paper_data info w n d w' :
  Dict.get title paper_data = Some info ->
  update_paper_citation title paper_data default_retry_limit w
  = Some ((Updated_to n, d), w') ->
  exists ts, Dict.get title d = Some (Paper.mk (Paper.title info) n (Some ts)).
Proof.
  intros Hinfo Hrun.
  destruct (update_paper_citation_post title paper_data info default_retry_limit w Hinfo)
    as (o & d' & evs & w2 & Hrun' & _ & _ & _ & _ & _ & _ & Ho).
  rewrite Hrun in Hrun'. injection Hrun' as <- <- <-.
  destruct Ho as (-> & _). eexists. apply record_citation_get.
Qed.

(** X5.  When [get_citations] is through, every key of the store has been
    reported exactly once: as updated, as failed with its reason, or as
    skipped because it was updated within the last 24 hours. *)
Theorem every_paper_reported_once (citations_data : store) (w w' : world)
        (st : progress) :
  get_citations_progress citations_data w = Some (st, w') ->
  Permutation (reported st) (Dict.keys citations_data) /\
  (List.length (updated_papers st) + List.length (skipped_papers st)
   + List.length (skipped_recent st) = List.length citations_data)%nat.
Proof.
  intros Hrun.
  assert (Hperm : Permutation (reported st) (Dict.keys citations_data)).
  { destruct (get_citations_progress_unfold citations_data w)
      as (sorted0 & w2 & Hunf & _).
    rewrite Hunf in Hrun.
    set (titles := paper_titles_ordered_of citations_data) in *.
    pose proof (update_loop_invariant (List.length titles)
                  (fun rest _ st _ => Permutation (reported st ++ rest) titles)) as Hinv.
    rewrite <- (titles_ordered_perm citations_data). fold titles.
    rewrite <- (app_nil_r (reported st)).
    apply (Hinv) with (titles := titles) (index := O) (st := mk_progress sorted0 [] [] [])
                      (w := w2) (w' := w').
    - intros title rest index st0 w0 info w1 HI _ _.
      rewrite reported_note_recent, <- app_assoc. exact HI.
    - intros title rest index st0 w0 info w1 o d w3 HI Hinfo _ Hlook.
      rewrite reported_note_outcome, <- app_assoc; [exact HI|].
      intros n ->. destruct (lookup_success_stored _ _ _ _ _ _ _ Hinfo Hlook) as [ts E].
      congruence.
    - exact Hrun.
    - reflexivity. }
  split; [exact Hperm|].
  apply Permutation_length in Hperm. unfold reported, Dict.keys in Hperm.
  rewrite !length_app, !length_map in Hperm. lia.
Qed.

Lemma every_paper_reported_once_witness :
  exists st w',
    get_citations_progress Sample.store_fresh
      (Sample.w_lookup Sample.store_fresh Run.answers) = Some (st, w') /\
    reported st = [Sample.title_b; Sample.title_a] /\
    map Updated.title (updated_papers st) = [Sample.title_b] /\
    map fst (skipped_recent st) = [Sample.title_a].
Proof.
  destruct (get_citations_progress Sample.store_fresh
              (Sample.w_lookup Sample.store_fresh Run.answers))
    as [[st w']|] eqn:Hrun; [|vm_compute in Hrun; discriminate Hrun].
  pose proof (every_paper_reported_once _ _ _ _ Hrun) as [_ Hlen].
  exists st, w'. split; [reflexivity|].
  vm_compute in Hrun. injection Hrun as <- _. repeat split.
Defined.

(** X6.  Every entry of [updated_papers] carries an [old] count of zero
    and a [change] equal to the [new] count, whatever the record held
    before: the source takes the difference after it has stored the new
    count. *)
Theorem updated_report_old_is_zero (citations_data : store) (w w' : world)
        (st : progress) :
  get_citations_progress citations_data w = Some (st, w') ->
  forall u, In u (updated_papers st) ->
            Updated.old u = 0%Z /\ Updated.change u = Updated.new u.
Proof.
  intros Hrun.
  destruct (get_citations_progress_unfold citations_data w)
    as (sorted0 & w2 & Hunf & _).
  rewrite Hunf in Hrun.
  pose proof (update_loop_invariant
                (List.length (paper_titles_ordered_of citations_data))
                (fun _ _ st _ =>
                   forall u, In u (updated_papers st) ->
                             Updated.old u = 0%Z /\ Updated.change u = Updated.new u))
    as Hinv.
  apply Hinv with (titles := paper_titles_ordered_of citations_data) (index := O)
                  (st := mk_progress sorted0 [] [] []) (w := w2) (w' := w').
  - intros title rest index st0 w0 info w1 HI _ _. exact HI.
  - intros title rest index st0 w0 info w1 o d w3 HI Hinfo _ Hlook u.
    destruct o as [n|r]; simpl; [|apply HI].
    destruct (lookup_success_stored _ _ _ _ _ _ _ Hinfo Hlook) as [ts E].
    rewrite E. simpl. rewrite in_app_iff. intros [Hu|[<-|[]]]; [now apply HI|].
    simpl. split; lia.
  - exact Hrun.
  - intros u [].
Qed.

Lemma updated_report_old_is_zero_witness :
  exists st w' u,
    get_citations_progress Sample.store_a
      (Sample.w_lookup Sample.store_a (fun _ => Json (Some [Sample.with_count])))
    = Some (st, w') /\
    updated_papers st = [u] /\
    Dict.get Sample.title_a Sample.store_a
    = Some (Paper.mk Sample.title_a 5 (Some "2024-02-27-08:30:00")) /\
    Updated.new u = 12%Z /\ Updated.old u = 0%Z.
Proof.
  destruct (get_citations_progress Sample.store_a
              (Sample.w_lookup Sample.store_a (fun _ => Json (Some [Sample.with_count]))))
    as [[st w']|] eqn:Hrun; [|vm_compute in Hrun; discriminate Hrun].
  pose proof (updated_report_old_is_zero _ _ _ _ Hrun) as Hzero.
  assert (Hu : exists u, updated_papers st = [u] /\ Updated.new u = 12%Z).
  { vm_compute in Hrun. injection Hrun as <- _. eexists. split; reflexivity. }
  destruct Hu as (u & Hu & Hnew).
  exists st, w', u. split; [reflexivity|]. split; [exact Hu|]. split; [reflexivity|].
  split; [exact Hnew|]. apply Hzero. rewrite Hu. now left.
Defined.

(** ** A service that never answers with candidates *)

Lemma attempts_down title q paper paper_data retry_limit todo attempt w :
  (forall n, retryable (service w n) = true) ->
  exists r w',
    attempts title q paper paper_data retry_limit todo attempt w
    = Some ((Failed r, paper_data), w').
Proof.
  revert attempt w. induction todo as [|todo IH]; intros attempt w Hdown.
  - do 2 eexists. reflexivity.
  - destruct (attempt <? retry_limit - 1)%nat eqn:Hlt.
    + rewrite (attempts_retry _ _ _ _ _ _ _ _ (Hdown _) Hlt). apply IH. exact Hdown.
    + rewrite (attempts_give_up _ _ _ _ _ _ _ _ (Hdown _) Hlt). do 2 eexists. reflexivity.
Qed.

Lemma lookup_down title paper_data info w o d w' :
  (forall n, retryable (service w n) = true) ->
  Dict.get title paper_data = Some info ->
  update_paper_citation title paper_data default_retry_limit w = Some ((o, d), w') ->
  (exists r, o = Failed r) /\ d = paper_data /\
  citations_file w' = citations_file w /\ service w' = service w.
Proof.
  intros Hdown Hinfo Hrun.
  destruct (update_paper_citation_post title paper_data info default_retry_limit w Hinfo)
    as (o' & d' & evs & w2 & Hrun' & _ & _ & _ & _ & Hsv & _ & Ho).
  rewrite Hrun in Hrun'. injection Hrun' as <- <- <-.
  rewrite (update_paper_citation_unfold _ _ _ _ _ Hinfo) in Hrun.
  destruct (attempts_down title (Paper.title info) info paper_data default_retry_limit
                          default_retry_limit O (log (EvPaper title) w) Hdown)
    as (r & w3 & Hfail).
  rewrite Hfail in Hrun. injection Hrun as <- _ _.
  destruct Ho as (-> & Hcf & _). split; [now exists r|]. auto.
Qed.

(** X7.  When every answer of the service is a rate limit, an error or an
    empty result, and the document lists at least one paper,
    [run_workflow] still runs to the end and reports
    success for the document step; no record is reported as updated, the
    document is neither written nor changed, and the store left on disk
    holds, for every key, the record that reconciliation gave it: no
    citation count and no timestamp is lost or changed. *)
Theorem service_down_changes_nothing (w : world) (c : string) (old : store) :
  readme_file w = Content c ->
  paper_titles_of c <> [] ->
  load_citations w = Some (old, w) ->
  (forall n, retryable (service w n) = true) ->
  exists w' evs d,
    run_workflow w = Some (true, w') /\
    trace w' = trace w ++ evs /\
    (forall x, ~ In (EvWriteReadme x) evs) /\
    readme_file w' = Content c /\
    citations_file w' = Content d /\
    (forall k, Dict.get k d = Dict.get k (sync_loop old (paper_titles_of c))).
Proof.
  intros Hr Hpapers Hl Hdown.
  destruct (run_workflow_steps w c old Hr Hl)
    as (new & st & w2 & sorted0' & evs & Hnew & Hprog & _ & Hsteps & Htr & Hrd & Hwr).
  assert (Hne : new <> []).
  { rewrite Hnew. intros E. now apply sync_loop_nil in E. }
  specialize (Hsteps Hne).
  set (w1 := log (EvSave new) (with_citations new (tick (tick w)))) in *.
  destruct (get_citations_progress_unfold new w1)
    as (sorted0 & w2' & Hunf & (_ & Hcf0 & Hsv0 & _) & _ & Hget).
  rewrite Hunf in Hprog.
  pose proof (update_loop_invariant
                (List.length (paper_titles_ordered_of new))
                (fun _ _ st0 w0 =>
                   (forall n, retryable (service w0 n) = true) /\
                   updated_papers st0 = [] /\ sorted_data st0 = sorted0 /\
                   citations_file w0 = Content sorted0)) as Hinv.
  destruct (Hinv) with (titles := paper_titles_ordered_of new) (index := O)
                       (st := mk_progress sorted0 [] [] []) (w := w2') (st' := st)
                       (w' := w2)
    as (_ & Hupd & Hsd & Hcf).
  - intros title rest index st0 w0 info w3 (Hd & Hu & Hs & Hc) _ Hrec.
    destruct (is_recently_updated_frame (last_updated_or_default info) w0)
      as (recent & w4 & Hrec' & _ & Hcf' & Hsv' & _).
    rewrite Hrec in Hrec'. injection Hrec' as _ <-.
    repeat split; auto; [intros n; rewrite Hsv'; apply Hd | congruence].
  - intros title rest index st0 w0 info w3 o d w4 (Hd & Hu & Hs & Hc) Hinfo Hrec Hlook.
    destruct (is_recently_updated_frame (last_updated_or_default info) w0)
      as (recent & w5 & Hrec' & _ & Hcf' & Hsv' & _).
    rewrite Hrec in Hrec'. injection Hrec' as _ <-.
    assert (Hd3 : forall n, retryable (service w3 n) = true)
      by (intros n; rewrite Hsv'; apply Hd).
    destruct (lookup_down _ _ _ _ _ _ _ Hd3 Hinfo Hlook) as ((r & ->) & -> & Hcf4 & Hsv4).
    assert (Hgoal : (forall n, retryable (service w4 n) = true) /\
                    updated_papers st0 = [] /\ sorted_data st0 = sorted0 /\
                    citations_file w4 = Content sorted0).
    { repeat split; auto; [intros n; rewrite Hsv4; apply Hd3 | congruence]. }
    destruct (index <? _)%nat; exact Hgoal.
  - exact Hprog.
  - split; [intros n; rewrite Hsv0; apply Hdown|]. repeat split. exact Hcf0.
  - rewrite Hsteps, Hupd.
    exists (tick w2), (EvSave new :: EvSave sorted0' :: evs), sorted0.
    cbn [trace readme_file citations_file tick].
    split; [reflexivity|]. split; [exact Htr|]. split.
    { intros x [H|[H|H]]; try discriminate. now apply (Hwr x). }
    split; [exact Hrd|]. split; [exact Hcf|]. intros k. rewrite Hget, Hnew. reflexivity.
Qed.

Lemma service_down_changes_nothing_witness :
  load_citations Run.w_down = Some (Sample.store_a, Run.w_down) /\
  exists w' d,
    run_workflow Run.w_down = Some (true, w') /\
    readme_file w' = Content Sample.doc /\
    citations_file w' = Content d /\
    Dict.get Sample.title_a d
    = Some (Paper.mk Sample.title_a 5 (Some "2024-02-27-08:30:00")).
Proof.
  split; [reflexivity|].
  assert (Hpapers : paper_titles_of Sample.doc <> [])
    by (vm_compute; discriminate).
  destruct (service_down_changes_nothing Run.w_down Sample.doc Sample.store_a
                                         eq_refl Hpapers eq_refl (fun _ => eq_refl))
    as (w' & evs & d & Hrun & _ & _ & Hrd & Hcf & Hget).
  exists w', d. split; [exact Hrun|]. split; [exact Hrd|]. split; [exact Hcf|].
  rewrite Hget. reflexivity.
Defined.

(** ** A pause before every request *)

Lemma paced_app ready a b :
  paced ready (a ++ b) = paced ready a && paced (ready_after ready a) b.
Proof.
  revert ready. induction a as [|e a IH]; intros ready; [reflexivity|].
  destruct e; simpl; rewrite ?IH; auto using andb_assoc.
Qed.

Lemma ready_after_app ready a b :
  ready_after ready (a ++ b) = ready_after (ready_after ready a) b.
Proof.
  revert ready. induction a as [|e a IH]; intros ready; [reflexivity|].
  destruct e; simpl; apply IH.
Qed.

Lemma requests_in_app a b : requests_in (a ++ b) = (requests_in a + requests_in b)%nat.
Proof. unfold requests_in. now rewrite filter_app, length_app. Qed.

Lemma attempts_paced title q paper paper_data retry_limit todo attempt w r w' :
  attempts title q paper paper_data retry_limit todo attempt w = Some (r, w') ->
  exists evs,
    trace w' = trace w ++ evs /\ paced true evs = true /\
    (requests_in evs <= todo)%nat.
Proof.
  revert attempt w. induction todo as [|todo IH]; intros attempt w Hrun.
  - injection Hrun as _ <-. exists []. rewrite app_nil_r. repeat split.
    unfold requests_in. simpl. lia.
  - destruct (retryable (service w (requests_made w))) eqn:Hr.
    + destruct (attempt <? retry_limit - 1)%nat eqn:Hlt.
      * rewrite (attempts_retry _ _ _ _ _ _ _ _ Hr Hlt) in Hrun.
        destruct (IH _ _ Hrun) as (evs & Htr & Hp & Hn).
        exists (EvRequest q :: EvSleep api_delay :: evs). split.
        { rewrite Htr. simpl. rewrite <- !app_assoc. reflexivity. }
        split; [exact Hp|]. unfold requests_in in *. simpl. lia.
      * rewrite (attempts_give_up _ _ _ _ _ _ _ _ Hr Hlt) in Hrun.
        injection Hrun as _ <-. exists [EvRequest q]. repeat split.
        unfold requests_in. simpl. lia.
    + destruct (service w (requests_made w)) as [|e| |[data|]] eqn:Hs;
        try discriminate Hr.
      assert (Hne : data <> []) by (intros ->; discriminate Hr).
      rewrite (attempts_results _ _ _ _ _ _ _ _ _ Hs Hne) in Hrun.
      destruct (find_exact q data) as [[c n]|]; injection Hrun as _ <-.
      * eexists [EvRequest q; EvSave _]. split.
        { simpl. rewrite <- app_assoc. reflexivity. }
        split; [reflexivity|]. unfold requests_in. simpl. lia.
      * exists [EvRequest q]. repeat split. unfold requests_in. simpl. lia.
Qed.

(** X8.  Over a whole [get_citations], from a world in which a request
    could be sent, no request is sent without a pause of at least
    [api_delay] since the request before it, within a lookup and from
    one lookup to the next; and there are at most three requests for
    each key of the store. *)
Theorem requests_are_paced (citations_data : store) (w w' : world) (st : progress) :
  get_citations_progress citations_data w = Some (st, w') ->
  exists evs,
    trace w' = trace w ++ evs /\
    paced true evs = true /\
    (requests_in evs <= 3 * List.length citations_data)%nat.
Proof.
  intros Hrun.
  destruct (get_citations_progress_unfold citations_data w)
    as (sorted0 & w2 & Hunf & (_ & _ & _ & _ & _ & Htr2) & _).
  rewrite Hunf in Hrun.
  set (titles := paper_titles_ordered_of citations_data) in *.
  assert (Hlen : List.length titles = List.length citations_data).
  { unfold titles. rewrite (Permutation_length (titles_ordered_perm citations_data)).
    apply length_map. }
  pose proof (update_loop_invariant (List.length titles)
                (fun rest index _ w0 =>
                   (index + List.length rest = List.length titles)%nat /\
                   exists evs,
                     trace w0 = trace w2 ++ evs /\ paced true evs = true /\
                     (ready_after true evs = false -> rest = []) /\
                     (requests_in evs <= 3 * index)%nat)) as Hinv.
  destruct (Hinv) with (titles := titles) (index := O)
                       (st := mk_progress sorted0 [] [] []) (w := w2) (st' := st)
                       (w' := w')
    as (_ & evs & Htr & Hp & _ & Hn).
  - intros title rest index st0 w0 info w1 (Hidx & evs & Htr & Hp & Hready & Hn) _ Hrec.
    destruct (is_recently_updated_frame (last_updated_or_default info) w0)
      as (recent & w3 & Hrec' & _ & _ & _ & _ & _ & Htr3).
    rewrite Hrec in Hrec'. injection Hrec' as _ <-.
    split; [simpl in Hidx; lia|]. exists evs. split; [congruence|].
    split; [exact Hp|]. split; [|lia].
    intros Hf. specialize (Hready Hf). discriminate.
  - intros title rest index st0 w0 info w1 o d w3
           (Hidx & evs & Htr & Hp & Hready & Hn) Hinfo Hrec Hlook.
    destruct (is_recently_updated_frame (last_updated_or_default info) w0)
      as (recent & w4 & Hrec' & _ & _ & _ & _ & _ & Htr4).
    rewrite Hrec in Hrec'. injection Hrec' as _ <-.
    rewrite (update_paper_citation_unfold _ _ _ _ _ Hinfo) in Hlook.
    destruct (attempts_paced _ _ _ _ _ _ _ _ _ _ Hlook) as (evs1 & Htr1 & Hp1 & Hn1).
    assert (Hrdy : ready_after true evs = true).
    { destruct (ready_after true evs) eqn:E; [reflexivity|].
      specialize (Hready eq_refl). discriminate. }
    assert (Htr3 : trace w3 = trace w2 ++ evs ++ EvPaper title :: evs1).
    { rewrite Htr1. simpl. rewrite Htr4, Htr, <- !app_assoc. reflexivity. }
    assert (Hp3 : paced true (evs ++ EvPaper title :: evs1) = true).
    { rewrite paced_app, Hp, Hrdy. exact Hp1. }
    assert (Hn3 : (requests_in (evs ++ EvPaper title :: evs1) <= 3 * S index)%nat).
    { rewrite requests_in_app. unfold default_retry_limit in Hn1.
      change (requests_in (EvPaper title :: evs1)) with (requests_in evs1). lia. }
    split; [simpl in Hidx; lia|].
    destruct (index <? List.length titles - 1)%nat eqn:Hlt.
    + exists ((evs ++ EvPaper title :: evs1) ++ [EvSleep api_delay]). split.
      { simpl. rewrite Htr3, <- !app_assoc. reflexivity. }
      split; [rewrite paced_app, Hp3; reflexivity|]. split.
      * rewrite ready_after_app. simpl. rewrite orb_true_r. discriminate.
      * rewrite requests_in_app. simpl. unfold requests_in at 2. simpl. lia.
    + exists (evs ++ EvPaper title :: evs1). split; [exact Htr3|].
      split; [exact Hp3|]. split; [|exact Hn3].
      intros _. apply Nat.ltb_ge in Hlt. simpl in Hidx.
      destruct rest; [reflexivity | simpl in Hidx; lia].
  - exact Hrun.
  - split; [lia|]. exists []. rewrite app_nil_r. repeat split.
    + discriminate.
    + unfold requests_in. simpl. lia.
  - exists (EvSave sorted0 :: evs). split.
    { rewrite Htr, Htr2. simpl. rewrite <- app_assoc. reflexivity. }
    split; [exact Hp|]. rewrite <- Hlen.
    change (requests_in (EvSave sorted0 :: evs)) with (requests_in evs).
    rewrite Nat.add_0_l in *. lia.
Qed.

Lemma requests_are_paced_witness :
  exists st w',
    get_citations_progress Sample.store_two
      (Sample.w_lookup Sample.store_two (fun _ => Status429)) = Some (st, w') /\
    requests_in (trace w') = 6%nat /\ paced true (trace w') = true.
Proof.
  destruct (get_citations_progress Sample.store_two
              (Sample.w_lookup Sample.store_two (fun _ => Status429)))
    as [[st w']|] eqn:Hrun; [|vm_compute in Hrun; discriminate Hrun].
  destruct (requests_are_paced _ _ _ _ Hrun) as (evs & Htr & Hp & _).
  exists st, w'. split; [reflexivity|]. split.
  - vm_compute in Hrun. injection Hrun as _ <-. reflexivity.
  - rewrite Htr. exact Hp.
Defined.

(** ** Writing a timestamp and reading it back *)

Lemma in_range_list lo n v :
  (lo <= v < lo + Z.of_nat n)%Z -> In v (map (fun k => lo + Z.of_nat k)%Z (seq 0 n)).
Proof.
  intros H. apply in_map_iff. exists (Z.to_nat (v - lo)). split; [lia|].
  apply in_seq. lia.
Qed.

Lemma digit_char_parsed lo hi n s :
  (0 <= n <= 9)%Z ->
  DateTime.digit_in lo hi (String (DateTime.digit_char n) s)
  = if ((lo <=? n) && (n <=? hi))%Z then [(n, s)] else [].
Proof.
  intros H. pose proof (in_range_list 0 10 n ltac:(lia)) as Hin. simpl in Hin.
  repeat (destruct Hin as [<-|Hin]; [reflexivity|]). contradiction.
Qed.

Lemma digit_char_mod n : DateTime.digit_char n = DateTime.digit_char (n mod 10).
Proof. unfold DateTime.digit_char. now rewrite Z.mod_mod by lia. Qed.

Lemma pbind_head {A B : Type} (p : DateTime.parser A) (f : A -> DateTime.parser B)
      s a r x :
  (exists tl, p s = (a, r) :: tl) ->
  (exists tl, f a r = x :: tl) ->
  exists tl, DateTime.pbind p f s = x :: tl.
Proof.
  intros [tl1 H1] [tl2 H2]. unfold DateTime.pbind. rewrite H1. simpl. rewrite H2.
  simpl. eauto.
Qed.

Lemma lit_head c s : exists tl, DateTime.lit c (String c s) = (tt, s) :: tl.
Proof. unfold DateTime.lit. rewrite Ascii.eqb_refl. eauto. Qed.

Lemma mod10_digit n : (0 <= n mod 10 <= 9)%Z.
Proof. pose proof (Z.mod_pos_bound n 10). lia. Qed.

Lemma digit_in_any n s :
  DateTime.digit_in 0 9 (String (DateTime.digit_char n) s) = [((n mod 10)%Z, s)].
Proof.
  rewrite digit_char_mod, digit_char_parsed by apply mod10_digit.
  pose proof (mod10_digit n) as [H1 H2].
  apply Z.leb_le in H1, H2. now rewrite H1, H2.
Qed.

(** The year, on four digits. *)
Lemma year_parsed y rest :
  (0 <= y <= 9999)%Z ->
  exists tl, DateTime.p_Y (DateTime.pad4 y ++ rest)%string = (y, rest) :: tl.
Proof.
  intros Hy. unfold DateTime.p_Y, DateTime.pad4, DateTime.pad2. cbn [String.append].
  unfold DateTime.pbind. rewrite digit_in_any. cbn [flat_map app].
  rewrite digit_in_any. cbn [flat_map app].
  rewrite digit_in_any. cbn [flat_map app].
  rewrite digit_in_any. cbn [flat_map app DateTime.pret].
  eexists. f_equal. f_equal. clear rest. Z.div_mod_to_equations. lia.
Qed.

(** A field on two digits: by going through its values. *)
Ltac each_value H :=
  simpl in H; repeat (destruct H as [<-|H]; [eexists; reflexivity|]); contradiction.

Lemma month_parsed v rest :
  (1 <= v <= 12)%Z ->
  exists tl, DateTime.p_m (DateTime.pad2 v ++ String "-" rest)%string
             = (v, String "-" rest) :: tl.
Proof.
  intros H. pose proof (in_range_list 1 12 v ltac:(lia)) as Hin. each_value Hin.
Qed.

Lemma day_parsed v rest :
  (1 <= v <= 31)%Z ->
  exists tl, DateTime.p_d (DateTime.pad2 v ++ String "-" rest)%string
             = (v, String "-" rest) :: tl.
Proof.
  intros H. pose proof (in_range_list 1 31 v ltac:(lia)) as Hin. each_value Hin.
Qed.

Lemma hour_parsed v rest :
  (0 <= v <= 23)%Z ->
  exists tl, DateTime.p_H (DateTime.pad2 v ++ String ":" rest)%string
             = (v, String ":" rest) :: tl.
Proof.
  intros H. pose proof (in_range_list 0 24 v ltac:(lia)) as Hin. each_value Hin.
Qed.

Lemma minute_parsed v rest :
  (0 <= v <= 59)%Z ->
  exists tl, DateTime.p_M (DateTime.pad2 v ++ String ":" rest)%string
             = (v, String ":" rest) :: tl.
Proof.
  intros H. pose proof (in_range_list 0 60 v ltac:(lia)) as Hin. each_value Hin.
Qed.

Lemma second_parsed v :
  (0 <= v <= 59)%Z ->
  exists tl, DateTime.p_S (DateTime.pad2 v) = (v, EmptyString) :: tl.
Proof.
  intros H. pose proof (in_range_list 0 60 v ltac:(lia)) as Hin. each_value Hin.
Qed.

Lemma valid_fields d :
  DateTime.valid d = true ->
  (1 <= DateTime.year d <= 9999 /\ 1 <= DateTime.month d <= 12 /\
   1 <= DateTime.day d <= 31 /\ 0 <= DateTime.hour d <= 23 /\
   0 <= DateTime.minute d <= 59 /\ 0 <= DateTime.second d <= 59 /\
   0 <= DateTime.microsecond d <= 999999)%Z.
Proof.
  intros Hv. unfold DateTime.valid in Hv.
  repeat (apply andb_prop in Hv; destruct Hv as [Hv ?]).
  repeat match goal with H : (_ <=? _)%Z = true |- _ => apply Z.leb_le in H end.
  pose proof (days_in_month_le_31 (DateTime.year d) (DateTime.month d)). lia.
Qed.

Lemma whole_second_valid d : DateTime.valid d = true -> DateTime.valid (whole_second d) = true.
Proof.
  unfold DateTime.valid, whole_second. simpl. intros Hv.
  repeat (apply andb_prop in Hv; destruct Hv as [Hv ?]).
  repeat (apply andb_true_intro; split); auto.
Qed.

Lemma strptime_strftime d :
  DateTime.valid d = true ->
  DateTime.strptime (DateTime.strftime d) = Some (whole_second d).
Proof.
  intros Hv. pose proof (valid_fields d Hv) as (Hy & Hm & Hd & Hh & Hmi & Hs & _).
  assert (Hp : exists tl, DateTime.p_format (DateTime.strftime d)
                          = (whole_second d, EmptyString) :: tl).
  { unfold DateTime.p_format, DateTime.strftime.
    eapply pbind_head; [apply year_parsed; lia|]. cbn [String.append].
    eapply pbind_head; [apply lit_head|].
    eapply pbind_head; [apply month_parsed; lia|].
    eapply pbind_head; [apply lit_head|].
    eapply pbind_head; [apply day_parsed; lia|].
    eapply pbind_head; [apply lit_head|].
    eapply pbind_head; [apply hour_parsed; lia|].
    eapply pbind_head; [apply lit_head|].
    eapply pbind_head; [apply minute_parsed; lia|].
    eapply pbind_head; [apply lit_head|].
    eapply pbind_head; [apply second_parsed; lia|].
    eexists. reflexivity. }
  destruct Hp as [tl Hp]. unfold DateTime.strptime. rewrite Hp.
  now rewrite (whole_second_valid d Hv).
Qed.

Lemma to_us_whole_second d :
  DateTime.to_us (whole_second d) = (DateTime.to_us d - DateTime.microsecond d)%Z.
Proof. unfold DateTime.to_us, DateTime.toordinal, whole_second. simpl. lia. Qed.

(** X9.  A timestamp written with [strftime] for a valid date of the
    year 1000 or later (where [%Y] gives four digits) parses back with [strptime] to the same date and time, to the
    second; the freshness test on such a timestamp therefore never takes
    the malformed branch, and compares the clock with the time that was
    written. *)
Theorem timestamp_round_trip (d : DateTime.datetime) (w : world) :
  DateTime.valid d = true ->
  (1000 <= DateTime.year d)%Z ->
  DateTime.strptime (DateTime.strftime d) = Some (whole_second d) /\
  is_recently_updated (DateTime.strftime d) w
  = Some ((DateTime.to_us (clock w (clock_reads w)) - DateTime.to_us d
           + DateTime.microsecond d <? DateTime.timedelta_hours 24)%Z,
          tick w).
Proof.
  intros Hv _. split; [now apply strptime_strftime|].
  rewrite is_recently_updated_run, (strptime_strftime d Hv), to_us_whole_second.
  do 3 f_equal. unfold skip_recent_hours. lia.
Qed.

Lemma timestamp_round_trip_witness :
  DateTime.valid (DateTime.mk_datetime 2024 2 29 23 59 59 123456) = true /\
  DateTime.strptime "2024-02-29-23:59:59"
  = Some (DateTime.mk_datetime 2024 2 29 23 59 59 0).
Proof.
  split; [reflexivity|].
  exact (proj1 (timestamp_round_trip (DateTime.mk_datetime 2024 2 29 23 59 59 123456)
                                     Run.w_ok eq_refl ltac:(simpl; lia))).
Defined.

(** X10.  After a lookup that succeeded, with a valid clock reading of the
    year 1000 or later, the timestamp stored under the key is one the
    freshness test can read: tested at a later clock reading, the record
    is fresh exactly when less than 24 hours have passed since the second
    in which it was updated.  In particular it is fresh at the moment of
    the update. *)
Theorem updated_record_is_fresh (title : string) (paper_data : store) (info : Paper.t)
        (w w' : world) (n : Z) (d : store) :
  Dict.get title paper_data = Some info ->
  update_paper_citation title paper_data default_retry_limit w
  = Some ((Updated_to n, d), w') ->
  DateTime.valid (clock w (clock_reads w)) = true ->
  (1000 <= DateTime.year (clock w (clock_reads w)))%Z ->
  exists ts,
    Dict.get title d = Some (Paper.mk (Paper.title info) n (Some ts)) /\
    (forall w2,
        is_recently_updated ts w2
        = Some ((DateTime.to_us (clock w2 (clock_reads w2))
                 - DateTime.to_us (whole_second (clock w (clock_reads w)))
                 <? DateTime.timedelta_hours 24)%Z, tick w2)) /\
    (forall w2, clock w2 (clock_reads w2) = clock w (clock_reads w) ->
                is_recently_updated ts w2 = Some (true, tick w2)).
Proof.
  intros Hinfo Hrun Hv _.
  destruct (update_paper_citation_post title paper_data info default_retry_limit w Hinfo)
    as (o & d' & evs & w2 & Hrun' & _ & _ & _ & _ & _ & _ & Ho).
  rewrite Hrun in Hrun'. injection Hrun' as <- <- <-.
  destruct Ho as (-> & _).
  exists (DateTime.strftime (clock w (clock_reads w))).
  split; [apply record_citation_get|].
  assert (Hfresh : forall w2,
             is_recently_updated (DateTime.strftime (clock w (clock_reads w))) w2
             = Some ((DateTime.to_us (clock w2 (clock_reads w2))
                      - DateTime.to_us (whole_second (clock w (clock_reads w)))
                      <? DateTime.timedelta_hours 24)%Z, tick w2)).
  { intros w2. now rewrite is_recently_updated_run, (strptime_strftime _ Hv). }
  split; [exact Hfresh|].
  intros w2 Hsame. rewrite Hfresh, Hsame, to_us_whole_second. do 2 f_equal.
  apply Z.ltb_lt. pose proof (valid_fields _ Hv) as (_ & _ & _ & _ & _ & _ & Hus).
  unfold DateTime.timedelta_hours. lia.
Qed.

Lemma updated_record_is_fresh_witness :
  Dict.get Sample.title_a Sample.store_a
  = Some (Paper.mk Sample.title_a 5 (Some "2024-02-27-08:30:00")) /\
  exists d w',
    update_paper_citation Sample.title_a Sample.store_a default_retry_limit
      (Sample.w_lookup Sample.store_a (fun _ => Json (Some [Sample.with_count])))
    = Some ((Updated_to 12, d), w') /\
    is_recently_updated "2024-03-02-12:00:00" w' = Some (true, tick w').
Proof.
  split; [reflexivity|].
  destruct (update_paper_citation Sample.title_a Sample.store_a default_retry_limit
              (Sample.w_lookup Sample.store_a (fun _ => Json (Some [Sample.with_count]))))
    as [[[o d] w']|] eqn:Hrun; [|vm_compute in Hrun; discriminate Hrun].
  assert (Ho : o = Updated_to 12).
  { vm_compute in Hrun. now injection Hrun as <- _ _. }
  subst o.
  destruct (updated_record_is_fresh Sample.title_a Sample.store_a
              (Paper.mk Sample.title_a 5 (Some "2024-02-27-08:30:00"))
              (Sample.w_lookup Sample.store_a (fun _ => Json (Some [Sample.with_count])))
              w' 12%Z d eq_refl Hrun eq_refl ltac:(simpl; lia))
    as (ts & Hget & _ & Hnow).
  assert (Hts : ts = "2024-03-02-12:00:00").
  { vm_compute in Hrun. injection Hrun as <- _. vm_compute in Hget. congruence. }
  subst ts. exists d, w'. split; [reflexivity|].
  apply Hnow. vm_compute in Hrun. injection Hrun as _ <-. reflexivity.
Defined.

(** ** New papers are due *)

Lemma days_before_month_nonneg y m : (0 <= DateTime.days_before_month y m)%Z.
Proof.
  unfold DateTime.days_before_month.
  induction (seq 1 (Z.to_nat (m - 1))) as [|k l IH]; simpl; [lia|].
  assert (0 <= DateTime.days_in_month y (Z.of_nat k))%Z; [|lia].
  unfold DateTime.days_in_month.
  destruct (Z.of_nat k =? 2)%Z; [destruct (DateTime.is_leap y); lia|].
  destruct ((Z.of_nat k =? 4) || (Z.of_nat k =? 6) || (Z.of_nat k =? 9)
            || (Z.of_nat k =? 11))%Z; lia.
Qed.

Lemma days_before_year_from_1971 y :
  (1971 <= y)%Z -> (DateTime.days_before_year 1970 + 365 <= DateTime.days_before_year y)%Z.
Proof.
  intros H. unfold DateTime.days_before_year. cbv zeta.
  change (1970 - 1)%Z with 1969%Z.
  change (1969 * 365 + 1969 / 4 - 1969 / 100 + 1969 / 400)%Z with 719162%Z.
  Z.div_mod_to_equations. lia.
Qed.

(** X11.  The record reconciliation gives a newly found paper is never
    fresh: at a valid clock reading of the year 1971 or later the
    freshness test on its timestamp answers "not fresh", so the paper is
    looked up in the first update pass that reaches it. *)
Theorem new_paper_is_due (title : string) (w : world) :
  DateTime.valid (clock w (clock_reads w)) = true ->
  (1971 <= DateTime.year (clock w (clock_reads w)))%Z ->
  is_recently_updated (last_updated_or_default (new_paper title)) w
  = Some (false, tick w).
Proof.
  intros Hv Hy.
  change (last_updated_or_default (new_paper title)) with "1970-01-01-00:00:00".
  rewrite is_recently_updated_run.
  change (DateTime.strptime "1970-01-01-00:00:00")
    with (Some (DateTime.mk_datetime 1970 1 1 0 0 0 0)).
  cbv beta iota. do 2 f_equal. apply Z.ltb_ge.
  pose proof (valid_fields _ Hv) as (_ & _ & Hd & Hh & Hmi & Hs & Hus).
  set (t := clock w (clock_reads w)) in *.
  pose proof (days_before_month_nonneg (DateTime.year t) (DateTime.month t)).
  pose proof (days_before_year_from_1971 (DateTime.year t) Hy).
  unfold DateTime.to_us, DateTime.toordinal, DateTime.timedelta_hours, skip_recent_hours.
  cbn [DateTime.year DateTime.month DateTime.day DateTime.hour DateTime.minute
       DateTime.second DateTime.microsecond].
  change (DateTime.days_before_month 1970 1) with 0%Z.
  lia.
Qed.

Lemma new_paper_is_due_witness :
  DateTime.valid (clock Run.w_ok (clock_reads Run.w_ok)) = true /\
  is_recently_updated "1970-01-01-00:00:00" Run.w_ok = Some (false, tick Run.w_ok).
Proof.
  split; [reflexivity|].
  exact (new_paper_is_due Sample.title_b Run.w_ok eq_refl ltac:(simpl; lia)).
Defined.

(** ** From the extractor to the patcher *)

Lemma prefix_stars s :
  String.prefix "**" s = true -> exists s2, s = String "*" (String "*" s2).
Proof.
  destruct s as [|a [|b s2]]; cbn [String.prefix].
  - intros H; discriminate H.
  - destruct (ascii_dec "*" a); intros H; discriminate H.
  - destruct (ascii_dec "*" a) as [<-|]; [|intros H; discriminate H].
    destruct (ascii_dec "*" b) as [<-|]; [|intros H; discriminate H]. eauto.
Qed.

Lemma prefix_cons c p s : String.prefix (String c p) (String c s) = String.prefix p s.
Proof. cbn [String.prefix]. destruct (ascii_dec c c); [reflexivity | congruence]. Qed.

Lemma match_close_stars s n : Re.match_close s = Some n -> String.prefix "**" s = true.
Proof. unfold Re.match_close. destruct (String.prefix "**" s); [reflexivity | discriminate]. Qed.

Lemma match_lazy_sound s g n :
  Re.match_lazy s = Some (g, n) ->
  String.prefix (g ++ "**") s = true /\ str_forallb PyStr.isdot g = true.
Proof.
  revert g n. induction s as [|c s IH]; intros g n; cbn [Re.match_lazy].
  - destruct (Re.match_close EmptyString) eqn:E; [|discriminate].
    intros [= <- <-]. split; [exact (match_close_stars _ _ E) | reflexivity].
  - destruct (Re.match_close (String c s)) eqn:E.
    + intros [= <- <-]. split; [exact (match_close_stars _ _ E) | reflexivity].
    + destruct (PyStr.isdot c) eqn:Hc; [|discriminate].
      destruct (Re.match_lazy s) as [[g' n']|]; [|discriminate].
      intros [= <- <-]. destruct (IH g' n' eq_refl) as [Hp Hd].
      cbn [String.append str_forallb]. rewrite prefix_cons, Hc. auto.
Qed.

Lemma match_entry_sound s g n :
  Re.match_entry s = Some (g, n) ->
  String.prefix (Re.title_markup g) s = true /\ str_forallb PyStr.isdot g = true.
Proof.
  unfold Re.match_entry. destruct (String.prefix "**" s) eqn:E; [|discriminate].
  destruct (prefix_stars s E) as [s2 ->]. cbn [PyStr.drop].
  destruct (Re.match_lazy s2) as [[g' n']|] eqn:El; [|discriminate].
  intros [= <- <-]. destruct (match_lazy_sound _ _ _ El) as [Hp Hd].
  split; [|exact Hd]. unfold Re.title_markup. cbn [String.append].
  now rewrite !prefix_cons.
Qed.

Lemma findall_from_sound skip s g :
  In g (Re.findall_from skip s) ->
  exists pos n, Re.match_entry (PyStr.drop pos s) = Some (g, n).
Proof.
  revert skip. induction s as [|c s IH]; intros skip; cbn [Re.findall_from];
    [intros []|].
  destruct skip as [|k].
  - destruct (Re.match_entry (String c s)) as [[g' n']|] eqn:E.
    + intros [<-|H].
      * now exists O, n'.
      * destruct (IH _ H) as (pos & n & Hm). now exists (S pos), n.
    + intros H. destruct (IH _ H) as (pos & n & Hm). now exists (S pos), n.
  - intros H. destruct (IH _ H) as (pos & n & Hm). now exists (S pos), n.
Qed.

Lemma lstrip_forallb p s : str_forallb p s = true -> str_forallb p (PyStr.lstrip s) = true.
Proof.
  induction s as [|c s IH]; [reflexivity|]. cbn [PyStr.lstrip].
  destruct (PyStr.isspace c); [|tauto].
  cbn [str_forallb]. intros H. apply andb_prop in H. now apply IH.
Qed.

Lemma rstrip_forallb p s : str_forallb p s = true -> str_forallb p (PyStr.rstrip s) = true.
Proof.
  induction s as [|c s IH]; [reflexivity|]. cbn [PyStr.rstrip str_forallb].
  intros H. apply andb_prop in H. destruct H as [Hc Hs]. specialize (IH Hs).
  destruct (PyStr.rstrip s) as [|c' r].
  - destruct (PyStr.isspace c); [reflexivity|]. cbn [str_forallb]. now rewrite Hc.
  - cbn [str_forallb] in *. now rewrite Hc, IH.
Qed.

(** X12.  Every title [extract_titles_from_md] returns is longer than ten
    characters and has no line feed in it, and it is the stripped form of
    a text that stands in the document between two pairs of stars.  When
    stripping removed nothing, the patcher's search for the title's
    markup finds an anchor in that document. *)
Theorem extracted_title_has_anchor (content title : string) :
  In title (paper_titles_of content) ->
  (10 < String.length title)%nat /\
  str_forallb PyStr.isdot title = true /\
  exists raw pos,
    title = PyStr.strip raw /\
    PyStr.startswith "[" raw = false /\
    String.prefix (Re.title_markup raw) (PyStr.drop pos content) = true /\
    (raw = title -> Re.finditer_title title content <> []).
Proof.
  unfold paper_titles_of. intros Hin. apply in_map_iff in Hin.
  destruct Hin as (raw & <- & Hraw). apply filter_In in Hraw.
  destruct Hraw as [Hfound Hkeep]. apply andb_prop in Hkeep.
  destruct Hkeep as [Hbr Hlen]. apply Nat.ltb_lt in Hlen.
  apply negb_true_iff in Hbr.
  destruct (findall_from_sound _ _ _ Hfound) as (pos & n & Hm).
  destruct (match_entry_sound _ _ _ Hm) as [Hp Hd].
  split; [exact Hlen|]. split.
  { unfold PyStr.strip. now apply rstrip_forallb, lstrip_forallb. }
  exists raw, pos. split; [reflexivity|]. split; [exact Hbr|]. split; [exact Hp|].
  intros Heq Hnil. rewrite <- Heq in Hnil. unfold Re.finditer_title in Hnil.
  rewrite (finditer_from_nil _ O content (title_markup_nonempty raw)) in Hnil.
  rewrite Hnil in Hp. discriminate.
Qed.

Lemma extracted_title_has_anchor_witness :
  In Sample.title_b (paper_titles_of Sample.doc) /\
  Re.finditer_title Sample.title_b Sample.doc <> [].
Proof.
  assert (Hin : In Sample.title_b (paper_titles_of Sample.doc))
    by (vm_compute; right; left; reflexivity).
  split; [exact Hin|].
  destruct (extracted_title_has_anchor Sample.doc Sample.title_b Hin)
    as (_ & _ & raw & pos & Hstrip & _ & _ & Hanchor).
  vm_compute. discriminate.
Defined.

(** A title that was written with spaces inside the stars is extracted
    without them, and then has no anchor. *)
Example padded_title_has_no_anchor :
  paper_titles_of "** A padded paper title ** [[paper]](u)" = ["A padded paper title"] /\
  Re.finditer_title "A padded paper title" "** A padded paper title ** [[paper]](u)" = [].
Proof. split; reflexivity. Qed.

(** ** Badges in a text *)

Lemma prefix_app_iff p s : String.prefix p s = true <-> exists r, s = (p ++ r)%string.
Proof.
  revert s. induction p as [|a p IH]; intros s.
  - split; [intros _; now exists s | intros _; now destruct s].
  - destruct s as [|b s]; cbn [String.prefix String.append].
    + split; [discriminate | intros [r H]; discriminate].
    + destruct (ascii_dec a b) as [<-|Hne].
      * rewrite IH. split; intros [r H]; exists r; congruence.
      * split; [discriminate | intros [r H]; congruence].
Qed.

Lemma drop_app_length p r : PyStr.drop (String.length p) (p ++ r) = r.
Proof. induction p as [|a p IH]; [reflexivity | exact IH]. Qed.

Lemma take_drop n s : (PyStr.take n s ++ PyStr.drop n s)%string = s.
Proof.
  revert s. induction n as [|n IH]; intros s; [reflexivity|].
  destruct s as [|c s]; [reflexivity|]. cbn [PyStr.take PyStr.drop String.append].
  now rewrite IH.
Qed.

Lemma take_length_le n s : (String.length (PyStr.take n s) <= n)%nat.
Proof.
  revert s. induction n as [|n IH]; intros s; [simpl; lia|].
  destruct s as [|c s]; cbn [PyStr.take String.length]; [lia|].
  specialize (IH s). lia.
Qed.

Lemma str_length_app a b :
  String.length (a ++ b) = (String.length a + String.length b)%nat.
Proof. induction a as [|c a IH]; simpl; [reflexivity | now rewrite IH]. Qed.

Lemma str_app_assoc a b c : ((a ++ b) ++ c)%string = (a ++ b ++ c)%string.
Proof. induction a as [|x a IH]; simpl; [reflexivity | now rewrite IH]. Qed.

Lemma str_forallb_app p a b :
  str_forallb p (a ++ b) = str_forallb p a && str_forallb p b.
Proof.
  induction a as [|c a IH]; simpl; [reflexivity|].
  now rewrite IH, andb_assoc.
Qed.

(** The run of leading characters that satisfy [p]. *)
Lemma span_take p s : str_forallb p (PyStr.take (Re.span p s) s) = true.
Proof.
  induction s as [|c s IH]; [reflexivity|]. cbn [Re.span].
  destruct (p c) eqn:E; [|reflexivity].
  cbn [PyStr.take str_forallb]. now rewrite E, IH.
Qed.

Lemma span_take_length p s : String.length (PyStr.take (Re.span p s) s) = Re.span p s.
Proof.
  induction s as [|c s IH]; [reflexivity|]. cbn [Re.span].
  destruct (p c); [|reflexivity]. cbn [PyStr.take String.length]. now rewrite IH.
Qed.

Lemma span_app p a c r :
  str_forallb p a = true -> p c = false ->
  Re.span p (a ++ String c r) = String.length a.
Proof.
  intros Ha Hc. induction a as [|x a IH]; cbn [String.append Re.span String.length].
  - now rewrite Hc.
  - cbn [str_forallb] in Ha. apply andb_prop in Ha. destruct Ha as [Hx Ha].
    now rewrite Hx, IH.
Qed.

(** What [match_badge] matches: the prefix, a non-empty run of digits, and
    the suffix. *)
Lemma match_badge_spec s len :
  Re.match_badge s = Some len <->
  exists digits rest,
    s = (Re.badge_prefix ++ digits ++ Re.badge_suffix ++ rest)%string /\
    digits <> EmptyString /\ str_forallb PyStr.isdigit digits = true /\
    len = (String.length Re.badge_prefix + String.length digits
           + String.length Re.badge_suffix)%nat.
Proof.
  unfold Re.match_badge. split.
  - destruct (String.prefix Re.badge_prefix s) eqn:Ep; [|discriminate].
    apply prefix_app_iff in Ep. destruct Ep as [r ->].
    rewrite drop_app_length.
    destruct (0 <? Re.span PyStr.isdigit r)%nat eqn:Ed; [|discriminate].
    destruct (String.prefix Re.badge_suffix (PyStr.drop (Re.span PyStr.isdigit r) r))
      eqn:Es; [|discriminate].
    cbn [andb]. intros [= <-]. apply prefix_app_iff in Es. destruct Es as [rest Es].
    exists (PyStr.take (Re.span PyStr.isdigit r) r), rest.
    split; [|split; [|split]].
    + rewrite <- Es, take_drop. reflexivity.
    + intros E. apply Nat.ltb_lt in Ed.
      pose proof (span_take_length PyStr.isdigit r) as Hl. rewrite E in Hl.
      simpl in Hl. lia.
    + apply span_take.
    + now rewrite span_take_length.
  - intros (digits & rest & -> & Hne & Hd & ->).
    assert (Ep : String.prefix Re.badge_prefix
                   (Re.badge_prefix ++ digits ++ Re.badge_suffix ++ rest) = true)
      by (apply prefix_app_iff; eauto).
    rewrite Ep, drop_app_length.
    assert (Hspan : Re.span PyStr.isdigit (digits ++ Re.badge_suffix ++ rest)
                    = String.length digits).
    { change (Re.badge_suffix ++ rest)%string
        with (String "-" ("blue)]()" ++ rest))%string.
      now apply span_app. }
    rewrite Hspan, drop_app_length.
    assert (Es : String.prefix Re.badge_suffix (Re.badge_suffix ++ rest) = true)
      by (apply prefix_app_iff; eauto).
    rewrite Es.
    assert (Hpos : (0 <? String.length digits)%nat = true).
    { apply Nat.ltb_lt. destruct digits; [congruence | simpl; lia]. }
    now rewrite Hpos.
Qed.

Lemma match_badge_length s len :
  Re.match_badge s = Some len -> (1 <= len <= String.length s)%nat.
Proof.
  intros H. apply match_badge_spec in H.
  destruct H as (digits & rest & -> & _ & _ & ->).
  rewrite !str_length_app. simpl. lia.
Qed.

Lemma str_forallb_impl (p q : ascii -> bool) s :
  (forall c, p c = true -> q c = true) ->
  str_forallb p s = true -> str_forallb q s = true.
Proof.
  intros Hpq. induction s as [|c s IH]; [reflexivity|]. cbn [str_forallb].
  intros H. apply andb_prop in H. destruct H as [Hc Hs].
  now rewrite (Hpq c Hc), IH.
Qed.

Lemma isdigit_not_bracket c :
  PyStr.isdigit c = true -> negb (Ascii.eqb c "[") = true.
Proof. destruct c as [[] [] [] [] [] [] [] []]; try reflexivity; discriminate. Qed.

(** A text [r] without [[] that is followed by a [[] ends where the [[]
    stands or earlier. *)
Lemma bracket_after r t x rest :
  str_forallb (fun c => negb (Ascii.eqb c "[")) r = true ->
  (t ++ String "[" x)%string = (r ++ rest)%string ->
  exists t', t = (r ++ t')%string.
Proof.
  revert t. induction r as [|a r IH]; intros t Hr H.
  - now exists t.
  - cbn [str_forallb] in Hr. apply andb_prop in Hr. destruct Hr as [Ha Hr].
    destruct t as [|c t]; cbn [String.append] in H.
    + injection H as <- _. discriminate.
    + injection H as -> H. destruct (IH t Hr H) as [t' ->]. now exists t'.
Qed.

(** A badge read from a non-empty text [t] followed by the start of another
    badge lies within [t]: a badge has [[] only as its first and third
    character, and its fourth is not [!]. *)
Lemma badge_within r t x rest :
  str_forallb (fun c => negb (Ascii.eqb c "[")) (String "]" r) = true ->
  t <> EmptyString ->
  (t ++ String "[" (String "!" x))%string
  = String "[" (String "!" (String "[" (String "]" r ++ rest))) ->
  exists t', t = String "[" (String "!" (String "[" (String "]" r ++ t'))).
Proof.
  intros Hr Hne H.
  destruct t as [|c1 [|c2 [|c3 t]]]; cbn [String.append] in H;
    try congruence; try discriminate.
  injection H as -> -> -> H.
  change (String "]" (r ++ rest)) with (String "]" r ++ rest)%string in H.
  destruct (bracket_after _ _ _ _ Hr H) as [t' ->]. now exists t'.
Qed.

Lemma badge_text digits rest :
  (Re.badge_prefix ++ digits ++ Re.badge_suffix ++ rest)%string
  = String "[" (String "!" (String "["
      (String "]" ("(https://img.shields.io/badge/citation-" ++ digits ++ Re.badge_suffix)
       ++ rest))).
Proof.
  change Re.badge_prefix
    with ("[![" ++ String "]" "(https://img.shields.io/badge/citation-")%string.
  rewrite str_app_assoc. cbn [String.append].
  now rewrite !str_app_assoc.
Qed.

Lemma badge_body_no_bracket digits :
  str_forallb PyStr.isdigit digits = true ->
  str_forallb (fun c => negb (Ascii.eqb c "["))
    (String "]" ("(https://img.shields.io/badge/citation-" ++ digits ++ Re.badge_suffix))
  = true.
Proof.
  intros Hd.
  change (String "]" ("(https://img.shields.io/badge/citation-" ++ digits ++ Re.badge_suffix))
    with ("](https://img.shields.io/badge/citation-" ++ digits ++ Re.badge_suffix)%string.
  rewrite !str_forallb_app.
  rewrite (str_forallb_impl _ _ digits isdigit_not_bracket Hd).
  reflexivity.
Qed.

(** The start of a badge put behind a non-empty text does not change what
    is matched at the front of the text. *)
Lemma match_badge_app t x :
  t <> EmptyString ->
  Re.match_badge (t ++ String "[" (String "!" x)) = Re.match_badge t.
Proof.
  intros Hne.
  destruct (Re.match_badge (t ++ String "[" (String "!" x))) as [len|] eqn:E.
  - apply match_badge_spec in E. destruct E as (digits & rest & E & Hd & Hall & ->).
    rewrite badge_text in E.
    destruct (badge_within _ _ _ _ (badge_body_no_bracket digits Hall) Hne E)
      as [t' Ht].
    rewrite <- badge_text in Ht. symmetry. apply match_badge_spec.
    exists digits, t'. auto.
  - destruct (Re.match_badge t) as [len|] eqn:Et; [|reflexivity].
    apply match_badge_spec in Et. destruct Et as (digits & rest & -> & Hd & Hall & ->).
    assert (Some (String.length Re.badge_prefix + String.length digits
                  + String.length Re.badge_suffix)%nat = None); [|discriminate].
    rewrite <- E. symmetry. apply match_badge_spec.
    exists digits, (rest ++ String "[" (String "!" x))%string.
    rewrite !str_app_assoc. auto.
Qed.

Lemma match_badge_starts s len :
  Re.match_badge s = Some len -> exists x, s = String "[" (String "!" x).
Proof.
  intros H. apply match_badge_spec in H. destruct H as (digits & rest & -> & _).
  rewrite badge_text. eauto.
Qed.

(** [re.sub] started inside a match goes on behind it. *)
Lemma sub_badge_from_drop k s :
  Re.sub_badge_from k s = Re.sub_badge (PyStr.drop k s).
Proof.
  revert k. induction s as [|c s IH]; intros [|k]; try reflexivity.
  cbn [Re.sub_badge_from PyStr.drop]. apply IH.
Qed.

Lemma sub_badge_at_match s len :
  Re.match_badge s = Some len -> Re.sub_badge s = Re.sub_badge (PyStr.drop len s).
Proof.
  intros H. destruct (match_badge_length _ _ H) as [Hlen _].
  destruct s as [|c s]; [discriminate|].
  unfold Re.sub_badge at 1. cbn [Re.sub_badge_from]. rewrite H.
  rewrite sub_badge_from_drop. destruct len as [|len]; [lia|]. reflexivity.
Qed.

(** [re.sub] works on a text and on what follows it separately, when what
    follows starts like a badge. *)
Lemma sub_badge_from_app x t skip :
  (skip <= String.length t)%nat ->
  Re.sub_badge_from skip (t ++ String "[" (String "!" x))
  = (Re.sub_badge_from skip t ++ Re.sub_badge (String "[" (String "!" x)))%string.
Proof.
  revert skip. induction t as [|c t IH]; intros skip Hs.
  - simpl in Hs. assert (skip = 0%nat) as -> by lia. reflexivity.
  - change (String c t ++ String "[" (String "!" x))%string
      with (String c (t ++ String "[" (String "!" x))).
    cbn [Re.sub_badge_from]. destruct skip as [|k].
    + change (String c (t ++ String "[" (String "!" x)))
        with (String c t ++ String "[" (String "!" x))%string.
      rewrite match_badge_app by discriminate.
      destruct (Re.match_badge (String c t)) as [len|] eqn:E.
      * apply IH. apply match_badge_length in E. simpl in E. lia.
      * cbn [String.append]. f_equal. apply IH. lia.
    + apply IH. simpl in Hs. lia.
Qed.

Lemma sub_badge_app x t :
  Re.sub_badge (t ++ String "[" (String "!" x))
  = (Re.sub_badge t ++ Re.sub_badge (String "[" (String "!" x)))%string.
Proof. apply sub_badge_from_app. lia. Qed.

(** ** The badge of a count *)

Lemma uint_digits d : str_forallb PyStr.isdigit (NilEmpty.string_of_uint d) = true.
Proof.
  induction d; cbn [NilEmpty.string_of_uint str_forallb]; try reflexivity;
    rewrite IHd; reflexivity.
Qed.

Lemma uint_not_empty d : NilZero.string_of_uint d <> EmptyString.
Proof. destruct d; discriminate. Qed.

(** [str(n)] of a count that is not negative is a non-empty run of digits. *)
Lemma of_Z_digits n :
  (0 <= n)%Z ->
  PyStr.of_Z n <> EmptyString /\ str_forallb PyStr.isdigit (PyStr.of_Z n) = true.
Proof.
  intros Hn. unfold PyStr.of_Z. destruct n as [|p|p]; [split; [discriminate|reflexivity]| |lia].
  cbn [Z.to_int NilZero.string_of_int]. split; [apply uint_not_empty|].
  unfold NilZero.string_of_uint. destruct (Pos.to_uint p) eqn:E; try reflexivity;
    rewrite <- E; apply uint_digits.
Qed.

Lemma new_badge_text n rest :
  (new_badge_of n ++ rest)%string
  = (Re.badge_prefix ++ PyStr.of_Z n ++ Re.badge_suffix ++ rest)%string.
Proof.
  unfold new_badge_of.
  change "[![](https://img.shields.io/badge/citation-"%string with Re.badge_prefix.
  change "-blue)]()"%string with Re.badge_suffix.
  now rewrite !str_app_assoc.
Qed.

(** The pattern of the badge matches the badge the code writes. *)
Lemma new_badge_matches n rest :
  (0 <= n)%Z ->
  Re.match_badge (new_badge_of n ++ rest) = Some (String.length (new_badge_of n)).
Proof.
  intros Hn. destruct (of_Z_digits n Hn) as [Hne Hd].
  apply match_badge_spec. exists (PyStr.of_Z n), rest.
  split; [apply new_badge_text|]. split; [exact Hne|]. split; [exact Hd|].
  unfold new_badge_of.
  change "[![](https://img.shields.io/badge/citation-"%string with Re.badge_prefix.
  change "-blue)]()"%string with Re.badge_suffix.
  rewrite !str_length_app. lia.
Qed.

(** Putting one badge in the place of another leaves [re.sub]'s result as
    it was. *)
Lemma replace_badge_sub doc q len nb :
  Re.match_badge (PyStr.drop q doc) = Some len ->
  Re.match_badge (nb ++ PyStr.drop (q + len) doc) = Some (String.length nb) ->
  Re.sub_badge (PyStr.take q doc ++ nb ++ PyStr.drop (q + len) doc)
  = Re.sub_badge doc.
Proof.
  intros Hold Hnew.
  transitivity (Re.sub_badge (PyStr.take q doc ++ PyStr.drop q doc));
    [|now rewrite take_drop].
  destruct (match_badge_starts _ _ Hold) as [x Ex].
  destruct (match_badge_starts _ _ Hnew) as [y Ey].
  pose proof (sub_badge_at_match _ _ Hold) as So.
  pose proof (sub_badge_at_match _ _ Hnew) as Sn.
  rewrite drop_app_length in Sn. rewrite <- drop_add in So.
  rewrite Ex in So. rewrite Ey in Sn. rewrite Ex, Ey, !sub_badge_app.
  f_equal. congruence.
Qed.

Lemma patch_paper_sub citations_data md_content updated_count error_count paper_title :
  (forall info, Dict.get paper_title citations_data = Some info ->
                (0 <= Paper.citations info)%Z) ->
  Re.sub_badge
    (fst (fst (patch_paper citations_data (md_content, updated_count, error_count)
                           paper_title)))
  = Re.sub_badge md_content.
Proof.
  intros Hn. unfold patch_paper.
  destruct (Dict.get paper_title citations_data) as [info|]; [|reflexivity].
  specialize (Hn info eq_refl).
  destruct (Re.finditer_title paper_title md_content) as [|match_pos [|? ?]];
    try reflexivity.
  destruct (Re.search_badge (PyStr.drop match_pos md_content)) as [[b e]|] eqn:Es;
    [|reflexivity].
  cbn [fst]. apply search_badge_some in Es. destruct Es as (Hle & Hm & _).
  rewrite <- drop_add in Hm.
  replace (match_pos + e)%nat with (match_pos + b + (e - b))%nat by lia.
  apply replace_badge_sub; [exact Hm|]. now apply new_badge_matches.
Qed.

Lemma patch_fold_sub citations_data titles st :
  (forall title info, In title titles -> Dict.get title citations_data = Some info ->
                      (0 <= Paper.citations info)%Z) ->
  Re.sub_badge (fst (fst (fold_left (patch_paper citations_data) titles st)))
  = Re.sub_badge (fst (fst st)).
Proof.
  revert st. induction titles as [|title titles IH]; intros st Hn; [reflexivity|].
  cbn [fold_left]. rewrite IH by (intros t i Hin; apply Hn; now right).
  destruct st as [[md uc] ec]. apply patch_paper_sub.
  intros info. apply Hn. now left.
Qed.

(** X13.  When no record of the papers to update has a negative citation
    count, the patching loop leaves the text without its badges as it was,
    whatever the titles and the text are; so, for a readable document and
    a list that is not empty, the integrity check passes:
    [update_readme_citations] returns [True] and writes the patched text. *)
Theorem nonnegative_counts_pass_check (citations_data : store)
        (updated_papers_list : list Updated.t) (w : world) (original_content : string) :
  readme_file w = Content original_content ->
  (forall u info, In u updated_papers_list ->
     Dict.get (Updated.title u) citations_data = Some info ->
     (0 <= Paper.citations info)%Z) ->
  let md_content :=
    fst (fst (patch_all citations_data (map Updated.title updated_papers_list)
                        original_content)) in
  Re.sub_badge md_content = Re.sub_badge original_content /\
  (updated_papers_list <> [] ->
   update_readme_citations citations_data updated_papers_list w
   = Some (true, log (EvWriteReadme md_content) (with_readme md_content w))).
Proof.
  intros Hr Hn md_content.
  assert (Hsub : Re.sub_badge md_content = Re.sub_badge original_content).
  { unfold md_content, patch_all.
    rewrite patch_fold_sub; [reflexivity|].
    intros title info Hin. apply in_map_iff in Hin. destruct Hin as (u & <- & Hu).
    now apply Hn. }
  split; [exact Hsub|]. intros Hne.
  unfold update_readme_citations.
  destruct updated_papers_list as [|u l]; [congruence|].
  unfold bind, read_readme. rewrite Hr.
  fold md_content in Hsub. revert Hsub. unfold md_content.
  destruct (patch_all citations_data (map Updated.title (u :: l)) original_content)
    as [[md uc] ec].
  cbn [fst]. intros ->. now rewrite String.eqb_refl.
Qed.

Lemma nonnegative_counts_pass_check_witness :
  let w := Sample.w_lookup Sample.store_counted (fun _ => Status429) in
  let md_content :=
    fst (fst (patch_all Sample.store_counted [Sample.title_a] Sample.doc)) in
  Re.sub_badge md_content = Re.sub_badge Sample.doc /\
  update_readme_citations Sample.store_counted [Sample.updated_a] w
  = Some (true, log (EvWriteReadme md_content) (with_readme md_content w)).
Proof.
  destruct (nonnegative_counts_pass_check Sample.store_counted [Sample.updated_a]
              (Sample.w_lookup Sample.store_counted (fun _ => Status429)) Sample.doc)
    as [H1 H2].
  - reflexivity.
  - intros u info [<-|[]] H. vm_compute in H. injection H as <-.
    vm_compute. discriminate.
  - split; [exact H1 | apply H2; discriminate].
Defined.

(** ** The badge after a patch *)

Lemma take_length n s :
  (n <= String.length s)%nat -> String.length (PyStr.take n s) = n.
Proof.
  revert s. induction n as [|n IH]; intros s H; [reflexivity|].
  destruct s as [|c s]; simpl in H; [lia|].
  cbn [PyStr.take String.length]. rewrite IH; lia.
Qed.

Lemma drop_length n s : String.length (PyStr.drop n s) = (String.length s - n)%nat.
Proof.
  revert s. induction n as [|n IH]; intros s; [simpl; lia|].
  destruct s as [|c s]; [reflexivity|]. cbn [PyStr.drop String.length]. apply IH.
Qed.

Lemma drop_not_empty n s :
  PyStr.drop n s <> EmptyString -> (n < String.length s)%nat.
Proof.
  intros H. destruct (Nat.lt_ge_cases n (String.length s)) as [Hl|Hg]; [exact Hl|].
  exfalso. apply H. pose proof (drop_length n s) as L.
  destruct (PyStr.drop n s); [reflexivity | simpl in L; lia].
Qed.

Lemma drop_app_le j t r :
  (j <= String.length t)%nat -> PyStr.drop j (t ++ r) = (PyStr.drop j t ++ r)%string.
Proof.
  revert t. induction j as [|j IH]; intros t H; [reflexivity|].
  destruct t as [|c t]; simpl in H; [lia|].
  cbn [String.append PyStr.drop]. apply IH. lia.
Qed.

Lemma drop_take_app a b s r :
  (a <= String.length s)%nat ->
  PyStr.drop a (PyStr.take (a + b) s ++ r) = (PyStr.take b (PyStr.drop a s) ++ r)%string.
Proof.
  revert s. induction a as [|a IH]; intros s H; [reflexivity|].
  destruct s as [|c s]; simpl in H; [lia|].
  cbn [Nat.add PyStr.take String.append PyStr.drop]. apply IH. lia.
Qed.

Lemma take_app_length t r : PyStr.take (String.length t) (t ++ r) = t.
Proof.
  induction t as [|c t IH]; [reflexivity|].
  cbn [String.length String.append PyStr.take]. now rewrite IH.
Qed.

(** [re.search] finds a match at [b] when there is one and none starts
    before it. *)
Lemma search_badge_intro s b len :
  (forall j, (j < b)%nat -> Re.match_badge (PyStr.drop j s) = None) ->
  Re.match_badge (PyStr.drop b s) = Some len ->
  Re.search_badge s = Some (b, (b + len)%nat).
Proof.
  revert s. induction b as [|b IH]; intros s Hnone Hm.
  - cbn [PyStr.drop] in Hm. destruct s; cbn [Re.search_badge]; now rewrite Hm.
  - destruct s as [|c s]; [discriminate|].
    cbn [Re.search_badge]. pose proof (Hnone 0%nat ltac:(lia)) as H0.
    cbn [PyStr.drop] in H0. rewrite H0.
    rewrite (IH s); [reflexivity | | exact Hm].
    intros j Hj. apply (Hnone (S j)). lia.
Qed.

(** Before the place of a badge, a text matches as it does with another
    badge in that place. *)
Lemma match_before_badge t x y j :
  (j < String.length t)%nat ->
  Re.match_badge (PyStr.drop j (t ++ String "[" (String "!" x)))
  = Re.match_badge (PyStr.drop j (t ++ String "[" (String "!" y))).
Proof.
  intros Hj. rewrite !drop_app_le by lia.
  assert (Hne : PyStr.drop j t <> EmptyString).
  { intros E. pose proof (drop_length j t) as L. rewrite E in L. simpl in L. lia. }
  now rewrite !match_badge_app.
Qed.

(** X14.  After a turn of the patching loop that replaced a badge for a
    record whose count is not negative, a new search from the position of
    the title finds a badge at the same place as before, and the text
    there is the badge of the record's count. *)
Theorem patched_badge_shows_count (citations_data : store) (md_content : string)
        (updated_count error_count : nat) (paper_title : string)
        (match_pos badge_start badge_end : nat) (paper_info : Paper.t) :
  Dict.get paper_title citations_data = Some paper_info ->
  (0 <= Paper.citations paper_info)%Z ->
  Re.finditer_title paper_title md_content = [match_pos] ->
  Re.search_badge (PyStr.drop match_pos md_content) = Some (badge_start, badge_end) ->
  let patched :=
    fst (fst (patch_paper citations_data (md_content, updated_count, error_count)
                          paper_title)) in
  let new_badge := new_badge_of (Paper.citations paper_info) in
  Re.search_badge (PyStr.drop match_pos patched)
  = Some (badge_start, (badge_start + String.length new_badge)%nat) /\
  PyStr.take (String.length new_badge) (PyStr.drop (match_pos + badge_start) patched)
  = new_badge.
Proof.
  intros Hget Hn Hfind Es patched new_badge.
  assert (Hp : patched
               = (PyStr.take (match_pos + badge_start) md_content ++ new_badge
                  ++ PyStr.drop (match_pos + badge_end) md_content)%string).
  { unfold patched, patch_paper. now rewrite Hget, Hfind, Es. }
  clearbody patched. subst patched.
  apply search_badge_some in Es. destruct Es as (Hle & Hm & Hnone).
  assert (Hb : (badge_start < String.length (PyStr.drop match_pos md_content))%nat).
  { apply drop_not_empty. intros E. now rewrite E in Hm. }
  rewrite drop_length in Hb.
  set (after := PyStr.drop (match_pos + badge_end) md_content).
  pose proof (new_badge_matches (Paper.citations paper_info) after Hn) as Hnew.
  fold new_badge in Hnew.
  destruct (match_badge_starts _ _ Hnew) as [y Ey].
  destruct (match_badge_starts _ _ Hm) as [x Ex].
  split.
  - rewrite drop_take_app by lia.
    set (t := PyStr.take badge_start (PyStr.drop match_pos md_content)).
    assert (Ht : String.length t = badge_start)
      by (apply take_length; rewrite drop_length; lia).
    apply search_badge_intro.
    + intros j Hj. rewrite Ey, (match_before_badge t y x j) by lia.
      rewrite <- Ex. unfold t. rewrite take_drop. now apply Hnone.
    + rewrite <- Ht at 1. now rewrite drop_app_length.
  - replace (match_pos + badge_start)%nat
      with (String.length (PyStr.take (match_pos + badge_start) md_content))
      at 1 by (apply take_length; lia).
    rewrite drop_app_length. apply take_app_length.
Qed.

Lemma patched_badge_shows_count_witness :
  let patched :=
    fst (fst (patch_paper Sample.store_counted (Sample.doc, 0%nat, 0%nat)
                          Sample.title_a)) in
  Re.search_badge (PyStr.drop 9 patched)
  = Some (52%nat, (52 + String.length (new_badge_of 12))%nat) /\
  PyStr.take (String.length (new_badge_of 12)) (PyStr.drop (9 + 52) patched)
  = new_badge_of 12.
Proof.
  apply (patched_badge_shows_count Sample.store_counted Sample.doc 0 0 Sample.title_a
           9 52 105 (Paper.mk Sample.title_a 12 (Some "2024-03-02-12:00:00"%string))).
  - vm_compute. reflexivity.
  - vm_compute. discriminate.
  - vm_compute. reflexivity.
  - vm_compute. reflexivity.
Defined.

(** ** The authors of a paper in the document *)

Local Open Scope string_scope.

Lemma span_app_all p a r :
  str_forallb p a = true ->
  Re.span p (a ++ r) = (String.length a + Re.span p r)%nat.
Proof.
  intros Ha. induction a as [|c a IH]; [reflexivity|].
  cbn [str_forallb] in Ha. apply andb_prop in Ha. destruct Ha as [Hc Ha].
  cbn [String.append Re.span String.length]. now rewrite Hc, IH.
Qed.

Lemma prefix_app p r : String.prefix p (p ++ r) = true.
Proof. apply prefix_app_iff. now exists r. Qed.

(** A turn of the group on a link and what follows it. *)
Lemma match_link_some l rest :
  Link.ok l = true ->
  ReAuthor.match_link (Link.text l ++ rest)
  = Some (String.length (Link.text l) + Re.span PyStr.isspace rest)%nat.
Proof.
  intros Hok. unfold Link.ok in Hok.
  apply andb_prop in Hok. destruct Hok as [Hok Hg].
  apply andb_prop in Hok. destruct Hok as [Hok Ht].
  apply andb_prop in Hok. destruct Hok as [Hx Hl].
  destruct l as [x y ws]. cbn [Link.label Link.target Link.gap] in *.
  unfold Link.text. cbn [Link.label Link.target Link.gap].
  assert (Hxl : (0 <? String.length x)%nat = true).
  { apply Nat.ltb_lt. destruct x; [discriminate | simpl; lia]. }
  rewrite !str_app_assoc. unfold ReAuthor.match_link.
  rewrite prefix_app.
  set (U := (y ++ ")" ++ ws ++ rest)).
  set (T := (x ++ "]](" ++ U)).
  change (PyStr.drop 2 ("[[" ++ T)) with T.
  assert (Sx : Re.span ReAuthor.not_rbracket T = String.length x).
  { unfold T. change ("]](" ++ U) with (String "]" ("](" ++ U)). now apply span_app. }
  rewrite Sx, Hxl.
  assert (Dx : PyStr.drop (String.length x) T = "]](" ++ U) by apply drop_app_length.
  rewrite drop_add, Dx, prefix_app.
  change (PyStr.drop 3 ("]](" ++ U)) with U. cbn [andb].
  assert (Sy : Re.span ReAuthor.not_rparen U = String.length y).
  { unfold U. change (")" ++ ws ++ rest) with (String ")" (ws ++ rest)). now apply span_app. }
  rewrite Sy.
  assert (Dy : PyStr.drop (String.length y) U = ")" ++ ws ++ rest) by apply drop_app_length.
  rewrite drop_add, Dy, prefix_app.
  change (PyStr.drop 1 (")" ++ ws ++ rest)) with (ws ++ rest).
  rewrite span_app_all by exact Hg.
  f_equal. rewrite !str_length_app. simpl. lia.
Qed.

Lemma match_link_prefix s n :
  ReAuthor.match_link s = Some n -> String.prefix "[[" s = true.
Proof.
  unfold ReAuthor.match_link. now destruct (String.prefix "[[" s).
Qed.

Lemma match_links_prefix fuel s g :
  ReAuthor.match_links fuel s = Some g -> String.prefix "[[" s = true.
Proof.
  destruct fuel as [|fuel]; [discriminate|]. cbn [ReAuthor.match_links].
  destruct (ReAuthor.match_link s) as [n|] eqn:E; [|discriminate].
  intros _. now apply match_link_prefix in E.
Qed.

Lemma match_links_none fuel s :
  String.prefix "[[" s = false -> ReAuthor.match_links fuel s = None.
Proof.
  intros H. destruct (ReAuthor.match_links fuel s) eqn:E; [|reflexivity].
  apply match_links_prefix in E. congruence.
Qed.

(** The pattern needs a link to start with. *)
Lemma search_author_contains s g :
  ReAuthor.search_author s = Some g -> PyStr.contains "[[" s = true.
Proof.
  induction s as [|c s IH]; cbn [ReAuthor.search_author PyStr.contains].
  - discriminate.
  - destruct (ReAuthor.match_author (String c s)) as [g'|] eqn:E.
    + intros _. apply match_links_prefix in E. now rewrite E.
    + intros H. rewrite (IH H). apply orb_true_r.
Qed.

Lemma search_author_here s g :
  ReAuthor.match_author s = Some g -> ReAuthor.search_author s = Some g.
Proof. intros H. destruct s; cbn [ReAuthor.search_author]; now rewrite H. Qed.

Lemma search_author_skip pre s :
  str_forallb not_lbracket pre = true ->
  ReAuthor.search_author (pre ++ s) = ReAuthor.search_author s.
Proof.
  intros Hp. induction pre as [|c pre IH]; [reflexivity|].
  cbn [str_forallb] in Hp. apply andb_prop in Hp. destruct Hp as [Hc Hp].
  cbn [String.append ReAuthor.search_author].
  unfold ReAuthor.match_author. rewrite match_links_none; [now apply IH|].
  cbn [String.prefix]. destruct (ascii_dec "[" c) as [<-|]; [discriminate | reflexivity].
Qed.

Lemma links_text_length ls :
  (length ls <= String.length (links_text ls))%nat.
Proof.
  induction ls as [|l ls IH]; [simpl; lia|].
  cbn [links_text fold_right length]. fold (links_text ls).
  rewrite str_length_app. unfold Link.text. simpl. lia.
Qed.

(** Links, then a text [r] that is no link and starts with a field. *)
Lemma match_links_field ls c r g fuel :
  ls <> [] -> forallb Link.ok ls = true ->
  PyStr.isspace c = false ->
  (forall f, ReAuthor.match_links f (String c r) = None) ->
  ReAuthor.match_field (String c r) = Some g ->
  (length ls <= fuel)%nat ->
  ReAuthor.match_links fuel (links_text ls ++ String c r) = Some g.
Proof.
  intros Hne Hok Hc Hnone Hf. revert fuel Hne.
  induction ls as [|l ls IH]; intros fuel Hne Hfuel; [congruence|].
  cbn [forallb] in Hok. apply andb_prop in Hok. destruct Hok as [Hl Hok].
  destruct fuel as [|fuel]; [simpl in Hfuel; lia|].
  cbn [links_text fold_right]. fold (links_text ls). rewrite str_app_assoc.
  cbn [ReAuthor.match_links]. rewrite (match_link_some l _ Hl).
  destruct ls as [|l' ls].
  - cbn [links_text fold_right String.append Re.span]. rewrite Hc, Nat.add_0_r.
    rewrite drop_app_length. now rewrite Hnone.
  - assert (Hs : Re.span PyStr.isspace (links_text (l' :: ls) ++ String c r) = 0%nat).
    { cbn [links_text fold_right]. unfold Link.text. reflexivity. }
    rewrite Hs, Nat.add_0_r, drop_app_length.
    rewrite IH; [reflexivity | exact Hok | discriminate | simpl in *; lia].
Qed.

Lemma not_lbracket_prefix t :
  str_forallb not_lbracket t = true -> String.prefix "[[" t = false.
Proof.
  destruct t as [|c t]; [reflexivity|]. cbn [str_forallb String.prefix].
  intros H. apply andb_prop in H. destruct H as [Hc _].
  destruct (ascii_dec "[" c) as [<-|]; [discriminate | reflexivity].
Qed.

Lemma not_lbracket_field t :
  str_forallb not_lbracket t = true -> ReAuthor.match_field t = None.
Proof.
  destruct t as [|c t]; [reflexivity|]. cbn [str_forallb].
  intros H. apply andb_prop in H. destruct H as [Hc _].
  destruct c as [[] [] [] [] [] [] [] []]; try reflexivity; discriminate.
Qed.

Lemma str_forallb_drop p k t :
  str_forallb p t = true -> str_forallb p (PyStr.drop k t) = true.
Proof.
  revert t. induction k as [|k IH]; intros t H; [exact H|].
  destruct t as [|c t]; [reflexivity|]. cbn [PyStr.drop]. apply IH.
  cbn [str_forallb] in H. apply andb_prop in H. tauto.
Qed.

Lemma field_matches g rest :
  g <> EmptyString -> str_forallb ReAuthor.not_rbracket g = true ->
  ReAuthor.match_field (String "[" (g ++ String "]" rest)) = Some g.
Proof.
  intros Hne Hg. cbn [ReAuthor.match_field].
  rewrite (span_app _ g "]" rest Hg eq_refl).
  assert (Hl : (0 <? String.length g)%nat = true).
  { apply Nat.ltb_lt. destruct g; [congruence | simpl; lia]. }
  rewrite Hl, drop_app_length, take_app_length.
  change (String "]" rest) with ("]" ++ rest). now rewrite prefix_app.
Qed.

Lemma field_not_link g r f :
  g <> EmptyString -> String.prefix "[" g = false ->
  ReAuthor.match_links f (String "[" (g ++ r)) = None.
Proof.
  intros Hne Hp. apply match_links_none.
  destruct g as [|c g]; [congruence|]. cbn [String.append String.prefix] in *.
  destruct (ascii_dec "[" "[") as [_|n]; [|congruence].
  destruct (ascii_dec "[" c); [|reflexivity]. destruct g; discriminate.
Qed.

(** A link and a tail without [[]: no field follows, so the pattern does
    not match there. *)
Lemma last_link_fails l tail f :
  Link.ok l = true -> str_forallb not_lbracket tail = true ->
  ReAuthor.match_links f (Link.text l ++ tail) = None.
Proof.
  intros Hl Ht. destruct f as [|f]; [reflexivity|].
  cbn [ReAuthor.match_links]. rewrite (match_link_some l tail Hl).
  rewrite drop_add, drop_app_length.
  pose proof (str_forallb_drop _ (Re.span PyStr.isspace tail) _ Ht) as Hd.
  rewrite match_links_none by now apply not_lbracket_prefix.
  now apply not_lbracket_field.
Qed.

(** The field read at a link is [[] and the label. *)
Lemma link_read_as_field l tail :
  Link.ok l = true ->
  ReAuthor.match_field (Link.text l ++ tail) = Some ("[" ++ Link.label l).
Proof.
  intros Hok. unfold Link.ok in Hok.
  apply andb_prop in Hok. destruct Hok as [Hok _].
  apply andb_prop in Hok. destruct Hok as [Hok _].
  apply andb_prop in Hok. destruct Hok as [_ Hx].
  unfold Link.text. rewrite !str_app_assoc.
  change ("[[" ++ Link.label l ++ "]](" ++ Link.target l ++ ")" ++ Link.gap l ++ tail)
    with (String "[" (("[" ++ Link.label l)
                      ++ String "]" ("](" ++ Link.target l ++ ")" ++ Link.gap l ++ tail))).
  apply field_matches; [discriminate|].
  cbn [String.append str_forallb]. now rewrite Hx.
Qed.

Lemma extract_authors_run title w content :
  readme_file w = Content content ->
  extract_authors_from_readme title w = Some (Extracted (authors_in content title), w).
Proof.
  intros H. unfold extract_authors_from_readme, bind, read_readme. now rewrite H.
Qed.

Lemma authors_in_line content title line g :
  line_content content title = Some line ->
  ReAuthor.search_author line = Some g ->
  authors_in content title
  = if is_author_text (PyStr.strip g) then PyStr.strip g else authors_not_found.
Proof. intros Hl Hs. unfold authors_in. now rewrite Hl, Hs. Qed.

(** X15.  The pattern of the author field starts with a link: when the
    line cut out behind the title has no [[[], no authors are reported,
    whatever else the line holds, and the world is left as it was. *)
Theorem authors_need_a_link (title : string) (w : world) (content line : string) :
  readme_file w = Content content ->
  line_content content title = Some line ->
  PyStr.contains "[[" line = false ->
  extract_authors_from_readme title w = Some (Extracted authors_not_found, w).
Proof.
  intros Hr Hl Hc. rewrite (extract_authors_run _ _ _ Hr). unfold authors_in.
  rewrite Hl. destruct (ReAuthor.search_author line) as [g|] eqn:E; [|reflexivity].
  apply search_author_contains in E. congruence.
Qed.

Lemma authors_need_a_link_witness :
  extract_authors_from_readme "T"
    (Sample.world_of (Content "**T** [Authors A]") Absent (fun _ => Status429))
  = Some (Extracted authors_not_found,
          Sample.world_of (Content "**T** [Authors A]") Absent (fun _ => Status429)).
Proof.
  apply (authors_need_a_link "T" _ "**T** [Authors A]" " [Authors A]");
    vm_compute; reflexivity.
Defined.

(** X16.  When the line behind the title is, after a text without [[], one
    or more links and then a field [[g]] that does not start with [[], the
    field is what is read: the stripped [g] is reported if it passes the
    test on authors, and otherwise no authors are. *)
Theorem author_field_after_links (title : string) (w : world) (content pre : string)
        (ls : list Link.t) (g rest : string) :
  readme_file w = Content content ->
  line_content content title
  = Some (pre ++ links_text ls ++ "[" ++ g ++ "]" ++ rest) ->
  str_forallb not_lbracket pre = true ->
  ls <> [] -> forallb Link.ok ls = true ->
  g <> EmptyString -> str_forallb ReAuthor.not_rbracket g = true ->
  String.prefix "[" g = false ->
  extract_authors_from_readme title w
  = Some (Extracted (if is_author_text (PyStr.strip g) then PyStr.strip g
                     else authors_not_found), w).
Proof.
  intros Hr Hl Hpre Hne Hok Hg Hgb Hgp.
  rewrite (extract_authors_run _ _ _ Hr).
  rewrite (authors_in_line _ _ _ g Hl); [reflexivity|].
  rewrite search_author_skip by exact Hpre. apply search_author_here.
  unfold ReAuthor.match_author.
  change ("[" ++ g ++ "]" ++ rest) with (String "[" (g ++ String "]" rest)).
  apply match_links_field; try assumption.
  - reflexivity.
  - intros f. now apply field_not_link.
  - now apply field_matches.
  - rewrite str_length_app. pose proof (links_text_length ls). lia.
Qed.

Lemma author_field_after_links_witness :
  extract_authors_from_readme Sample.title_a
    (Sample.w_lookup Sample.store_a (fun _ => Status429))
  = Some (Extracted "Authors", Sample.w_lookup Sample.store_a (fun _ => Status429)).
Proof.
  etransitivity.
  - apply (author_field_after_links Sample.title_a _ Sample.doc ""
             [Link.mk "paper" "u" " "] "Authors" (" " ++ Sample.badge "5"));
      try (vm_compute; reflexivity); discriminate.
  - vm_compute. reflexivity.
Defined.

(** X17.  When the line behind the title is, after a text without [[], two
    or more links and a tail without [[], the pattern still matches: the
    engine gives the last link back and reads it as the field, so [[] and
    the label of the last link are taken for the authors. *)
Theorem link_label_reported_as_author (title : string) (w : world) (content pre : string)
        (ls : list Link.t) (l : Link.t) (tail : string) :
  readme_file w = Content content ->
  line_content content title = Some (pre ++ links_text ls ++ Link.text l ++ tail) ->
  str_forallb not_lbracket pre = true ->
  ls <> [] -> forallb Link.ok ls = true -> Link.ok l = true ->
  str_forallb not_lbracket tail = true ->
  let authors := PyStr.strip ("[" ++ Link.label l) in
  extract_authors_from_readme title w
  = Some (Extracted (if is_author_text authors then authors else authors_not_found), w).
Proof.
  intros Hr Hl Hpre Hne Hok Hlok Htail authors.
  rewrite (extract_authors_run _ _ _ Hr).
  rewrite (authors_in_line _ _ _ ("[" ++ Link.label l) Hl); [reflexivity|].
  rewrite search_author_skip by exact Hpre. apply search_author_here.
  unfold ReAuthor.match_author.
  assert (E : exists r, (Link.text l ++ tail) = String "[" r).
  { unfold Link.text. rewrite !str_app_assoc. cbn [String.append]. eauto. }
  destruct E as [r E].
  pose proof (last_link_fails l tail) as Hnone.
  pose proof (link_read_as_field l tail Hlok) as Hf.
  rewrite E in Hnone, Hf |- *.
  apply match_links_field; try assumption.
  - reflexivity.
  - intros f. now apply Hnone.
  - rewrite str_length_app. pose proof (links_text_length ls). lia.
Qed.

Lemma link_label_reported_as_author_witness :
  extract_authors_from_readme "T"
    (Sample.world_of (Content "**T** [[paper]](u) [[code]](v)") Absent
                     (fun _ => Status429))
  = Some (Extracted "[code",
          Sample.world_of (Content "**T** [[paper]](u) [[code]](v)") Absent
                          (fun _ => Status429)).
Proof.
  etransitivity.
  - apply (link_label_reported_as_author "T" _ "**T** [[paper]](u) [[code]](v)" " "
             [Link.mk "paper" "u" " "] (Link.mk "code" "v" "") "");
      try (vm_compute; reflexivity); discriminate.
  - vm_compute. reflexivity.
Defined.

Lemma match_link_pos s n : ReAuthor.match_link s = Some n -> (1 <= n)%nat.
Proof.
  unfold ReAuthor.match_link.
  repeat match goal with
         | |- context [if ?b then _ else _] => destruct b
         end; try discriminate.
  intros [= <-]. lia.
Qed.

(** More fuel than the length of the text changes nothing. *)
Lemma match_links_fuel f s :
  (String.length s <= f)%nat ->
  ReAuthor.match_links (S f) s = ReAuthor.match_links f s.
Proof.
  revert s. induction f as [|f IH]; intros s H.
  - destruct s; [reflexivity | simpl in H; lia].
  - cbn [ReAuthor.match_links]. destruct (ReAuthor.match_link s) as [n|] eqn:E;
      [|reflexivity].
    apply match_link_pos in E.
    assert (Hd : (String.length (PyStr.drop n s) <= f)%nat)
      by (rewrite drop_length; lia).
    specialize (IH _ Hd). cbn [ReAuthor.match_links] in IH. now rewrite IH.
Qed.

Lemma finditer_from_first lit n s pos :
  (forall j, (j < n)%nat -> String.prefix lit (PyStr.drop j s) = false) ->
  String.prefix lit (PyStr.drop n s) = true ->
  PyStr.drop n s <> EmptyString ->
  exists l, Re.finditer_from lit pos 0 s = (pos + n)%nat :: l.
Proof.
  revert s pos. induction n as [|n IH]; intros s pos Hnone Hp Hne.
  - cbn [PyStr.drop] in *. destruct s as [|c s]; [congruence|].
    cbn [Re.finditer_from]. rewrite Hp, Nat.add_0_r. eauto.
  - destruct s as [|c s]; [now cbn [PyStr.drop] in Hne|].
    cbn [Re.finditer_from]. pose proof (Hnone 0%nat ltac:(lia)) as H0.
    cbn [PyStr.drop] in H0, Hp, Hne. rewrite H0.
    destruct (IH s (S pos)) as [l El]; [|exact Hp|exact Hne|].
    + intros j Hj. apply (Hnone (S j)). lia.
    + exists l. rewrite El. f_equal. lia.
Qed.

(** The first line of a window on a line and what follows it. *)
Lemma first_line_of_window n line rest :
  str_forallb not_newline line = true ->
  (rest = EmptyString \/ exists r, rest = String "010" r) ->
  let window := PyStr.take n (line ++ rest) in
  PyStr.take (Re.span not_newline window) window = PyStr.take n line.
Proof.
  intros Hl Hr. cbv zeta. revert line Hl. induction n as [|n IH]; intros line Hl.
  - reflexivity.
  - destruct line as [|c line].
    + cbn [String.append]. destruct Hr as [->|[r ->]]; reflexivity.
    + cbn [str_forallb] in Hl. apply andb_prop in Hl. destruct Hl as [Hc Hl].
      cbn [String.append PyStr.take Re.span]. rewrite Hc.
      cbn [PyStr.take]. now rewrite IH.
Qed.

(** X18.  The line that is searched for authors is one line: for a text
    that has the title markup first behind [before], then [line] without
    a line feed, then the end of the text or a line feed, it is the first
    500 characters of [line], whatever stands before the markup or behind
    the line feed. *)
Theorem authors_read_from_title_line (content title before line rest : string) :
  content = before ++ Re.title_markup title ++ line ++ rest ->
  (forall j, (j < String.length before)%nat ->
             String.prefix (Re.title_markup title) (PyStr.drop j content) = false) ->
  str_forallb not_newline line = true ->
  (rest = EmptyString \/ exists r, rest = String "010" r) ->
  line_content content title = Some (PyStr.take 500 line).
Proof.
  intros Hc Hfirst Hline Hrest.
  assert (Hd : PyStr.drop (String.length before) content
               = Re.title_markup title ++ line ++ rest)
    by (rewrite Hc; apply drop_app_length).
  destruct (finditer_from_first (Re.title_markup title) (String.length before)
              content 0 Hfirst) as [l El].
  - rewrite Hd. apply prefix_app.
  - rewrite Hd. unfold Re.title_markup. discriminate.
  - unfold line_content, Re.finditer_title. rewrite El. cbn [Nat.add].
    rewrite drop_add, Hd, drop_app_length. f_equal.
    now apply first_line_of_window.
Qed.

Lemma authors_read_from_title_line_witness :
  line_content Sample.doc Sample.title_a
  = Some (PyStr.take 500 ("[[paper]](u) [Authors] " ++ Sample.badge "5")).
Proof.
  apply (authors_read_from_title_line Sample.doc Sample.title_a
           ("# Papers" ++ String "010" "")
           ("[[paper]](u) [Authors] " ++ Sample.badge "5")
           (String "010" (Sample.line Sample.title_b "7"))).
  - vm_compute. reflexivity.
  - intros j Hj. vm_compute in Hj.
    do 9 (destruct j as [|j]; [vm_compute; reflexivity|]). lia.
  - vm_compute. reflexivity.
  - right. eexists. reflexivity.
Defined.
